(** * DensLowRank: low-rank density estimation, continuous case

    A shallow embedding of [DensLowRank/model/continuous/low_rank.py]:
    the low-rank block estimator [our_algo] (Algorithm 1), the univariate
    estimator [our_algo_3] (Algorithm 3) and the bivariate estimator
    [our_algo_2] (Algorithm 2).

    Numbers.  The program computes on float64.  Finite values are modelled
    as real numbers; the IEEE special values are modelled where numpy can
    produce them from finite inputs, that is at a division by zero
    ([npfloat]).  Python integers are [Z], lengths and loop counters are
    [nat].  The three estimators are first embedded with exact arithmetic.
    Where a property hinges on the rounding of a float operation (the
    floor of line 194 under the guard of line 188), [our_algo_3] is
    embedded a second time with the rounding of every operation kept
    ([our_algo_3_r]); its instance [RN64] is binary64 round-to-nearest-even
    and [pow_rn] is the correctly rounded power.

    Domain.  The docstrings require [alpha], [cstar], [Cbar], [L] to be
    positive; the embedding follows the source on that domain, with finite
    (non-NaN) samples and histogram entries. *)

From Stdlib Require Import Reals Lra Lia ZArith List Bool Arith.
From Stdlib Require Import Permutation Sorted.
Import ListNotations.
Local Open Scope R_scope.

(* ------------------------------------------------------------------ *)
(** ** Python exceptions and the error monad *)

(** The exception classes the three functions can raise. *)
Inductive exn : Type :=
| NameError          (* a free name that no scope binds *)
| IndexError         (* subscript out of range *)
| ValueError         (* shapes that do not broadcast, empty reduction, int(nan) *)
| ZeroDivisionError  (* [0 ** -1] on Python integers *)
| OverflowError      (* int(inf) *)
| AxisError.         (* numpy: axis out of bounds *)

Inductive result (A : Type) : Type :=
| Ok (a : A)
| Raise (e : exn).
Arguments Ok {A} a.
Arguments Raise {A} e.

Definition bind {A B : Type} (m : result A) (k : A -> result B) : result B :=
  match m with
  | Ok a => k a
  | Raise e => Raise e
  end.

Notation "x <- m ;; k" := (bind m (fun x => k))
  (at level 61, m at next level, right associativity).

(** [for x in xs: s = body x s], stopping at the first exception. *)
Fixpoint for_each {X S : Type} (xs : list X) (body : X -> S -> result S) (s : S)
  : result S :=
  match xs with
  | [] => Ok s
  | x :: xs' => s' <- body x s ;; for_each xs' body s'
  end.

(** [for i in range(n): for j in range(m): s = body i j s]. *)
Definition loop2 {S : Type} (n m : nat) (body : nat -> nat -> S -> result S) (s : S)
  : result S :=
  for_each (seq 0 n) (fun i s1 => for_each (seq 0 m) (fun j s2 => body i j s2) s1) s.

(** [enumerate(xs)]. *)
Definition enumerate {X : Type} (xs : list X) : list (nat * X) :=
  combine (seq 0 (length xs)) xs.

(* ------------------------------------------------------------------ *)
(** ** Numbers *)

Definition Rleb (x y : R) : bool := if Rle_dec x y then true else false.
Definition Rltb (x y : R) : bool := if Rlt_dec x y then true else false.

(** [math.floor], [math.ceil] and [int()] on a finite float. *)
Definition math_floor (x : R) : Z := Int_part x.
Definition math_ceil (x : R) : Z := (- Int_part (- x))%Z.
Definition py_int (x : R) : Z := if Rle_dec 0 x then math_floor x else math_ceil x.

(** A float64 result: finite, or one of the IEEE special values. *)
Inductive npfloat : Type :=
| Fin (x : R)
| PInf
| NInf
| NaN.

(** numpy's [x / y] on finite scalars: a zero divisor gives [inf], [-inf]
    or [nan] (and a warning), never an exception. *)
Definition np_true_divide (x y : R) : npfloat :=
  if Req_dec_T y 0 then
    if Rlt_dec 0 x then PInf else if Rlt_dec x 0 then NInf else NaN
  else Fin (x / y).

Definition xadd (a b : npfloat) : npfloat :=
  match a, b with
  | NaN, _ | _, NaN => NaN
  | Fin x, Fin y => Fin (x + y)
  | PInf, NInf | NInf, PInf => NaN
  | PInf, _ | _, PInf => PInf
  | NInf, _ | _, NInf => NInf
  end.

Definition xscale (x : R) (pos neg : npfloat) : npfloat :=
  if Rlt_dec 0 x then pos else if Rlt_dec x 0 then neg else NaN.

Definition xmul (a b : npfloat) : npfloat :=
  match a, b with
  | NaN, _ | _, NaN => NaN
  | Fin x, Fin y => Fin (x * y)
  | Fin x, PInf | PInf, Fin x => xscale x PInf NInf
  | Fin x, NInf | NInf, Fin x => xscale x NInf PInf
  | PInf, PInf | NInf, NInf => PInf
  | PInf, NInf | NInf, PInf => NInf
  end.

(** The finite value of a float, [0] for the special values. *)
Definition fin_part (a : npfloat) : R :=
  match a with Fin x => x | _ => 0 end.

(** [sum_{k < n} f k]. *)
Fixpoint Rsum (n : nat) (f : nat -> R) : R :=
  match n with
  | O => 0
  | S k => Rsum k f + f k
  end.

(* ------------------------------------------------------------------ *)
(** ** Two-dimensional arrays *)

(** A 2-d [numpy.ndarray]: its shape and its entries (the entries outside
    the shape are not part of the array). *)
Record ndarray (A : Type) : Type := mk_ndarray {
  nrows : nat;
  ncols : nat;
  elt : nat -> nat -> A
}.
Arguments mk_ndarray {A} _ _ _.
Arguments nrows {A} _.
Arguments ncols {A} _.
Arguments elt {A} _ _ _.

Definition same_shape {A B : Type} (X : ndarray A) (Y : ndarray B) : Prop :=
  nrows X = nrows Y /\ ncols X = ncols Y.

Definition in_range {A : Type} (Y : ndarray A) (i j : nat) : bool :=
  (i <? nrows Y)%nat && (j <? ncols Y)%nat.

(** [Y[i, j]] for non-negative subscripts. *)
Definition getitem {A : Type} (Y : ndarray A) (i j : nat) : result A :=
  if in_range Y i j then Ok (elt Y i j) else Raise IndexError.

(** [Y[i, j] = v] for non-negative subscripts. *)
Definition setitem {A : Type} (Y : ndarray A) (i j : nat) (v : A) : result (ndarray A) :=
  if in_range Y i j then
    Ok (mk_ndarray (nrows Y) (ncols Y)
          (fun a b => if ((a =? i)%nat && (b =? j)%nat)%bool then v else elt Y a b))
  else Raise IndexError.

(** [np.zeros((r, c))]. *)
Definition np_zeros (r c : nat) : ndarray R := mk_ndarray r c (fun _ _ => 0).

(** [np.sum(Y)], [np.sum(Y, axis=1)] and [np.sum(Y, axis=0)]. *)
Definition np_sum (Y : ndarray R) : R :=
  Rsum (nrows Y) (fun i => Rsum (ncols Y) (fun j => elt Y i j)).
Definition np_sum_axis1 (Y : ndarray R) : list R :=
  map (fun i => Rsum (ncols Y) (fun j => elt Y i j)) (seq 0 (nrows Y)).
Definition np_sum_axis0 (Y : ndarray R) : list R :=
  map (fun j => Rsum (nrows Y) (fun i => elt Y i j)) (seq 0 (ncols Y)).

(** One axis of numpy's broadcasting rule: equal lengths, or one of them 1. *)
Definition broadcast_dim (a b : nat) : result nat :=
  if (a =? b)%nat then Ok a
  else if (a =? 1)%nat then Ok b
  else if (b =? 1)%nat then Ok a
  else Raise ValueError.

Definition bidx (len i : nat) : nat := if (len =? 1)%nat then O else i.

(** [Y1 + Y2]. *)
Definition np_add (Y1 Y2 : ndarray R) : result (ndarray R) :=
  r <- broadcast_dim (nrows Y1) (nrows Y2) ;;
  c <- broadcast_dim (ncols Y1) (ncols Y2) ;;
  Ok (mk_ndarray r c (fun i j =>
        elt Y1 (bidx (nrows Y1) i) (bidx (ncols Y1) j)
        + elt Y2 (bidx (nrows Y2) i) (bidx (ncols Y2) j))).

(** [Y / c] for a finite scalar [c]. *)
Definition np_div_scalar (Y : ndarray R) (c : R) : ndarray npfloat :=
  mk_ndarray (nrows Y) (ncols Y) (fun i j => np_true_divide (elt Y i j) c).

(** [U[:, :l]] and [Vh[:l, :]]. *)
Definition take_cols (l : nat) (U : ndarray R) : ndarray R :=
  mk_ndarray (nrows U) (Nat.min l (ncols U)) (elt U).
Definition take_rows (l : nat) (V : ndarray R) : ndarray R :=
  mk_ndarray (Nat.min l (nrows V)) (ncols V) (elt V).

(** [A * s] for a 2-d [A] and a 1-d [s]: [s] is broadcast along the rows. *)
Definition np_mul_row (A : ndarray R) (s : list R) : result (ndarray R) :=
  c <- broadcast_dim (ncols A) (length s) ;;
  Ok (mk_ndarray (nrows A) c (fun i k =>
        elt A i (bidx (ncols A) k) * nth (bidx (length s) k) s 0)).

(** [np.dot(A, B)] on 2-d arrays. *)
Definition np_dot (A B : ndarray R) : result (ndarray R) :=
  if (ncols A =? nrows B)%nat then
    Ok (mk_ndarray (nrows A) (ncols B) (fun i j =>
          Rsum (ncols A) (fun k => elt A i k * elt B k j)))
  else Raise ValueError.

(** [np.argwhere(cond(p))] on a 1-d array: the subscripts at which the
    condition holds, in increasing order. *)
Definition np_argwhere (cond : R -> bool) (p : list R) : list nat :=
  filter (fun i => cond (nth i p 0)) (seq 0 (length p)).

(** [np.min] and [np.max] of a 1-d array; an empty array has no minimum. *)
Definition np_min (l : list R) : result R :=
  match l with
  | [] => Raise ValueError
  | x :: l' => Ok (fold_left Rmin l' x)
  end.
Definition np_max (l : list R) : result R :=
  match l with
  | [] => Raise ValueError
  | x :: l' => Ok (fold_left Rmax l' x)
  end.

(** [np.max(a, axis)] on a Python integer [a]: the second positional
    argument is the axis, and a scalar has no axis but [0] (or [-1]). *)
Definition np_max_scalar (a : nat) (axis : nat) : result nat :=
  if (axis =? 0)%nat then Ok a else Raise AxisError.

(** [np.arange(a, b)] on integers. *)
Definition np_arange (a b : Z) : list Z :=
  map (fun k => (a + Z.of_nat k)%Z) (seq 0 (Z.to_nat (b - a))).

(* ------------------------------------------------------------------ *)
(** ** Algorithm 1: [our_algo] *)

(** The module's global scope, as far as [our_algo] reads it: the line
    [(d1,d2) = np.shape(Y1)] is commented out, so [d1] and [d2] at
    [np.zeros((d1,d2))] are free names looked up in the globals. *)
Record globals : Type := mk_globals {
  g_d1 : option nat;
  g_d2 : option nat
}.

(** The globals of the module as shipped: nothing binds [d1] or [d2]. *)
Definition module_globals : globals := mk_globals None None.

Definition lookup (v : option nat) : result nat :=
  match v with
  | Some k => Ok k
  | None => Raise NameError
  end.

(** [n <= d*np.log(d)]: [np.log] of a non-positive integer is [-inf] or
    [nan], the product is then [nan] and the comparison false. *)
Definition degenerate_regime (n d : Z) : bool :=
  (0 <? d)%Z && Rleb (IZR n) (IZR d * ln (IZR d)).

(** [T = int(np.log(d)/np.log(2))]. *)
Definition level_count (d : Z) : result nat :=
  if (0 <? d)%Z then Ok (Z.to_nat (py_int (ln (IZR d) / ln 2)))
  else if (d =? 0)%Z then Raise OverflowError
  else Raise ValueError.

(** [2**(-t)] and [2**(1-m)]. *)
Definition pow2neg (t : nat) : R := / 2 ^ t.
Definition pow2Z (z : Z) : R := powerRZ 2 z.

(** The level-[t] bucket of a marginal vector (lines 109-112, 115-118). *)
Definition bucket (p : list R) (T t : nat) : list nat :=
  if (t <? T)%nat then
    np_argwhere (fun x => Rleb x (pow2neg t) && Rltb (pow2neg (t + 1)) x) p
  else
    np_argwhere (fun x => Rleb x (pow2neg t)) p.

(** Lines 120-125: the block of [Y2] on rows [I] and columns [J]. *)
Definition extract_block (Y2 : ndarray R) (I J : list nat) : result (ndarray R) :=
  loop2 (length I) (length J)
    (fun i j M => v <- getitem Y2 (nth i I O) (nth j J O) ;; setitem M i j v)
    (np_zeros (length I) (length J)).

(** Lines 128-130: copy the block of [Y2] into [res]. *)
Definition copy_block (Y2 : ndarray R) (I J : list nat) (res : ndarray R)
  : result (ndarray R) :=
  loop2 (length I) (length J)
    (fun i j res' => v <- getitem Y2 (nth i I O) (nth j J O) ;;
                     setitem res' (nth i I O) (nth j J O) v)
    res.

(** Lines 138-140: write the reconstructed block [H] into [res]. *)
Definition write_block (H : ndarray R) (I J : list nat) (res : ndarray R)
  : result (ndarray R) :=
  loop2 (length I) (length J)
    (fun i j res' => v <- getitem H i j ;; setitem res' (nth i I O) (nth j J O) v)
    res.

(** The energy cut-off (line 127) and the singular-value threshold (line 133). *)
Definition energy_cutoff (n d : Z) (alpha Cbar : R) : R :=
  2 * Cbar * alpha * ln (IZR d) / (IZR n * ln 2).
Definition tau (n d : Z) (cstar : R) (t u : nat) : R :=
  ln (IZR d) * sqrt (cstar * pow2Z (1 - Z.of_nat (Nat.min t u)) / IZR n).

(** [l = len(s[s>=tau])]. *)
Definition retained (tau0 : R) (s : list R) : list R :=
  filter (fun x => Rleb tau0 x) s.
Definition rank_l (tau0 : R) (s : list R) : nat := length (retained tau0 s).

(** [H = np.dot(U[:,:l]*s[:l], Vh[:l,:])]. *)
Definition reconstruct (U : ndarray R) (s : list R) (Vh : ndarray R) (l : nat)
  : result (ndarray R) :=
  Us <- np_mul_row (take_cols l U) (firstn l s) ;;
  np_dot Us (take_rows l Vh).

Section Algorithm1.

(** [np.linalg.svd]: the factors [U], [s], [Vh] of a matrix. *)
Variable svd : ndarray R -> ndarray R * list R * ndarray R.

(** Lines 120-140: one block [(t, u)]. *)
Definition block_step (n d : Z) (Y2 : ndarray R) (alpha cstar Cbar : R)
    (t u : nat) (I J : list nat) (res : ndarray R) : result (ndarray R) :=
  M <- extract_block Y2 I J ;;
  if Rltb (np_sum M) (energy_cutoff n d alpha Cbar) then
    copy_block Y2 I J res
  else
    let '(U, s, Vh) := svd M in
    let l := rank_l (tau n d cstar t u) s in
    H <- reconstruct U s Vh l ;;
    write_block H I J res.

(** Lines 103-140: the result matrix before it is normalised. *)
Definition assemble (G : globals) (n d : Z) (Y1 Y2 : ndarray R)
    (alpha cstar Cbar : R) : result (ndarray R) :=
  d1 <- lookup (g_d1 G) ;;
  d2 <- lookup (g_d2 G) ;;
  let res := np_zeros d1 d2 in
  T <- level_count d ;;
  let p := np_sum_axis1 Y1 in
  let q := np_sum_axis0 Y1 in
  for_each (seq 0 (T + 1)) (fun t res1 =>
    let I := bucket p T t in
    for_each (seq 0 (T + 1)) (fun u res2 =>
      let J := bucket q T u in
      block_step n d Y2 alpha cstar Cbar t u I J res2) res1) res.

Definition our_algo (G : globals) (n d : Z) (Y1 Y2 : ndarray R)
    (alpha cstar Cbar : R) : result (ndarray npfloat) :=
  if degenerate_regime n d then
    S <- np_add Y1 Y2 ;;
    Ok (np_div_scalar S 2)
  else
    res <- assemble G n d Y1 Y2 alpha cstar Cbar ;;
    Ok (np_div_scalar res (np_sum res)).

End Algorithm1.

(* ------------------------------------------------------------------ *)
(** ** Algorithm 3: [our_algo_3] *)

(** [x ** y] on floats, for a positive base. *)
Definition py_pow (x y : R) : R := Rpower x y.

(** [k ** (-1)] on a Python integer: [0 ** -1] raises. *)
Definition py_inv (k : Z) : result R :=
  if (k =? 0)%Z then Raise ZeroDivisionError else Ok (/ IZR k).

(** [math.floor(w*n**(1/3)*L**(1/2))**(-1)*w], the bin width for a support
    of width [w] (lines 194, 289 and 290), in exact arithmetic; the floor
    of the rounded product is [bandwidth_floor_r] below. *)
Definition bandwidth_floor (w : R) (n : nat) (L : R) : Z :=
  math_floor (w * py_pow (INR n) (1 / 3) * py_pow L (1 / 2)).
Definition bandwidth (w : R) (n : nat) (L : R) : result R :=
  inv <- py_inv (bandwidth_floor w n L) ;;
  Ok (inv * w).

(** [N[i]] on a 1-d array with a Python integer subscript: a negative
    subscript counts from the end. *)
Definition getitem1 (N : list R) (i : Z) : result R :=
  let len := Z.of_nat (length N) in
  if ((0 <=? i) && (i <? len))%Z then Ok (nth (Z.to_nat i) N 0)
  else if ((- len <=? i) && (i <? 0))%Z then Ok (nth (Z.to_nat (len + i)) N 0)
  else Raise IndexError.

(** [N[c] = v] for a non-negative subscript. *)
Definition setitem1 (N : list R) (c : nat) (v : R) : result (list R) :=
  if (c <? length N)%nat then Ok (firstn c N ++ v :: skipn (S c) N)
  else Raise IndexError.

(** [sum([1 for k in est if a <= k < b])]. *)
Definition count_in (est : list R) (a b : R) : R :=
  INR (length (filter (fun k => Rleb a k && Rltb k b) est)).

(** A fitted univariate density: evaluation can raise. *)
Definition density1 : Type := R -> result npfloat.

(** One iteration of the loop of [f_1] (lines 201-208); the state is
    [(s, N)]. *)
Definition f_1_step (r H x : R) (est : list R) (ci : nat * Z) (st : R * list R)
  : result (R * list R) :=
  let '(c, i) := ci in
  let '(s, N) := st in
  let a := r + IZR i * H in
  let b := r + IZR (i + 1) * H in
  N' <- setitem1 N c (count_in est a b) ;;
  if Rleb (IZR i * H) x && Rleb x (IZR (i + 1) * H) then
    v <- getitem1 N' i ;; Ok (s + v, N')
  else Ok (s, N').

(** Lines 197-210: the density returned by the general branch. *)
Definition f_1 (r H : R) (E : list Z) (est : list R) : density1 :=
  fun x =>
    st <- for_each (enumerate E) (f_1_step r H x est) (0, repeat 0 (length E)) ;;
    Ok (xmul (np_true_divide 1 H) (Fin (fst st))).

(** Line 190: the density returned by the narrow-range branch. *)
Definition narrow_density (r R0 : R) : density1 :=
  fun x => Ok (if Rleb x r && Rleb R0 x then np_true_divide 1 (R0 - r) else Fin 0).

(** The grid offsets [np.arange(-math.floor(r/H), math.ceil((1-r)/H-1))]. *)
Definition offsets (r H : R) : list Z :=
  np_arange (- math_floor (r / H)) (math_ceil ((1 - r) / H - 1)).

(** Lines 192-212: the general branch, from the calibration range on. *)
Definition general_branch_1d (Zs : list R) (L r R0 : R) : result density1 :=
  let n := length Zs in
  H <- bandwidth (R0 - r) n L ;;
  let E := offsets r H in
  Ok (f_1 r H E (skipn (n / 2 + 1) Zs)).

(** The function ignores its argument [n] ([n = len(Z)] on line 184). *)
Definition our_algo_3 (n_arg : nat) (Zs : list R) (L : R) : result density1 :=
  let n := length Zs in
  r <- np_min (firstn (n / 2) Zs) ;;
  R0 <- np_max (firstn (n / 2) Zs) ;;
  if Rltb (R0 - r) (py_pow (INR n) (- 1 / 3) * py_pow L (- 1 / 2)) then
    Ok (narrow_density r R0)
  else
    general_branch_1d Zs L r R0.

(* ------------------------------------------------------------------ *)
(** ** Algorithm 3 in rounded arithmetic *)

(** The definitions above compute with exact reals.  The ones below keep
    the rounding of every float operation of lines 184-212, so that the
    guard of line 188 and the floor of line 194 are the values the program
    compares and floors. *)

(** The binade of a non-zero real: [2^e <= |x| < 2^(e+1)]. *)
Definition binade (x : R) : Z := math_floor (ln (Rabs x) / ln 2).

(** The integer nearest to [x], the even one at a tie. *)
Definition round_half_even (x : R) : Z :=
  let k := math_floor x in
  if Rltb (x - IZR k) (1 / 2) then k
  else if Rltb (1 / 2) (x - IZR k) then (k + 1)%Z
  else if Z.even k then k else (k + 1)%Z.

(** binary64 round-to-nearest-even: 53 significant bits; the exponent
    range is not bounded (no overflow, no subnormal numbers). *)
Definition RN64 (x : R) : R :=
  if Req_dec_T x 0 then 0
  else IZR (round_half_even (x * pow2Z (52 - binade x))) * pow2Z (binade x - 52).

(** [x ** y] on floats is C's [pow]; on a positive base it is modelled as
    the correctly rounded power.  (The C library's result can differ from
    it only when the exact power lies within a few hundredths of a unit in
    the last place of a rounding boundary; the two powers of 7 evaluated
    in this file are 0.08 and 0.10 of a unit away from the nearest one.) *)
Definition pow_rn (x y : R) : R := RN64 (Rpower x y).

(** [math.floor] of a numpy quotient: [inf] and [nan] do not convert. *)
Definition floor_of (q : npfloat) : result Z :=
  match q with
  | Fin x => Ok (math_floor x)
  | NaN => Raise ValueError
  | PInf | NInf => Raise OverflowError
  end.

Section Rounded.

(** [rnd] takes the exact result of [+], [-], [*], [/] to the float the
    operation returns; [fpow] is [**] on floats. *)
Variable rnd : R -> R.
Variable fpow : R -> R -> R.

Definition np_true_divide_r (x y : R) : npfloat :=
  if Req_dec_T y 0 then
    if Rlt_dec 0 x then PInf else if Rlt_dec x 0 then NInf else NaN
  else Fin (rnd (x / y)).

Definition xmul_r (a b : npfloat) : npfloat :=
  match a, b with
  | Fin x, Fin y => Fin (rnd (x * y))
  | _, _ => xmul a b
  end.

(** [n**(-1/3)*L**(-1/2)] (line 188). *)
Definition guard_threshold_r (n : nat) (L : R) : R :=
  rnd (fpow (INR n) (rnd (- 1 / 3)) * fpow L (rnd (- 1 / 2))).

(** [math.floor(w*n**(1/3)*L**(1/2))] for the rounded range [w] (line 194). *)
Definition bandwidth_floor_r (w : R) (n : nat) (L : R) : Z :=
  math_floor (rnd (rnd (w * fpow (INR n) (rnd (1 / 3))) * fpow L (rnd (1 / 2)))).

(** [k ** (-1)]: a Python integer to a negative power is a float power. *)
Definition py_inv_r (k : Z) : result R :=
  if (k =? 0)%Z then Raise ZeroDivisionError else Ok (fpow (IZR k) (- 1)).

Definition bandwidth_r (w : R) (n : nat) (L : R) : result R :=
  inv <- py_inv_r (bandwidth_floor_r w n L) ;;
  Ok (rnd (inv * w)).

(** Line 195.  For [H = 0] the quotient [r/H] is [inf] or [nan] and
    [math.floor] raises, so the second bound is computed for [H <> 0] only. *)
Definition offsets_r (r H : R) : result (list Z) :=
  lo <- floor_of (np_true_divide_r r H) ;;
  Ok (np_arange (- lo) (math_ceil (rnd (rnd (rnd (1 - r) / H) - 1)))).

Definition f_1_step_r (r H x : R) (est : list R) (ci : nat * Z) (st : R * list R)
  : result (R * list R) :=
  let '(c, i) := ci in
  let '(s, N) := st in
  let a := rnd (r + rnd (IZR i * H)) in
  let b := rnd (r + rnd (IZR (i + 1) * H)) in
  N' <- setitem1 N c (count_in est a b) ;;
  if Rleb (rnd (IZR i * H)) x && Rleb x (rnd (IZR (i + 1) * H)) then
    v <- getitem1 N' i ;; Ok (rnd (s + v), N')
  else Ok (s, N').

Definition f_1_r (r H : R) (E : list Z) (est : list R) : density1 :=
  fun x =>
    st <- for_each (enumerate E) (f_1_step_r r H x est) (0, repeat 0 (length E)) ;;
    Ok (xmul_r (np_true_divide_r 1 H) (Fin (fst st))).

Definition narrow_density_r (r R0 : R) : density1 :=
  fun x => Ok (if Rleb x r && Rleb R0 x then np_true_divide_r 1 (rnd (R0 - r))
               else Fin 0).

Definition general_branch_1d_r (Zs : list R) (L r R0 : R) : result density1 :=
  let n := length Zs in
  H <- bandwidth_r (rnd (R0 - r)) n L ;;
  E <- offsets_r r H ;;
  Ok (f_1_r r H E (skipn (n / 2 + 1) Zs)).

Definition our_algo_3_r (n_arg : nat) (Zs : list R) (L : R) : result density1 :=
  let n := length Zs in
  r <- np_min (firstn (n / 2) Zs) ;;
  R0 <- np_max (firstn (n / 2) Zs) ;;
  if Rltb (rnd (R0 - r)) (guard_threshold_r n L) then
    Ok (narrow_density_r r R0)
  else
    general_branch_1d_r Zs L r R0.

End Rounded.

(* ------------------------------------------------------------------ *)
(** ** Algorithm 2: [our_algo_2] *)

(** A fitted bivariate density. *)
Definition density2 : Type := R -> R -> result npfloat.

(** The half-open cell test of lines 306, 307 and 316. *)
Definition in_cell (r_1 h_1 r_2 h_2 : R) (i j : Z) (x y : R) : bool :=
  Rleb (r_1 + IZR i * h_1) x && Rltb x (r_1 + IZR (i + 1) * h_1)
  && Rleb (r_2 + IZR j * h_2) y && Rltb y (r_2 + IZR (j + 1) * h_2).

(** [range(lo, hi)]. *)
Definition py_range (lo hi : nat) : list nat := seq lo (hi - lo).

(** [sum([1 if cell(X[k]) else 0 for k in ks])]; [X[k]] raises past the end. *)
Definition count_cell (X : list (R * R)) (ks : list nat) (cell : R -> R -> bool)
  : result R :=
  for_each ks
    (fun k acc =>
       match nth_error X k with
       | Some (x, y) => Ok (acc + (if cell x y then 1 else 0))
       | None => Raise IndexError
       end) 0.

(** Lines 295-307: the two count matrices. *)
Definition histograms (n : nat) (X : list (R * R)) (r_1 h_1 r_2 h_2 : R)
    (E_1 E_2 : list Z) : result (ndarray R * ndarray R) :=
  for_each (enumerate E_1)
    (fun ci st1 =>
       for_each (enumerate E_2)
         (fun cj st2 =>
            let '(c1, i) := ci in
            let '(c2, j) := cj in
            let '(N_1, N_2) := st2 in
            v1 <- count_cell X (py_range (n / 2 + 1) (3 * n / 4))
                    (in_cell r_1 h_1 r_2 h_2 i j) ;;
            N_1' <- setitem N_1 c1 c2 v1 ;;
            v2 <- count_cell X (py_range (3 * n / 4) n)
                    (in_cell r_1 h_1 r_2 h_2 i j) ;;
            N_2' <- setitem N_2 c1 c2 v2 ;;
            Ok (N_1', N_2'))
         st1)
    (np_zeros (length E_1) (length E_2), np_zeros (length E_1) (length E_2)).

(** Lines 312-318: the density returned by the general branch. *)
Definition f_1_2d (r_1 h_1 r_2 h_2 : R) (E_1 E_2 : list Z) (P : ndarray npfloat)
  : density2 :=
  fun x y =>
    s <- for_each (enumerate E_1)
           (fun ci s1 =>
              for_each (enumerate E_2)
                (fun cj s2 =>
                   let '(c1, i) := ci in
                   let '(c2, j) := cj in
                   if in_cell r_1 h_1 r_2 h_2 i j x y then
                     v <- getitem P c1 c2 ;; Ok (xadd s2 v)
                   else Ok s2)
                s1)
           (Fin 0) ;;
    Ok (xmul (np_true_divide 1 (h_1 * h_2)) s).

(** Lines 274 and 284: the densities of the two degenerate-axis branches. *)
Definition delegate_density (r0 R0 : R) (g : density1) (on_second : bool) : density2 :=
  fun x y =>
    let inside := if on_second then x else y in
    let other := if on_second then y else x in
    if Rleb r0 inside && Rleb inside R0 then
      v <- g other ;; Ok (xmul (np_true_divide 1 (R0 - r0)) v)
    else Ok (Fin 0).

Section Algorithm2.

Variable svd : ndarray R -> ndarray R * list R * ndarray R.

(** The general branch (lines 287-320), from the calibration ranges on. *)
Definition general_branch (G : globals) (n : nat) (X : list (R * R))
    (alpha L Cbar cstar : R) (r_1 R_1 r_2 R_2 : R) : result density2 :=
  h_1 <- bandwidth (R_1 - r_1) n L ;;
  h_2 <- bandwidth (R_2 - r_2) n L ;;
  let E_1 := offsets r_1 h_1 in
  let E_2 := offsets r_2 h_2 in
  N12 <- histograms n X r_1 h_1 r_2 h_2 E_1 E_2 ;;
  d <- np_max_scalar (length E_1) (length E_2) ;;
  P <- our_algo svd G (Z.of_nat (n / 2)) (Z.of_nat d) (fst N12) (snd N12)
         alpha cstar Cbar ;;
  Ok (f_1_2d r_1 h_1 r_2 h_2 E_1 E_2 P).

(** Line 265 assigns the global [h = C/(n**(-1/3)*np.sqrt(L))], which
    nothing reads; of that line the model keeps the exception of
    [0 ** (-1/3)]. *)
Definition our_algo_2 (G : globals) (n : nat) (X : list (R * R))
    (alpha L C Cbar cstar : R) : result density2 :=
  if (n =? 0)%nat then Raise ZeroDivisionError
  else
    r_1 <- np_min (map fst (firstn (n / 2) X)) ;;
    R_1 <- np_max (map fst (firstn (n / 2) X)) ;;
    if Rltb (R_1 - r_1) (py_pow (INR n) (1 / 3) * py_pow L (- 1 / 2)) then
      g <- our_algo_3 n (map snd (skipn (n / 2 + 1) X)) L ;;
      Ok (delegate_density r_1 R_1 g true)
    else
      r_2 <- np_min (map snd (firstn (n / 2) X)) ;;
      R_2 <- np_max (map snd (firstn (n / 2) X)) ;;
      if Rltb (R_2 - r_2) (py_pow (INR n) (1 / 3) * py_pow L (- 1 / 2)) then
        g <- our_algo_3 n (map fst (skipn (n / 2 + 1) X)) L ;;
        Ok (delegate_density r_2 R_2 g false)
      else
        general_branch G n X alpha L Cbar cstar r_1 R_1 r_2 R_2.

End Algorithm2.

(* ------------------------------------------------------------------ *)
(** ** Specification vocabulary *)

(** What numpy documents of [np.linalg.svd(M)] on an [r x c] matrix: [U] is
    [r x r], [Vh] is [c x c], and [s] holds [min(r, c)] singular values. *)
Definition svd_shapes (M : ndarray R) (f : ndarray R * list R * ndarray R) : Prop :=
  let '(U, s, Vh) := f in
  nrows U = nrows M /\ ncols U = nrows M /\
  length s = Nat.min (nrows M) (ncols M) /\
  nrows Vh = ncols M /\ ncols Vh = ncols M.

(** ... and the singular values come in descending order. *)
Definition descending (s : list R) : Prop := Sorted Rge s.

(** The cells of block [(t, u)] of [res] hold what lines 127-140 write:
    the entries of [Y2] when the block fails the energy test, the
    reconstruction [H] otherwise. *)
Definition block_written (svd : ndarray R -> ndarray R * list R * ndarray R)
    (n d : Z) (Y2 : ndarray R) (alpha cstar Cbar : R) (t u : nat)
    (I J : list nat) (res : ndarray R) : Prop :=
  exists M, extract_block Y2 I J = Ok M /\
    if Rltb (np_sum M) (energy_cutoff n d alpha Cbar) then
      forall a b, In a I -> In b J -> elt res a b = elt Y2 a b
    else
      exists H,
        (let '(U, s, Vh) := svd M in
         reconstruct U s Vh (rank_l (tau n d cstar t u) s)) = Ok H /\
        forall i j, (i < length I)%nat -> (j < length J)%nat ->
                    elt res (nth i I O) (nth j J O) = elt H i j.

(** The sum of the finite parts of the entries of a float matrix. *)
Definition fin_sum (P : ndarray npfloat) : R :=
  Rsum (nrows P) (fun i => Rsum (ncols P) (fun j => fin_part (elt P i j))).

(** The first and the last edge of the grid fitted to origin [r] and bin
    width [H]. *)
Definition grid_start (r H : R) : R := r + IZR (- math_floor (r / H)) * H.
Definition grid_end (r H : R) : R := r + IZR (math_ceil ((1 - r) / H - 1)) * H.

(** What one bin of the univariate lookup adds at [x]: the count of the bin
    [[r + i*H, r + (i+1)*H)] when line 207 accepts [x] for offset [i]. *)
Definition lookup_term (r H x : R) (est : list R) (i : Z) : R :=
  if Rleb (IZR i * H) x && Rleb x (IZR (i + 1) * H)
  then count_in est (r + IZR i * H) (r + IZR (i + 1) * H) else 0.

(** The number of subscripts [k] of [ks] whose point [X[k]] is in a cell. *)
Definition cell_count (X : list (R * R)) (ks : list nat) (cell : R -> R -> bool) : R :=
  INR (length (filter (fun k => match nth_error X k with
                                | Some (x, y) => cell x y
                                | None => false
                                end) ks)).

(** The grid of line 195 reaches from [grid_start] (closed) to [grid_end]
    (open). *)
Definition in_grid (r H x : R) : bool :=
  Rleb (grid_start r H) x && Rltb x (grid_end r H).

(* ------------------------------------------------------------------ *)
(** ** Concrete inputs *)

(** The decomposition of a diagonal matrix with a non-negative,
    non-increasing diagonal: [U] and [Vh] are identities and [s] is the
    diagonal. *)
Definition np_eye (k : nat) : ndarray R :=
  mk_ndarray k k (fun i j => if (i =? j)%nat then 1 else 0).
Definition svd_diag (M : ndarray R) : ndarray R * list R * ndarray R :=
  (np_eye (nrows M),
   map (fun k => elt M k k) (seq 0 (Nat.min (nrows M) (ncols M))),
   np_eye (ncols M)).

(** A constant histogram. *)
Definition np_full (r c : nat) (v : R) : ndarray R := mk_ndarray r c (fun _ _ => v).

(** A 2x2 diagonal histogram. *)
Definition np_diag2 (a b : R) : ndarray R :=
  mk_ndarray 2 2 (fun i j =>
    match i, j with
    | O, O => a
    | S O, S O => b
    | _, _ => 0
    end).

(** Globals in which some earlier code has bound [d1] and [d2]. *)
Definition bound_globals (d1 d2 : nat) : globals := mk_globals (Some d1) (Some d2).

(** The float64 number with significand [m] and exponent [e]. *)
Definition f64 (m e : Z) : R := IZR m * pow2Z e.

(** The floats that [1/3], [7**(1/3)] and [7**(-1/3)] evaluate to:
    0.3333333333333333, 1.912931182772389 and 0.5227579585747102. *)
Definition third64 : R := f64 6004799503160661 (-54).
Definition cbrt7_64 : R := f64 8615076161919133 (-52).
Definition inv_cbrt7_64 : R := f64 4708585094884052 (-53).

(** Seven float samples: the calibration half [0.0, 0.5227579585747102,
    0.0] has range [7**(-1/3)] exactly, and the others are the float 0.1. *)
Definition tenth64 : R := f64 7205759403792794 (-56).
Definition Z7 : list R :=
  [0; inv_cbrt7_64; 0; tenth64; tenth64; tenth64; tenth64].

(** Eight samples whose calibration half spans [1/4, 5/4]; the estimation
    half is [3/5, 3/5, 3/5]. *)
Definition Z8 : list R := [1 / 4; 5 / 4; 1 / 4; 1 / 4; 0; 3 / 5; 3 / 5; 3 / 5].

(** Eight points whose calibration half spans [0, 2] on both axes. *)
Definition X8 : list (R * R) :=
  [(0, 0); (2, 2); (0, 0); (0, 0); (0, 0);
   (1 / 4, 1 / 4); (1 / 4, 1 / 4); (1 / 4, 1 / 4)].

(** Eight points whose calibration half spans [0, 2] on the first axis and
    [-1/16, 35/16] on the second. *)
Definition X8b : list (R * R) :=
  [(0, - 1 / 16); (2, 35 / 16); (0, 0); (0, 0); (0, 0);
   (1 / 4, 1 / 4); (1 / 4, 1 / 4); (1 / 4, 1 / 4)].

(* ================================================================== *)
(** * Properties *)

(** ** Comparisons, floors and the error monad *)

Lemma Rleb_true (x y : R) : Rleb x y = true <-> x <= y.
Proof. unfold Rleb. destruct (Rle_dec x y); split; intros; auto; discriminate. Qed.

Lemma Rleb_false (x y : R) : Rleb x y = false <-> y < x.
Proof.
  unfold Rleb. destruct (Rle_dec x y); split; intros; try discriminate; try lra; auto.
Qed.

Lemma Rltb_true (x y : R) : Rltb x y = true <-> x < y.
Proof. unfold Rltb. destruct (Rlt_dec x y); split; intros; auto; discriminate. Qed.

Lemma Rltb_false (x y : R) : Rltb x y = false <-> y <= x.
Proof.
  unfold Rltb. destruct (Rlt_dec x y); split; intros; try discriminate; try lra; auto.
Qed.

(** Decides the comparisons of a goal on concrete reals. *)
Ltac eval_cmp :=
  repeat match goal with
  | |- context [Rleb ?a ?b] =>
      first [ replace (Rleb a b) with true by (symmetry; apply Rleb_true; lra)
            | replace (Rleb a b) with false by (symmetry; apply Rleb_false; lra) ]
  | |- context [Rltb ?a ?b] =>
      first [ replace (Rltb a b) with true by (symmetry; apply Rltb_true; lra)
            | replace (Rltb a b) with false by (symmetry; apply Rltb_false; lra) ]
  end.

Lemma math_floor_unique (x : R) (k : Z) :
  IZR k <= x < IZR k + 1 -> math_floor x = k.
Proof.
  intros [H1 H2]. unfold math_floor, Int_part.
  assert (E : (k + 1)%Z = up x).
  { apply tech_up; rewrite plus_IZR; simpl; lra. }
  rewrite <- E. lia.
Qed.

Lemma math_floor_bounds (x : R) : IZR (math_floor x) <= x < IZR (math_floor x) + 1.
Proof.
  unfold math_floor, Int_part. rewrite minus_IZR.
  destruct (archimed x) as [H1 H2]. simpl. lra.
Qed.

Lemma math_ceil_unique (x : R) (k : Z) :
  IZR k - 1 < x <= IZR k -> math_ceil x = k.
Proof.
  intros [H1 H2]. unfold math_ceil.
  assert (E : Int_part (- x) = (- k)%Z).
  { apply math_floor_unique. rewrite opp_IZR. lra. }
  rewrite E. lia.
Qed.

Lemma np_true_divide_nonzero (x y : R) : y <> 0 -> np_true_divide x y = Fin (x / y).
Proof. intros H. unfold np_true_divide. destruct (Req_dec_T y 0); congruence. Qed.

Lemma np_true_divide_0_0 : np_true_divide 0 0 = NaN.
Proof.
  unfold np_true_divide. destruct (Req_dec_T 0 0) as [_|N]; [|congruence].
  destruct (Rlt_dec 0 0); [lra|reflexivity].
Qed.

Lemma np_true_divide_pos_0 (x : R) : 0 < x -> np_true_divide x 0 = PInf.
Proof.
  intros H. unfold np_true_divide. destruct (Req_dec_T 0 0) as [_|N]; [|congruence].
  destruct (Rlt_dec 0 x); [reflexivity|lra].
Qed.

Lemma for_each_app {X S : Type} (xs ys : list X) (body : X -> S -> result S) (s : S) :
  for_each (xs ++ ys) body s = (s' <- for_each xs body s ;; for_each ys body s').
Proof.
  revert s. induction xs as [|x xs IH]; intros s; simpl; [reflexivity|].
  destruct (body x s); simpl; auto.
Qed.

(** A loop over [range(n)] that keeps an invariant runs to completion. *)
Lemma for_range_invariant {S : Type} (Inv : nat -> S -> Prop) (n : nat)
    (body : nat -> S -> result S) (s0 : S) :
  Inv O s0 ->
  (forall k s, (k < n)%nat -> Inv k s -> exists s', body k s = Ok s' /\ Inv (Datatypes.S k) s') ->
  exists s', for_each (seq 0 n) body s0 = Ok s' /\ Inv n s'.
Proof.
  intros H0 Hstep. induction n as [|n IH].
  - exists s0. split; [reflexivity|exact H0].
  - destruct IH as [s1 [E1 I1]].
    { intros k s Hk. apply Hstep. lia. }
    destruct (Hstep n s1 (Nat.lt_succ_diag_r n) I1) as [s2 [E2 I2]].
    exists s2. split; [|exact I2].
    rewrite seq_S, for_each_app, E1. simpl. rewrite E2. reflexivity.
Qed.

(** ** Sums *)

Lemma Rsum_ext (n : nat) (f g : nat -> R) :
  (forall k, (k < n)%nat -> f k = g k) -> Rsum n f = Rsum n g.
Proof.
  induction n as [|n IH]; intros H; simpl; [reflexivity|].
  rewrite IH, H; auto.
Qed.

Lemma Rsum_scale (n : nat) (f : nat -> R) (c : R) :
  Rsum n (fun k => f k * c) = Rsum n f * c.
Proof. induction n as [|n IH]; simpl; [lra|rewrite IH; lra]. Qed.

(** ** Subscripts *)

Lemma in_range_true {A : Type} (Y : ndarray A) (i j : nat) :
  in_range Y i j = true <-> (i < nrows Y)%nat /\ (j < ncols Y)%nat.
Proof.
  unfold in_range. rewrite andb_true_iff, !Nat.ltb_lt. tauto.
Qed.

Lemma getitem_Ok {A : Type} (Y : ndarray A) (i j : nat) :
  (i < nrows Y)%nat -> (j < ncols Y)%nat -> getitem Y i j = Ok (elt Y i j).
Proof.
  intros Hi Hj. unfold getitem.
  replace (in_range Y i j) with true; [reflexivity|].
  symmetry. apply in_range_true. auto.
Qed.

Lemma setitem_Ok {A : Type} (Y : ndarray A) (i j : nat) (v : A) :
  (i < nrows Y)%nat -> (j < ncols Y)%nat ->
  exists Y', setitem Y i j v = Ok Y' /\
    nrows Y' = nrows Y /\ ncols Y' = ncols Y /\
    elt Y' i j = v /\
    (forall a b, ~ (a = i /\ b = j) -> elt Y' a b = elt Y a b).
Proof.
  intros Hi Hj. unfold setitem.
  replace (in_range Y i j) with true by (symmetry; apply in_range_true; auto).
  eexists. split; [reflexivity|]. simpl. repeat split.
  - rewrite !Nat.eqb_refl. reflexivity.
  - intros a b Hab.
    destruct (Nat.eqb_spec a i), (Nat.eqb_spec b j); simpl; try reflexivity.
    exfalso. apply Hab. auto.
Qed.

Lemma bidx_lt (len i : nat) : (i < len)%nat -> bidx len i = i.
Proof. unfold bidx. destruct (Nat.eqb_spec len 1); intros; lia. Qed.

Lemma broadcast_dim_refl (a : nat) : broadcast_dim a a = Ok a.
Proof. unfold broadcast_dim. rewrite Nat.eqb_refl. reflexivity. Qed.

(** ** The three write loops of [our_algo] *)

(** All three loops of lines 123-125, 128-130 and 138-140 have the shape
    [for i: for j: dst[ri i, cj j] = src i j]. *)
Section Scatter.

Variables (src : nat -> nat -> result R) (val : nat -> nat -> R).
Variables (ri cj : nat -> nat) (n m : nat).

Hypothesis src_Ok : forall i j, (i < n)%nat -> (j < m)%nat -> src i j = Ok (val i j).
Hypothesis ri_inj : forall i i', (i < n)%nat -> (i' < n)%nat -> ri i = ri i' -> i = i'.
Hypothesis cj_inj : forall j j', (j < m)%nat -> (j' < m)%nat -> cj j = cj j' -> j = j'.

Let body (i j : nat) (dst : ndarray R) : result (ndarray R) :=
  v <- src i j ;; setitem dst (ri i) (cj j) v.

Lemma scatter_row (i : nat) (dst : ndarray R) :
  (i < n)%nat -> (ri i < nrows dst)%nat ->
  (forall j, (j < m)%nat -> (cj j < ncols dst)%nat) ->
  exists dst', for_each (seq 0 m) (fun j s => body i j s) dst = Ok dst' /\
    nrows dst' = nrows dst /\ ncols dst' = ncols dst /\
    (forall j, (j < m)%nat -> elt dst' (ri i) (cj j) = val i j) /\
    (forall a b, (forall j, (j < m)%nat -> ~ (a = ri i /\ b = cj j)) ->
                 elt dst' a b = elt dst a b).
Proof.
  intros Hi Hri Hcj.
  pose (Inv := fun (k : nat) (s : ndarray R) =>
    nrows s = nrows dst /\ ncols s = ncols dst /\
    (forall j, (j < k)%nat -> elt s (ri i) (cj j) = val i j) /\
    (forall a b, (forall j, (j < k)%nat -> ~ (a = ri i /\ b = cj j)) ->
                 elt s a b = elt dst a b)).
  destruct (for_range_invariant Inv m (fun j s => body i j s) dst) as [s [E I]].
  - repeat split; intros; auto; lia.
  - intros k s Hk (Hr & Hc & Hw & Hf).
    unfold body. rewrite (src_Ok i k Hi Hk). simpl.
    destruct (setitem_Ok s (ri i) (cj k) (val i k)) as [s' (E' & Hr' & Hc' & Hv & Ho)].
    { rewrite Hr. exact Hri. }
    { rewrite Hc. apply Hcj. exact Hk. }
    exists s'. split; [exact E'|]. repeat split; try congruence.
    + intros j Hj. destruct (Nat.eq_dec j k) as [->|Hne]; [exact Hv|].
      rewrite Ho; [apply Hw; lia|].
      intros [_ Hcjk]. apply Hne. apply cj_inj; auto; lia.
    + intros a b Hab. rewrite Ho.
      * apply Hf. intros j Hj. apply Hab. lia.
      * apply Hab. lia.
  - exists s. split; [exact E|]. exact I.
Qed.

Lemma scatter_Ok (dst : ndarray R) :
  (forall i, (i < n)%nat -> (ri i < nrows dst)%nat) ->
  (forall j, (j < m)%nat -> (cj j < ncols dst)%nat) ->
  exists dst', loop2 n m body dst = Ok dst' /\
    nrows dst' = nrows dst /\ ncols dst' = ncols dst /\
    (forall i j, (i < n)%nat -> (j < m)%nat -> elt dst' (ri i) (cj j) = val i j) /\
    (forall a b, (forall i j, (i < n)%nat -> (j < m)%nat -> ~ (a = ri i /\ b = cj j)) ->
                 elt dst' a b = elt dst a b).
Proof.
  intros Hri Hcj.
  pose (Inv := fun (k : nat) (s : ndarray R) =>
    nrows s = nrows dst /\ ncols s = ncols dst /\
    (forall i j, (i < k)%nat -> (j < m)%nat -> elt s (ri i) (cj j) = val i j) /\
    (forall a b, (forall i j, (i < k)%nat -> (j < m)%nat -> ~ (a = ri i /\ b = cj j)) ->
                 elt s a b = elt dst a b)).
  unfold loop2.
  destruct (for_range_invariant Inv n
              (fun i s1 => for_each (seq 0 m) (fun j s2 => body i j s2) s1) dst)
    as [s [E I]].
  - repeat split; intros; auto; lia.
  - intros k s Hk (Hr & Hc & Hw & Hf).
    destruct (scatter_row k s Hk) as [s' (E' & Hr' & Hc' & Hv & Ho)].
    { rewrite Hr. apply Hri. exact Hk. }
    { intros j Hj. rewrite Hc. apply Hcj. exact Hj. }
    exists s'. split; [exact E'|]. repeat split; try congruence.
    + intros i j Hi Hj. destruct (Nat.eq_dec i k) as [->|Hne]; [apply Hv; exact Hj|].
      rewrite Ho; [apply Hw; auto; lia|].
      intros j' Hj' [Hrik _]. apply Hne. apply ri_inj; auto; lia.
    + intros a b Hab. rewrite Ho.
      * apply Hf. intros i j Hi Hj. apply Hab; auto; lia.
      * intros j Hj. apply Hab; auto.
  - exists s. split; [exact E|]. exact I.
Qed.

End Scatter.

Lemma NoDup_nth_inj (I : list nat) (i i' : nat) :
  NoDup I -> (i < length I)%nat -> (i' < length I)%nat ->
  nth i I O = nth i' I O -> i = i'.
Proof. intros ND Hi Hi' E. apply (proj1 (NoDup_nth I O) ND); auto. Qed.

Lemma In_nth_pos (I : list nat) (a : nat) :
  In a I -> exists i, (i < length I)%nat /\ nth i I O = a.
Proof. intros H. apply In_nth. exact H. Qed.

(** Lines 120-125 build the block of [Y2]. *)
Lemma extract_block_Ok (Y2 : ndarray R) (I J : list nat) :
  (forall a, In a I -> (a < nrows Y2)%nat) ->
  (forall b, In b J -> (b < ncols Y2)%nat) ->
  exists M, extract_block Y2 I J = Ok M /\
    nrows M = length I /\ ncols M = length J /\
    forall i j, (i < length I)%nat -> (j < length J)%nat ->
                elt M i j = elt Y2 (nth i I O) (nth j J O).
Proof.
  intros HI HJ. unfold extract_block.
  destruct (scatter_Ok (fun i j => getitem Y2 (nth i I O) (nth j J O))
              (fun i j => elt Y2 (nth i I O) (nth j J O))
              (fun i => i) (fun j => j) (length I) (length J))
    with (dst := np_zeros (length I) (length J))
    as [M (E & Hr & Hc & Hv & _)]; auto.
  - intros i j Hi Hj. apply getitem_Ok; [apply HI|apply HJ]; apply nth_In; auto.
  - exists M. auto.
Qed.

(** Lines 128-130 and 138-140 overwrite the cells of the block and no other. *)
Lemma copy_block_Ok (Y2 : ndarray R) (I J : list nat) (res : ndarray R) :
  NoDup I -> NoDup J ->
  (forall a, In a I -> (a < nrows Y2)%nat /\ (a < nrows res)%nat) ->
  (forall b, In b J -> (b < ncols Y2)%nat /\ (b < ncols res)%nat) ->
  exists res', copy_block Y2 I J res = Ok res' /\
    nrows res' = nrows res /\ ncols res' = ncols res /\
    (forall a b, In a I -> In b J -> elt res' a b = elt Y2 a b) /\
    (forall a b, ~ (In a I /\ In b J) -> elt res' a b = elt res a b).
Proof.
  intros NI NJ HI HJ. unfold copy_block.
  destruct (scatter_Ok (fun i j => getitem Y2 (nth i I O) (nth j J O))
              (fun i j => elt Y2 (nth i I O) (nth j J O))
              (fun i => nth i I O) (fun j => nth j J O) (length I) (length J))
    with (dst := res)
    as [res' (E & Hr & Hc & Hv & Ho)].
  - intros i j Hi Hj.
    apply getitem_Ok;
      [apply (proj1 (HI _ (nth_In I O Hi)))|apply (proj1 (HJ _ (nth_In J O Hj)))].
  - intros; apply (NoDup_nth_inj I); auto.
  - intros; apply (NoDup_nth_inj J); auto.
  - intros i Hi. apply (proj2 (HI _ (nth_In I O Hi))).
  - intros j Hj. apply (proj2 (HJ _ (nth_In J O Hj))).
  - exists res'. split; [exact E|]. repeat split; auto.
    + intros a b Ha Hb.
      destruct (In_nth_pos I a Ha) as [i [Hi <-]].
      destruct (In_nth_pos J b Hb) as [j [Hj <-]]. apply Hv; auto.
    + intros a b Hab. apply Ho. intros i j Hi Hj [-> ->].
      apply Hab. split; apply nth_In; auto.
Qed.

Lemma write_block_Ok (H : ndarray R) (I J : list nat) (res : ndarray R) :
  NoDup I -> NoDup J ->
  nrows H = length I -> ncols H = length J ->
  (forall a, In a I -> (a < nrows res)%nat) ->
  (forall b, In b J -> (b < ncols res)%nat) ->
  exists res', write_block H I J res = Ok res' /\
    nrows res' = nrows res /\ ncols res' = ncols res /\
    (forall i j, (i < length I)%nat -> (j < length J)%nat ->
                 elt res' (nth i I O) (nth j J O) = elt H i j) /\
    (forall a b, ~ (In a I /\ In b J) -> elt res' a b = elt res a b).
Proof.
  intros NI NJ Hr0 Hc0 HI HJ. unfold write_block.
  destruct (scatter_Ok (fun i j => getitem H i j) (fun i j => elt H i j)
              (fun i => nth i I O) (fun j => nth j J O) (length I) (length J))
    with (dst := res)
    as [res' (E & Hr & Hc & Hv & Ho)].
  - intros i j Hi Hj. apply getitem_Ok; lia.
  - intros; apply (NoDup_nth_inj I); auto.
  - intros; apply (NoDup_nth_inj J); auto.
  - intros i Hi. apply HI. apply nth_In. exact Hi.
  - intros j Hj. apply HJ. apply nth_In. exact Hj.
  - exists res'. split; [exact E|]. repeat split; auto.
    intros a b Hab. apply Ho. intros i j Hi Hj [-> ->].
    apply Hab. split; apply nth_In; auto.
Qed.

(** ** Dyadic buckets *)

Lemma In_argwhere (cond : R -> bool) (p : list R) (i : nat) :
  In i (np_argwhere cond p) <-> (i < length p)%nat /\ cond (nth i p 0) = true.
Proof.
  unfold np_argwhere. rewrite filter_In, in_seq. split; intros [H1 H2]; split; auto; lia.
Qed.

Lemma NoDup_argwhere (cond : R -> bool) (p : list R) : NoDup (np_argwhere cond p).
Proof. unfold np_argwhere. apply NoDup_filter. apply seq_NoDup. Qed.

Lemma pow2neg_pos (t : nat) : 0 < pow2neg t.
Proof. unfold pow2neg. apply Rinv_0_lt_compat. apply pow_lt. lra. Qed.

Lemma pow2neg_S (t : nat) : pow2neg (S t) = pow2neg t / 2.
Proof.
  unfold pow2neg. simpl. field. apply pow_nonzero. lra.
Qed.

Lemma pow2neg_antitone (t t' : nat) : (t <= t')%nat -> pow2neg t' <= pow2neg t.
Proof.
  induction 1 as [|k _ IH]; [lra|].
  rewrite pow2neg_S. pose proof (pow2neg_pos k). lra.
Qed.

Lemma pow2neg_0 : pow2neg 0 = 1.
Proof. unfold pow2neg. simpl. lra. Qed.

(** Membership in a bucket, as lines 110 and 112 test it. *)
Lemma bucket_In_inner (p : list R) (T t i : nat) :
  (t < T)%nat ->
  (In i (bucket p T t) <->
   (i < length p)%nat /\ pow2neg (t + 1) < nth i p 0 <= pow2neg t).
Proof.
  intros Ht. unfold bucket.
  replace (t <? T)%nat with true by (symmetry; apply Nat.ltb_lt; exact Ht).
  rewrite In_argwhere, andb_true_iff, Rleb_true, Rltb_true. tauto.
Qed.

Lemma bucket_In_last (p : list R) (T t i : nat) :
  (T <= t)%nat ->
  (In i (bucket p T t) <-> (i < length p)%nat /\ nth i p 0 <= pow2neg t).
Proof.
  intros Ht. unfold bucket.
  replace (t <? T)%nat with false by (symmetry; apply Nat.ltb_ge; exact Ht).
  rewrite In_argwhere, Rleb_true. tauto.
Qed.

Lemma bucket_bound (p : list R) (T t i : nat) :
  In i (bucket p T t) -> (i < length p)%nat.
Proof.
  unfold bucket. destruct (t <? T)%nat; intros H; apply In_argwhere in H; tauto.
Qed.

Lemma bucket_upper (p : list R) (T t i : nat) :
  In i (bucket p T t) -> nth i p 0 <= pow2neg t.
Proof.
  destruct (Nat.lt_ge_cases t T) as [Ht|Ht]; intros H.
  - apply bucket_In_inner in H; tauto.
  - apply bucket_In_last in H; tauto.
Qed.

Lemma NoDup_bucket (p : list R) (T t : nat) : NoDup (bucket p T t).
Proof. unfold bucket. destruct (t <? T)%nat; apply NoDup_argwhere. Qed.

(** Two different levels share no subscript. *)
Lemma bucket_disjoint (p : list R) (T t t' i : nat) :
  (t <= T)%nat -> (t' <= T)%nat -> t <> t' ->
  In i (bucket p T t) -> In i (bucket p T t') -> False.
Proof.
  assert (W : forall a b, (a < b)%nat -> (b <= T)%nat ->
              In i (bucket p T a) -> In i (bucket p T b) -> False).
  { intros a b Hab Hb Ha Hb'.
    apply bucket_In_inner in Ha; [|lia].
    apply bucket_upper in Hb'.
    assert (pow2neg b <= pow2neg (a + 1)) by (apply pow2neg_antitone; lia).
    lra. }
  intros Ht Ht' Hne H1 H2.
  destruct (Nat.lt_total t t') as [L|[E|L]]; [eapply W; eauto|congruence|eapply W; eauto].
Qed.

(** Every value no larger than 1 has a level. *)
Lemma level_exists (x : R) (T : nat) :
  x <= 1 ->
  x <= pow2neg T \/ exists t, (t < T)%nat /\ pow2neg (t + 1) < x <= pow2neg t.
Proof.
  intros Hx. induction T as [|T IH].
  - left. rewrite pow2neg_0. exact Hx.
  - destruct IH as [Hle|[t [Ht Hb]]].
    + destruct (Rle_dec x (pow2neg (S T))) as [Hs|Hs]; [left; exact Hs|].
      right. exists T. split; [lia|]. replace (T + 1)%nat with (S T) by lia. lra.
    + right. exists t. split; [lia|exact Hb].
Qed.

Lemma bucket_level_exists (p : list R) (T i : nat) :
  (i < length p)%nat -> nth i p 0 <= 1 ->
  exists t, (t <= T)%nat /\ In i (bucket p T t).
Proof.
  intros Hi Hx. destruct (level_exists (nth i p 0) T Hx) as [Hle|[t [Ht Hb]]].
  - exists T. split; [lia|]. apply bucket_In_last; auto.
  - exists t. split; [lia|]. apply bucket_In_inner; auto.
Qed.

Lemma NoDup_concat_map (f : nat -> list nat) (ts : list nat) :
  NoDup ts ->
  (forall t, In t ts -> NoDup (f t)) ->
  (forall t t' x, In t ts -> In t' ts -> t <> t' -> In x (f t) -> In x (f t') -> False) ->
  NoDup (concat (map f ts)).
Proof.
  induction 1 as [|t ts Hnt ND IH]; intros Hf Hd; simpl; [constructor|].
  apply NoDup_app.
  - apply Hf. left. reflexivity.
  - apply IH.
    + intros t' Ht'. apply Hf. right. exact Ht'.
    + intros a b x Ha Hb. apply Hd; right; assumption.
  - intros x Hx Hc. apply in_concat in Hc. destruct Hc as [l [Hl Hxl]].
    apply in_map_iff in Hl. destruct Hl as [t' [<- Ht']].
    apply (Hd t t' x); auto; [left; reflexivity|right; exact Ht'|].
    intros ->. contradiction.
Qed.

(** In exact arithmetic [int(ln d / ln 2)] is the integer logarithm. *)
Lemma level_count_log2 (d : Z) :
  (0 < d)%Z -> level_count d = Ok (Z.to_nat (Z.log2 d)).
Proof.
  intros Hd. unfold level_count.
  replace (0 <? d)%Z with true by (symmetry; apply Z.ltb_lt; exact Hd).
  do 2 f_equal.
  pose proof (Z.log2_nonneg d) as Hk.
  destruct (Z.log2_spec d Hd) as [Hlo Hhi].
  set (k := Z.log2 d) in *.
  assert (L2 : 0 < ln 2) by (pose proof ln_lt_2; lra).
  assert (P : forall m : nat, IZR (2 ^ Z.of_nat m) = 2 ^ m).
  { intros m. rewrite <- pow_IZR. reflexivity. }
  assert (Lp : forall m : nat, ln (2 ^ m) = INR m * ln 2).
  { intros m. apply ln_pow. lra. }
  assert (Dpos : 0 < IZR d) by (apply IZR_lt; exact Hd).
  assert (Klo : INR (Z.to_nat k) * ln 2 <= ln (IZR d)).
  { rewrite <- Lp.
    assert (2 ^ Z.to_nat k <= IZR d).
    { rewrite <- P, Z2Nat.id by exact Hk. apply IZR_le. exact Hlo. }
    destruct H as [H|H]; [left; apply ln_increasing; auto; apply pow_lt; lra|].
    right. rewrite H. reflexivity. }
  assert (Khi : ln (IZR d) < INR (S (Z.to_nat k)) * ln 2).
  { rewrite <- Lp. apply ln_increasing; [exact Dpos|].
    rewrite <- P. apply IZR_lt.
    replace (Z.of_nat (S (Z.to_nat k))) with (Z.succ k) by lia. exact Hhi. }
  rewrite S_INR in Khi. rewrite INR_IZR_INZ, Z2Nat.id in Klo, Khi by exact Hk.
  assert (Q : IZR k <= ln (IZR d) / ln 2 < IZR k + 1).
  { split.
    - apply Rmult_le_reg_r with (ln 2); [exact L2|]. field_simplify; lra.
    - apply Rmult_lt_reg_r with (ln 2); [exact L2|]. field_simplify; lra. }
  unfold py_int. destruct (Rle_dec 0 (ln (IZR d) / ln 2)) as [_|N].
  - apply math_floor_unique. exact Q.
  - exfalso. apply N. assert (0 <= IZR k) by (apply IZR_le; exact Hk). lra.
Qed.

(** C3 (amended).  For a marginal vector whose entries do not exceed 1,
    and [T] the level count the code computes from [d] (the integer
    logarithm of [d]), the [T + 1] buckets list every subscript exactly
    once; subscript [i] is at a level [t < T] iff
    [2^(-t-1) < p[i] <= 2^(-t)] and at level [T] iff [p[i] <= 2^(-T)]; a
    value equal to a boundary [2^(-t)] is at level [t], so [p[i] = 1] is
    at level 0. *)
Theorem dyadic_partition (d : Z) (p : list R) :
  (0 < d)%Z ->
  (forall i, (i < length p)%nat -> nth i p 0 <= 1) ->
  exists T, level_count d = Ok T /\ T = Z.to_nat (Z.log2 d) /\
    Permutation (concat (map (bucket p T) (seq 0 (T + 1)))) (seq 0 (length p)) /\
    (forall i, (i < length p)%nat ->
       exists t, (t <= T)%nat /\ In i (bucket p T t) /\
         forall t', (t' <= T)%nat -> In i (bucket p T t') -> t' = t) /\
    (forall t i, (t < T)%nat ->
       (In i (bucket p T t) <->
        (i < length p)%nat /\ pow2neg (t + 1) < nth i p 0 <= pow2neg t)) /\
    (forall i, In i (bucket p T T) <-> (i < length p)%nat /\ nth i p 0 <= pow2neg T) /\
    (forall t i, (t <= T)%nat -> (i < length p)%nat ->
       nth i p 0 = pow2neg t -> In i (bucket p T t)).
Proof.
  intros Hd Hp. exists (Z.to_nat (Z.log2 d)).
  split; [apply level_count_log2; exact Hd|]. split; [reflexivity|].
  set (T := Z.to_nat (Z.log2 d)).
  split; [|split; [|split; [|split]]].
  - apply NoDup_Permutation.
    + apply NoDup_concat_map.
      * apply seq_NoDup.
      * intros t _. apply NoDup_bucket.
      * intros t t' x Ht Ht' Hne. apply in_seq in Ht, Ht'.
        apply bucket_disjoint; auto; lia.
    + apply seq_NoDup.
    + intros i. rewrite in_concat, in_seq. split.
      * intros [l [Hl Hi]]. apply in_map_iff in Hl. destruct Hl as [t [<- _]].
        apply bucket_bound in Hi. lia.
      * intros [_ Hi]. destruct (bucket_level_exists p T i Hi (Hp i Hi)) as [t [Ht Hin]].
        exists (bucket p T t). split; [|exact Hin].
        apply in_map. apply in_seq. lia.
  - intros i Hi. destruct (bucket_level_exists p T i Hi (Hp i Hi)) as [t [Ht Hin]].
    exists t. repeat split; auto.
    intros t' Ht' Hin'. destruct (Nat.eq_dec t' t) as [E|N]; [exact E|].
    exfalso. apply (bucket_disjoint p T t' t i); auto.
  - intros t i Ht. apply bucket_In_inner. exact Ht.
  - intros i. apply bucket_In_last. lia.
  - intros t i Ht Hi E. destruct (Nat.lt_ge_cases t T) as [L|G].
    + apply bucket_In_inner; [exact L|]. split; [exact Hi|]. rewrite E.
      replace (t + 1)%nat with (S t) by lia. rewrite pow2neg_S.
      pose proof (pow2neg_pos t). lra.
    + apply bucket_In_last; [exact G|]. split; [exact Hi|]. rewrite E. lra.
Qed.

Lemma level_count_1 : level_count 1 = Ok O.
Proof. rewrite level_count_log2 by lia. reflexivity. Qed.

Lemma dyadic_partition_witness :
  exists T, level_count 1 = Ok T /\
    Permutation (concat (map (bucket [1] T) (seq 0 (T + 1)))) (seq 0 1).
Proof.
  destruct (dyadic_partition 1 [1]) as [T (E & _ & P & _)].
  - lia.
  - intros i Hi. simpl in Hi. destruct i as [|i]; [simpl; lra|lia].
  - exists T. split; [exact E|exact P].
Defined.

(** C3 as stated fails: the row sum 2 of the 1x1 count matrix [[2]]
    (d = 1, T = 0) is above every band, so subscript 0 is in no bucket. *)
Lemma dyadic_partition_gap :
  level_count 1 = Ok O /\
  concat (map (bucket [2] 0) (seq 0 (0 + 1))) = [] /\
  ~ Permutation (concat (map (bucket [2] 0) (seq 0 (0 + 1)))) (seq 0 (length [2])).
Proof.
  assert (E : bucket [2] 0 0 = []).
  { unfold bucket, np_argwhere. simpl.
    replace (Rleb 2 (pow2neg 0)) with false; [reflexivity|].
    symmetry. apply Rleb_false. rewrite pow2neg_0. lra. }
  split; [exact level_count_1|]. simpl. rewrite E. simpl. split; [reflexivity|].
  intros P. apply Permutation_length in P. simpl in P. discriminate.
Qed.

(** ** One block *)

Lemma rank_l_le (tau0 : R) (s : list R) : (rank_l tau0 s <= length s)%nat.
Proof. unfold rank_l, retained. apply filter_length_le. Qed.

(** With factors of the documented shapes the reconstruction is defined
    and has the shape of the block. *)
Lemma reconstruct_Ok (U : ndarray R) (s : list R) (Vh : ndarray R) (l r c : nat) :
  nrows U = r -> ncols U = r -> nrows Vh = c -> ncols Vh = c ->
  length s = Nat.min r c -> (l <= length s)%nat ->
  exists H, reconstruct U s Vh l = Ok H /\
    nrows H = r /\ ncols H = c /\
    (forall i j, elt H i j = Rsum l (fun k => elt U i k * nth k s 0 * elt Vh k j)).
Proof.
  intros Ur Uc Vr Vc Hs Hl. unfold reconstruct, np_mul_row, take_cols, take_rows. simpl.
  rewrite length_firstn, Uc, Vr.
  replace (Nat.min l r) with l by lia.
  replace (Nat.min l (length s)) with l by lia.
  replace (Nat.min l c) with l by lia.
  rewrite broadcast_dim_refl. simpl.
  unfold np_dot. simpl. rewrite Nat.eqb_refl.
  eexists. split; [reflexivity|]. simpl. repeat split; auto.
  intros i j. apply Rsum_ext. intros k Hk.
  rewrite (bidx_lt l k Hk). rewrite nth_firstn.
  replace (k <? l)%nat with true by (symmetry; apply Nat.ltb_lt; exact Hk).
  reflexivity.
Qed.

Lemma reconstruct_rank_0 (U : ndarray R) (s : list R) (Vh H : ndarray R) :
  reconstruct U s Vh 0 = Ok H ->
  nrows H = nrows U /\ ncols H = ncols Vh /\ forall i j, elt H i j = 0.
Proof.
  unfold reconstruct, np_mul_row, take_cols, take_rows. simpl.
  unfold np_dot. simpl. intros E. injection E as <-. simpl. auto.
Qed.

Section Blocks.

Variable svd : ndarray R -> ndarray R * list R * ndarray R.
Hypothesis svd_ok : forall M, svd_shapes M (svd M).

Variables (n d : Z) (Y2 : ndarray R) (alpha cstar Cbar : R).

Lemma block_written_frame (t u : nat) (I J : list nat) (res res' : ndarray R) :
  (forall a b, In a I -> In b J -> elt res' a b = elt res a b) ->
  block_written svd n d Y2 alpha cstar Cbar t u I J res ->
  block_written svd n d Y2 alpha cstar Cbar t u I J res'.
Proof.
  intros Hsame [M [E W]]. exists M. split; [exact E|].
  destruct (Rltb (np_sum M) (energy_cutoff n d alpha Cbar)).
  - intros a b Ha Hb. rewrite Hsame by assumption. apply W; assumption.
  - destruct W as [H [EH WH]]. exists H. split; [exact EH|].
    intros i j Hi Hj. rewrite Hsame by (apply nth_In; assumption). apply WH; assumption.
Qed.

Lemma block_step_Ok (t u : nat) (I J : list nat) (res : ndarray R) :
  NoDup I -> NoDup J ->
  (forall a, In a I -> (a < nrows Y2)%nat /\ (a < nrows res)%nat) ->
  (forall b, In b J -> (b < ncols Y2)%nat /\ (b < ncols res)%nat) ->
  exists res', block_step svd n d Y2 alpha cstar Cbar t u I J res = Ok res' /\
    nrows res' = nrows res /\ ncols res' = ncols res /\
    block_written svd n d Y2 alpha cstar Cbar t u I J res' /\
    (forall a b, ~ (In a I /\ In b J) -> elt res' a b = elt res a b).
Proof.
  intros NI NJ HI HJ.
  destruct (extract_block_Ok Y2 I J) as [M (EM & Mr & Mc & Mv)].
  { intros a Ha. apply (HI a Ha). }
  { intros b Hb. apply (HJ b Hb). }
  unfold block_step, block_written. rewrite EM. simpl.
  destruct (Rltb (np_sum M) (energy_cutoff n d alpha Cbar)) eqn:Etest.
  - destruct (copy_block_Ok Y2 I J res NI NJ HI HJ) as [res' (E & Hr & Hc & Hv & Ho)].
    exists res'. repeat split; auto.
    exists M. rewrite Etest. split; [reflexivity|exact Hv].
  - pose proof (svd_ok M) as Hshape.
    destruct (svd M) as [[U s] Vh] eqn:Esvd. simpl in Hshape.
    destruct Hshape as (Ur & Uc & Hs & Vr & Vc).
    destruct (reconstruct_Ok U s Vh (rank_l (tau n d cstar t u) s) (nrows M) (ncols M))
      as [H (EH & Hr0 & Hc0 & _)]; auto using rank_l_le.
    rewrite EH. simpl.
    destruct (write_block_Ok H I J res NI NJ) as [res' (E & Hr & Hc & Hv & Ho)];
      try congruence.
    { intros a Ha. apply (HI a Ha). }
    { intros b Hb. apply (HJ b Hb). }
    exists res'. repeat split; auto.
    exists M. rewrite Etest. split; [reflexivity|].
    exists H. split; [rewrite Esvd; exact EH|exact Hv].
Qed.

(** ** All blocks *)

Variables (Y1 : ndarray R) (d1 d2 T : nat).
Hypothesis Y1_rows : nrows Y1 = d1.
Hypothesis Y1_cols : ncols Y1 = d2.
Hypothesis Y2_rows : nrows Y2 = d1.
Hypothesis Y2_cols : ncols Y2 = d2.

Let p := np_sum_axis1 Y1.
Let q := np_sum_axis0 Y1.

Lemma row_bucket_bound (t a : nat) : In a (bucket p T t) -> (a < d1)%nat.
Proof.
  intros H. apply bucket_bound in H. unfold p, np_sum_axis1 in H.
  rewrite length_map, length_seq in H. lia.
Qed.

Lemma col_bucket_bound (u b : nat) : In b (bucket q T u) -> (b < d2)%nat.
Proof.
  intros H. apply bucket_bound in H. unfold q, np_sum_axis0 in H.
  rewrite length_map, length_seq in H. lia.
Qed.

Let written (t u : nat) (res : ndarray R) : Prop :=
  block_written svd n d Y2 alpha cstar Cbar t u (bucket p T t) (bucket q T u) res.

(** The inner loop, over the column levels [u], for a row level [t]. *)
Lemma column_levels_Ok (t : nat) (res : ndarray R) :
  (t <= T)%nat -> nrows res = d1 -> ncols res = d2 ->
  exists res',
    for_each (seq 0 (T + 1))
      (fun u res2 =>
         block_step svd n d Y2 alpha cstar Cbar t u (bucket p T t) (bucket q T u) res2)
      res = Ok res' /\
    nrows res' = d1 /\ ncols res' = d2 /\
    (forall u, (u <= T)%nat -> written t u res') /\
    (forall a b, ~ In a (bucket p T t) -> elt res' a b = elt res a b).
Proof.
  intros Ht Hr Hc.
  pose (Inv := fun (k : nat) (s : ndarray R) =>
    nrows s = d1 /\ ncols s = d2 /\
    (forall u, (u < k)%nat -> written t u s) /\
    (forall a b, ~ In a (bucket p T t) -> elt s a b = elt res a b)).
  destruct (for_range_invariant Inv (T + 1)
    (fun u res2 =>
       block_step svd n d Y2 alpha cstar Cbar t u (bucket p T t) (bucket q T u) res2)
    res) as [s [E (Sr & Sc & Sw & Sf)]].
  - repeat split; auto. intros u Hu. lia.
  - intros k s Hk (Sr & Sc & Sw & Sf).
    destruct (block_step_Ok t k (bucket p T t) (bucket q T k) s)
      as [s' (E' & Hr' & Hc' & Hw & Ho)].
    { apply NoDup_bucket. }
    { apply NoDup_bucket. }
    { intros a Ha. apply row_bucket_bound in Ha. lia. }
    { intros b Hb. apply col_bucket_bound in Hb. lia. }
    exists s'. split; [exact E'|]. repeat split; try congruence.
    + intros u Hu. destruct (Nat.eq_dec u k) as [->|Hne]; [exact Hw|].
      apply block_written_frame with (res := s); [|apply Sw; lia].
      intros a b Ha Hb. apply Ho. intros [_ Hb'].
      apply (bucket_disjoint q T u k b); auto; lia.
    + intros a b Ha. rewrite Ho; [apply Sf; exact Ha|]. tauto.
  - exists s. split; [exact E|]. repeat split; auto.
    intros u Hu. apply Sw. lia.
Qed.

(** The outer loop, over the row levels [t]. *)
Lemma row_levels_Ok (res : ndarray R) :
  nrows res = d1 -> ncols res = d2 ->
  exists res',
    for_each (seq 0 (T + 1))
      (fun t res1 =>
         for_each (seq 0 (T + 1))
           (fun u res2 =>
              block_step svd n d Y2 alpha cstar Cbar t u
                (bucket p T t) (bucket q T u) res2)
           res1)
      res = Ok res' /\
    nrows res' = d1 /\ ncols res' = d2 /\
    (forall t u, (t <= T)%nat -> (u <= T)%nat -> written t u res').
Proof.
  intros Hr Hc.
  pose (Inv := fun (k : nat) (s : ndarray R) =>
    nrows s = d1 /\ ncols s = d2 /\
    (forall t u, (t < k)%nat -> (u <= T)%nat -> written t u s)).
  destruct (for_range_invariant Inv (T + 1)
    (fun t res1 =>
       for_each (seq 0 (T + 1))
         (fun u res2 =>
            block_step svd n d Y2 alpha cstar Cbar t u
              (bucket p T t) (bucket q T u) res2)
         res1)
    res) as [s [E (Sr & Sc & Sw)]].
  - repeat split; auto. intros t u Ht. lia.
  - intros k s Hk (Sr & Sc & Sw).
    destruct (column_levels_Ok k s) as [s' (E' & Hr' & Hc' & Hw & Ho)]; auto; [lia|].
    exists s'. split; [exact E'|]. repeat split; auto.
    intros t u Ht Hu. destruct (Nat.eq_dec t k) as [->|Hne]; [apply Hw; exact Hu|].
    apply block_written_frame with (res := s); [|apply Sw; auto; lia].
    intros a b Ha Hb. apply Ho. intros Ha'.
    apply (bucket_disjoint p T t k a); auto; lia.
  - exists s. split; [exact E|]. repeat split; auto.
    intros t u Ht Hu. apply Sw; auto. lia.
Qed.

End Blocks.

(** ** [our_algo] *)

Lemma degenerate_regime_false (n d : Z) :
  IZR d * ln (IZR d) < IZR n -> degenerate_regime n d = false.
Proof.
  intros H. unfold degenerate_regime. apply andb_false_iff. right.
  apply Rleb_false. exact H.
Qed.

Lemma degenerate_regime_true (n d : Z) :
  (0 < d)%Z -> IZR n <= IZR d * ln (IZR d) -> degenerate_regime n d = true.
Proof.
  intros Hd H. unfold degenerate_regime. apply andb_true_iff. split.
  - apply Z.ltb_lt. exact Hd.
  - apply Rleb_true. exact H.
Qed.

Lemma svd_diag_shapes (M : ndarray R) : svd_shapes M (svd_diag M).
Proof.
  unfold svd_shapes, svd_diag. simpl. rewrite length_map, length_seq. auto.
Qed.

Lemma ln_2_lt_1 : ln 2 < 1.
Proof.
  rewrite <- (ln_exp 1). apply ln_increasing; [lra|].
  pose proof (exp_ineq1 1). lra.
Qed.

Lemma ln_2_pos : 0 < ln 2.
Proof. pose proof ln_lt_2. lra. Qed.

Section Algorithm1_Properties.

Variable svd : ndarray R -> ndarray R * list R * ndarray R.
Hypothesis svd_ok : forall M, svd_shapes M (svd M).

(** Where the scope binds [d1], [d2] to the shape of the histograms,
    lines 103-140 run to completion and every block holds what its
    branch writes. *)
Lemma assemble_Ok (G : globals) (n d : Z) (Y1 Y2 : ndarray R)
    (alpha cstar Cbar : R) (T : nat) :
  g_d1 G = Some (nrows Y1) -> g_d2 G = Some (ncols Y1) ->
  same_shape Y2 Y1 -> level_count d = Ok T ->
  exists res, assemble svd G n d Y1 Y2 alpha cstar Cbar = Ok res /\
    same_shape res Y1 /\
    forall t u, (t <= T)%nat -> (u <= T)%nat ->
      block_written svd n d Y2 alpha cstar Cbar t u
        (bucket (np_sum_axis1 Y1) T t) (bucket (np_sum_axis0 Y1) T u) res.
Proof.
  intros G1 G2 [S1 S2] HT. unfold assemble. rewrite G1, G2, HT. simpl.
  destruct (row_levels_Ok svd svd_ok n d Y2 alpha cstar Cbar Y1
              (nrows Y1) (ncols Y1) T eq_refl eq_refl S1 S2
              (np_zeros (nrows Y1) (ncols Y1)) eq_refl eq_refl)
    as [res (E & Hr & Hc & Hw)].
  exists res. split; [exact E|]. split; [split; assumption|exact Hw].
Qed.

End Algorithm1_Properties.

(** C2.  In the degenerate regime [n <= d ln d] the call returns the
    elementwise mean [(Y1 + Y2)/2] of two histograms of equal shape,
    whatever the globals, the decomposition and the constants are: nothing
    is partitioned, thresholded or normalised. *)
Theorem our_algo_degenerate (svd : ndarray R -> ndarray R * list R * ndarray R)
    (G : globals) (n d : Z) (Y1 Y2 : ndarray R) (alpha cstar Cbar : R) :
  same_shape Y1 Y2 -> (0 < d)%Z -> IZR n <= IZR d * ln (IZR d) ->
  exists P, our_algo svd G n d Y1 Y2 alpha cstar Cbar = Ok P /\
    same_shape P Y1 /\
    forall i j, (i < nrows Y1)%nat -> (j < ncols Y1)%nat ->
      elt P i j = Fin ((elt Y1 i j + elt Y2 i j) / 2).
Proof.
  intros [S1 S2] Hd Hn. unfold our_algo.
  rewrite (degenerate_regime_true n d Hd Hn).
  unfold np_add. rewrite <- S1, <- S2, !broadcast_dim_refl. simpl.
  eexists. split; [reflexivity|]. split; [split; reflexivity|].
  intros i j Hi Hj. simpl.
  rewrite !(bidx_lt _ i Hi), !(bidx_lt _ j Hj).
  apply np_true_divide_nonzero. lra.
Qed.

Lemma our_algo_degenerate_witness :
  exists P, our_algo svd_diag module_globals 0 1 (np_full 2 2 1) (np_full 2 2 3) 1 1 1 = Ok P /\
    elt P 1%nat 1%nat = Fin ((1 + 3) / 2).
Proof.
  destruct (our_algo_degenerate svd_diag module_globals 0 1
              (np_full 2 2 1) (np_full 2 2 3) 1 1 1) as [P (E & _ & V)].
  - split; reflexivity.
  - lia.
  - rewrite ln_1. lra.
  - exists P. split; [exact E|]. apply (V 1%nat 1%nat); simpl; lia.
Defined.

(** ** Thresholding and normalisation *)

(** On singular values in descending order the first [l] are those that
    reach the threshold. *)
Lemma firstn_retained (tau0 : R) (s : list R) :
  descending s -> firstn (rank_l tau0 s) s = retained tau0 s.
Proof.
  intros D. apply Sorted_StronglySorted in D; [|intros x y z; apply Rge_trans].
  unfold rank_l, retained.
  induction D as [|x s D IH Hall]; [reflexivity|]. simpl.
  destruct (Rleb tau0 x) eqn:E; simpl.
  - rewrite IH. reflexivity.
  - assert (N : filter (fun y => Rleb tau0 y) s = []).
    { apply Rleb_false in E. clear IH D.
      induction Hall as [|y s Hy _ IH']; [reflexivity|]. simpl.
      replace (Rleb tau0 y) with false; [exact IH'|].
      symmetry. apply Rleb_false. lra. }
    rewrite N. reflexivity.
Qed.

Lemma retained_In (tau0 : R) (s : list R) (x : R) :
  In x (retained tau0 s) <-> In x s /\ tau0 <= x.
Proof. unfold retained. rewrite filter_In, Rleb_true. tauto. Qed.

Lemma fin_sum_div (res : ndarray R) (c : R) :
  c <> 0 -> fin_sum (np_div_scalar res c) = np_sum res / c.
Proof.
  intros Hc. unfold fin_sum, np_sum, np_div_scalar. simpl.
  unfold Rdiv. rewrite <- Rsum_scale. apply Rsum_ext. intros i _.
  rewrite <- Rsum_scale. apply Rsum_ext. intros j _.
  rewrite np_true_divide_nonzero by exact Hc. reflexivity.
Qed.

Lemma np_true_divide_zero_special (x : R) :
  np_true_divide x 0 = NaN \/ np_true_divide x 0 = PInf \/ np_true_divide x 0 = NInf.
Proof.
  unfold np_true_divide. destruct (Req_dec_T 0 0) as [_|N]; [|congruence].
  destruct (Rlt_dec 0 x); [auto|]. destruct (Rlt_dec x 0); auto.
Qed.

(** C1 (amended).  Above the degenerate regime, with [d1], [d2] bound to
    the shape of the histograms, the call returns the assembled matrix
    divided by its total: when the total is not zero the entries are the
    quotients and sum to 1; when the total is zero no exception is raised
    and every entry of the returned matrix is [nan] or an infinity. *)
Theorem our_algo_normalises (svd : ndarray R -> ndarray R * list R * ndarray R)
    (G : globals) (n d : Z) (Y1 Y2 : ndarray R) (alpha cstar Cbar : R) :
  (forall M, svd_shapes M (svd M)) ->
  g_d1 G = Some (nrows Y1) -> g_d2 G = Some (ncols Y1) ->
  same_shape Y2 Y1 -> (0 < d)%Z -> IZR d * ln (IZR d) < IZR n ->
  exists res P,
    assemble svd G n d Y1 Y2 alpha cstar Cbar = Ok res /\
    our_algo svd G n d Y1 Y2 alpha cstar Cbar = Ok P /\
    same_shape P Y1 /\
    (np_sum res <> 0 ->
       (forall i j, elt P i j = Fin (elt res i j / np_sum res)) /\ fin_sum P = 1) /\
    (np_sum res = 0 ->
       forall i j, elt P i j = NaN \/ elt P i j = PInf \/ elt P i j = NInf).
Proof.
  intros svd_ok G1 G2 HS Hd Hn.
  destruct (assemble_Ok svd svd_ok G n d Y1 Y2 alpha cstar Cbar
              (Z.to_nat (Z.log2 d)) G1 G2 HS (level_count_log2 d Hd))
    as [res (E & Hshape & _)].
  exists res, (np_div_scalar res (np_sum res)).
  split; [exact E|]. split; [|split; [exact Hshape|split]].
  - unfold our_algo. rewrite (degenerate_regime_false n d Hn), E. reflexivity.
  - intros Hne. split.
    + intros i j. simpl. apply np_true_divide_nonzero. exact Hne.
    + rewrite fin_sum_div by exact Hne. field. exact Hne.
  - intros Hz i j. simpl. rewrite Hz. apply np_true_divide_zero_special.
Qed.

(** ** Evaluation on 1x1 histograms *)

Lemma bucket_1x1 (y1 : R) (f : ndarray R -> list R) :
  f (np_full 1 1 y1) = [0 + y1] -> y1 <= 1 -> bucket (f (np_full 1 1 y1)) 0 0 = [O].
Proof.
  intros -> Hy. unfold bucket, np_argwhere. simpl.
  replace (Rleb (0 + y1) (pow2neg 0)) with true; [reflexivity|].
  symmetry. apply Rleb_true. rewrite pow2neg_0. lra.
Qed.

Lemma energy_cutoff_d1 (n : Z) (alpha Cbar : R) : energy_cutoff n 1 alpha Cbar = 0.
Proof. unfold energy_cutoff. rewrite ln_1. unfold Rdiv. ring. Qed.

Lemma tau_d1 (n : Z) (cstar : R) (t u : nat) : tau n 1 cstar t u = 0.
Proof. unfold tau. rewrite ln_1. ring. Qed.

(** With [d = 1] there is one block, the energy cut-off and the threshold
    are 0, and on the 1x1 histograms [[y1]], [[y2]] the assembled matrix is
    [[y2]]. *)
Lemma assemble_1x1 (y1 y2 : R) (n : Z) (alpha cstar Cbar : R) :
  y1 <= 1 -> 0 <= y2 ->
  exists res,
    assemble svd_diag (bound_globals 1 1) n 1 (np_full 1 1 y1) (np_full 1 1 y2)
      alpha cstar Cbar = Ok res /\
    nrows res = 1%nat /\ ncols res = 1%nat /\ elt res 0 0 = y2 /\ np_sum res = y2.
Proof.
  intros H1 H2.
  destruct (assemble_Ok svd_diag svd_diag_shapes (bound_globals 1 1) n 1
              (np_full 1 1 y1) (np_full 1 1 y2) alpha cstar Cbar O)
    as [res (E & [Hr Hc] & Hw)]; try reflexivity.
  { split; reflexivity. }
  { exact level_count_1. }
  simpl in Hr, Hc.
  assert (V : elt res 0 0 = y2).
  { specialize (Hw O O (Nat.le_refl _) (Nat.le_refl _)).
    rewrite (bucket_1x1 y1 np_sum_axis1 eq_refl H1) in Hw.
    rewrite (bucket_1x1 y1 np_sum_axis0 eq_refl H1) in Hw.
    destruct Hw as [M [EM W]].
    destruct (extract_block_Ok (np_full 1 1 y2) [O] [O]) as [M' (EM' & Mr & Mc & Mv)].
    { intros a [<-|[]]. simpl. lia. }
    { intros b [<-|[]]. simpl. lia. }
    rewrite EM in EM'. injection EM' as <-. simpl in Mr, Mc.
    assert (M00 : elt M 0 0 = y2) by (apply (Mv O O); simpl; lia).
    assert (SM : np_sum M = y2).
    { unfold np_sum. rewrite Mr, Mc. simpl. rewrite M00. lra. }
    rewrite SM, energy_cutoff_d1 in W.
    replace (Rltb y2 0) with false in W by (symmetry; apply Rltb_false; exact H2).
    destruct W as [H [EH WH]].
    unfold svd_diag in EH. rewrite Mr, Mc in EH. simpl in EH.
    rewrite M00, tau_d1 in EH. unfold rank_l, retained in EH. simpl in EH.
    replace (Rleb 0 y2) with true in EH by (symmetry; apply Rleb_true; exact H2).
    simpl in EH.
    destruct (reconstruct_Ok (np_eye 1) [y2] (np_eye 1) 1 1 1) as [H' (EH' & _ & _ & F)];
      try reflexivity.
    rewrite EH in EH'. injection EH' as <-.
    specialize (WH O O). simpl in WH. rewrite WH by lia. rewrite F. simpl. lra. }
  exists res. repeat split; auto.
  unfold np_sum. rewrite Hr, Hc. simpl. rewrite V. lra.
Qed.

Lemma our_algo_normalises_witness :
  exists P,
    our_algo svd_diag (bound_globals 1 1) 100 1 (np_full 1 1 1) (np_full 1 1 1) 1 1 1
      = Ok P /\ fin_sum P = 1.
Proof.
  destruct (assemble_1x1 1 1 100 1 1 1) as [res0 (E0 & _ & _ & _ & S0)]; [lra|lra|].
  destruct (our_algo_normalises svd_diag (bound_globals 1 1) 100 1
              (np_full 1 1 1) (np_full 1 1 1) 1 1 1) as [res [P (E1 & E2 & _ & N & _)]].
  - exact svd_diag_shapes.
  - reflexivity.
  - reflexivity.
  - split; reflexivity.
  - lia.
  - rewrite ln_1. lra.
  - exists P. split; [exact E2|]. apply N.
    rewrite E0 in E1. injection E1 as <-. rewrite S0. lra.
Defined.

(** C1 as stated fails: on the histograms [[1]], [[0]] the assembled
    matrix is [[0]], its total is zero, and the call returns [[nan]]
    instead of raising. *)
Lemma our_algo_zero_total :
  exists P,
    our_algo svd_diag (bound_globals 1 1) 100 1 (np_full 1 1 1) (np_full 1 1 0) 1 1 1
      = Ok P /\ elt P 0 0 = NaN.
Proof.
  destruct (assemble_1x1 1 0 100 1 1 1) as [res (E & _ & _ & V & S)]; [lra|lra|].
  exists (np_div_scalar res (np_sum res)). split.
  - unfold our_algo. rewrite degenerate_regime_false by (rewrite ln_1; lra).
    rewrite E. reflexivity.
  - simpl. rewrite V, S. apply np_true_divide_0_0.
Qed.

Lemma our_algo_wrong_shape :
  our_algo svd_diag (bound_globals 0 0) 100 1 (np_full 1 1 1) (np_full 1 1 1) 1 1 1
  = Raise IndexError.
Proof.
  unfold our_algo. rewrite degenerate_regime_false by (rewrite ln_1; lra).
  unfold assemble. cbn [bound_globals g_d1 g_d2 lookup bind].
  rewrite level_count_1. cbn [bind Nat.add seq for_each].
  rewrite (bucket_1x1 1 np_sum_axis1 eq_refl (Rle_refl 1)).
  rewrite (bucket_1x1 1 np_sum_axis0 eq_refl (Rle_refl 1)).
  unfold block_step.
  change (extract_block (np_full 1 1 1) [0%nat] [0%nat])
    with (Ok (mk_ndarray 1 1
                (fun a b => if ((a =? 0)%nat && (b =? 0)%nat)%bool then 1 else 0))).
  cbn [bind]. rewrite energy_cutoff_d1.
  unfold np_sum. cbn [nrows ncols elt Rsum Nat.eqb andb].
  eval_cmp. unfold svd_diag. cbn [nrows ncols Nat.min seq map elt Nat.eqb andb].
  rewrite tau_d1. unfold rank_l, retained. cbn [filter]. eval_cmp. cbn [length].
  reflexivity.
Qed.

(** C6 (evaluation at the failing input).  Above the degenerate regime the
    call reads the free names [d1] and [d2]: on 1x1 histograms it raises
    [NameError] with the globals of the module as shipped; with the same
    arguments it returns a matrix once the scope binds [d1 = d2 = 1], and
    raises [IndexError] when the scope binds [d1 = d2 = 0]. *)
Theorem our_algo_reads_globals :
  (forall svd, our_algo svd module_globals 100 1 (np_full 1 1 1) (np_full 1 1 1) 1 1 1
               = Raise NameError) /\
  (exists P, our_algo svd_diag (bound_globals 1 1) 100 1 (np_full 1 1 1) (np_full 1 1 1)
               1 1 1 = Ok P) /\
  our_algo svd_diag (bound_globals 0 0) 100 1 (np_full 1 1 1) (np_full 1 1 1) 1 1 1
    = Raise IndexError.
Proof.
  assert (D : degenerate_regime 100 1 = false).
  { apply degenerate_regime_false. rewrite ln_1. lra. }
  split; [|split].
  - intros svd. unfold our_algo. rewrite D. reflexivity.
  - unfold our_algo. rewrite D.
    destruct (assemble_1x1 1 1 100 1 1 1) as [res (E & _)]; [lra|lra|].
    rewrite E. eexists. reflexivity.
  - exact our_algo_wrong_shape.
Qed.

(** ** The two branches of a block *)

(** C4 (the claim, and the call as shipped).  Above the degenerate regime,
    take a block [(t, u)] whose extracted submatrix [M] has [sum(M)] below
    the energy cut-off [2 Cbar alpha ln d / (n ln 2)].  With the globals of
    the module as shipped the call raises [NameError] on line 103, before
    any block is visited, so nothing is copied.  Once [d1], [d2] are bound
    to the shape of the histograms (what the commented-out line 96 would
    do), the block is copied from [Y2]: the matrix assembled before
    normalisation holds [Y2[i, j]] at every row [i] of [I_t] and column [j]
    of [J_u], whatever the decomposition would return. *)
Theorem energy_test_copies (svd : ndarray R -> ndarray R * list R * ndarray R)
    (n d : Z) (Y1 Y2 : ndarray R) (alpha cstar Cbar : R)
    (T t u : nat) (M : ndarray R) :
  (forall M0, svd_shapes M0 (svd M0)) ->
  same_shape Y2 Y1 ->
  IZR d * ln (IZR d) < IZR n ->
  level_count d = Ok T -> (t <= T)%nat -> (u <= T)%nat ->
  extract_block Y2 (bucket (np_sum_axis1 Y1) T t) (bucket (np_sum_axis0 Y1) T u) = Ok M ->
  np_sum M < energy_cutoff n d alpha Cbar ->
  our_algo svd module_globals n d Y1 Y2 alpha cstar Cbar = Raise NameError /\
  forall G, g_d1 G = Some (nrows Y1) -> g_d2 G = Some (ncols Y1) ->
    exists res,
      assemble svd G n d Y1 Y2 alpha cstar Cbar = Ok res /\
      our_algo svd G n d Y1 Y2 alpha cstar Cbar = Ok (np_div_scalar res (np_sum res)) /\
      forall i j, In i (bucket (np_sum_axis1 Y1) T t) ->
                  In j (bucket (np_sum_axis0 Y1) T u) ->
                  elt res i j = elt Y2 i j.
Proof.
  intros svd_ok HS Hn HT Ht Hu EM Hlow. split.
  { unfold our_algo. rewrite (degenerate_regime_false n d Hn). reflexivity. }
  intros G G1 G2.
  destruct (assemble_Ok svd svd_ok G n d Y1 Y2 alpha cstar Cbar T G1 G2 HS HT)
    as [res (E & _ & Hw)].
  exists res. split; [exact E|]. split.
  - unfold our_algo. rewrite (degenerate_regime_false n d Hn), E. reflexivity.
  - destruct (Hw t u Ht Hu) as [M' [EM' W]].
    rewrite EM in EM'. injection EM' as <-.
    replace (Rltb (np_sum M) (energy_cutoff n d alpha Cbar)) with true in W
      by (symmetry; apply Rltb_true; exact Hlow).
    exact W.
Qed.

Lemma level_count_2 : level_count 2 = Ok 1%nat.
Proof. rewrite level_count_log2 by lia. reflexivity. Qed.

Lemma bucket_quarters (f : ndarray R -> list R) :
  f (np_full 2 2 (1 / 4)) = [0 + 1 / 4 + 1 / 4; 0 + 1 / 4 + 1 / 4] ->
  bucket (f (np_full 2 2 (1 / 4))) 1 1 = [0%nat; 1%nat].
Proof.
  intros ->. unfold bucket, np_argwhere. simpl.
  replace (Rleb (0 + 1 / 4 + 1 / 4) (pow2neg 1)) with true; [reflexivity|].
  symmetry. apply Rleb_true. unfold pow2neg. simpl. lra.
Qed.

Lemma energy_test_copies_witness :
  our_algo svd_diag module_globals 100 2 (np_full 2 2 (1 / 4))
    (np_full 2 2 (1 / 1000)) 1 1 1 = Raise NameError /\
  exists res,
    assemble svd_diag (bound_globals 2 2) 100 2 (np_full 2 2 (1 / 4))
      (np_full 2 2 (1 / 1000)) 1 1 1 = Ok res /\
    elt res 0 1 = 1 / 1000.
Proof.
  pose proof (bucket_quarters np_sum_axis1 eq_refl) as EI.
  pose proof (bucket_quarters np_sum_axis0 eq_refl) as EJ.
  destruct (extract_block_Ok (np_full 2 2 (1 / 1000)) [0%nat; 1%nat] [0%nat; 1%nat])
    as [M (EM & Mr & Mc & Mv)].
  { intros a [<-|[<-|[]]]; simpl; lia. }
  { intros b [<-|[<-|[]]]; simpl; lia. }
  destruct (energy_test_copies svd_diag 100 2
              (np_full 2 2 (1 / 4)) (np_full 2 2 (1 / 1000)) 1 1 1 1 1 1 M)
    as [Eshipped Hbound].
  - exact svd_diag_shapes.
  - split; reflexivity.
  - pose proof ln_2_lt_1. lra.
  - exact level_count_2.
  - lia.
  - lia.
  - rewrite EI, EJ. exact EM.
  - unfold np_sum. rewrite Mr, Mc. simpl.
    rewrite !Mv by (simpl; lia). simpl.
    unfold energy_cutoff. pose proof ln_2_pos as L.
    replace (2 * 1 * 1 * ln 2 / (100 * ln 2)) with (1 / 50) by (field; lra). lra.
  - split; [exact Eshipped|].
    destruct (Hbound (bound_globals 2 2) eq_refl eq_refl) as [res (E & _ & V)].
    exists res. split; [exact E|].
    rewrite (V 0%nat 1%nat); [reflexivity| |].
    + rewrite EI. left. reflexivity.
    + rewrite EJ. right. left. reflexivity.
Defined.

(** In a descending list the values that reach a threshold are the first
    [rank_l] ones. *)
Lemma rank_l_positions (tau0 : R) (s : list R) :
  descending s ->
  forall k, (k < length s)%nat -> ((k < rank_l tau0 s)%nat <-> tau0 <= nth k s 0).
Proof.
  intros D. apply Sorted_StronglySorted in D; [|intros x y z; apply Rge_trans].
  unfold rank_l, retained.
  induction D as [|x s D IH Hall]; intros k Hk; [simpl in Hk; lia|].
  cbn [filter]. destruct (Rleb tau0 x) eqn:E.
  - apply Rleb_true in E. destruct k as [|k]; cbn [length nth].
    + split; [intros _; exact E|lia].
    + cbn [length] in Hk. rewrite <- (IH k) by lia. lia.
  - apply Rleb_false in E.
    assert (N : filter (fun y => Rleb tau0 y) s = []).
    { clear IH D Hk. induction Hall as [|y s Hy _ IH']; [reflexivity|]. simpl.
      replace (Rleb tau0 y) with false; [exact IH'|].
      symmetry. apply Rleb_false. lra. }
    rewrite N. cbn [length]. split; [lia|]. intros Hge. exfalso.
    destruct k as [|k]; cbn [nth] in Hge; [lra|].
    rewrite Forall_forall in Hall.
    assert (In (nth k s 0) s) by (apply nth_In; cbn [length] in Hk; lia).
    specialize (Hall _ H). lra.
Qed.

(** C5 (the claim, and the call as shipped).  Above the degenerate regime,
    take a block [(t, u)] that passes the energy test and whose singular
    values [s] come in descending order, and let
    [tau = ln d * sqrt(cstar 2^(1 - min(t, u)) / n)] with [cstar > 0].  With
    the globals of the module as shipped the call raises [NameError] on
    line 103 and no block is thresholded.  Once [d1], [d2] are bound to the
    shape of the histograms: the number [l] of retained values does not
    exceed the number of rows or of columns of the block; the retained
    values [s[:l]] are exactly the values of [s] that are at least [tau];
    every cell of the block holds the rank-[l] product
    [sum_{k < l} U[i, k] s[k] Vh[k, j]]; and when [l = 0] every cell of the
    block is 0. *)
Theorem svd_truncation (svd : ndarray R -> ndarray R * list R * ndarray R)
    (n d : Z) (Y1 Y2 : ndarray R) (alpha cstar Cbar : R)
    (T t u : nat) (M U : ndarray R) (s : list R) (Vh : ndarray R) :
  (forall M0, svd_shapes M0 (svd M0)) ->
  same_shape Y2 Y1 ->
  IZR d * ln (IZR d) < IZR n ->
  0 < cstar ->
  level_count d = Ok T -> (t <= T)%nat -> (u <= T)%nat ->
  extract_block Y2 (bucket (np_sum_axis1 Y1) T t) (bucket (np_sum_axis0 Y1) T u) = Ok M ->
  energy_cutoff n d alpha Cbar <= np_sum M ->
  svd M = (U, s, Vh) -> descending s ->
  our_algo svd module_globals n d Y1 Y2 alpha cstar Cbar = Raise NameError /\
  nrows M = length (bucket (np_sum_axis1 Y1) T t) /\
  ncols M = length (bucket (np_sum_axis0 Y1) T u) /\
  exists l : nat,
    (l <= Nat.min (nrows M) (ncols M))%nat /\
    (forall k, (k < length s)%nat ->
       ((k < l)%nat <->
        ln (IZR d) * sqrt (cstar * powerRZ 2 (1 - Z.of_nat (Nat.min t u)) / IZR n)
          <= nth k s 0)) /\
    forall G, g_d1 G = Some (nrows Y1) -> g_d2 G = Some (ncols Y1) ->
      exists res,
        assemble svd G n d Y1 Y2 alpha cstar Cbar = Ok res /\
        (forall i j, (i < nrows M)%nat -> (j < ncols M)%nat ->
           elt res (nth i (bucket (np_sum_axis1 Y1) T t) O)
                   (nth j (bucket (np_sum_axis0 Y1) T u) O)
           = Rsum l (fun k => elt U i k * nth k s 0 * elt Vh k j)) /\
        (l = O ->
           forall a b, In a (bucket (np_sum_axis1 Y1) T t) ->
                       In b (bucket (np_sum_axis0 Y1) T u) -> elt res a b = 0).
Proof.
  intros svd_ok HS Hn Hc HT Ht Hu EM Hhigh Esvd Hsorted.
  set (I := bucket (np_sum_axis1 Y1) T t) in *.
  set (J := bucket (np_sum_axis0 Y1) T u) in *.
  split.
  { unfold our_algo. rewrite (degenerate_regime_false n d Hn). reflexivity. }
  destruct (extract_block_Ok Y2 I J) as [M' (EM' & Mr & Mc & _)].
  { intros a Ha. apply bucket_bound in Ha. unfold np_sum_axis1 in Ha.
    rewrite length_map, length_seq in Ha. destruct HS as [HS1 _]. lia. }
  { intros b Hb. apply bucket_bound in Hb. unfold np_sum_axis0 in Hb.
    rewrite length_map, length_seq in Hb. destruct HS as [_ HS2]. lia. }
  rewrite EM in EM'. injection EM' as <-.
  split; [exact Mr|]. split; [exact Mc|].
  pose proof (svd_ok M) as Hshape. rewrite Esvd in Hshape. simpl in Hshape.
  destruct Hshape as (Ur & Uc & Hs & Vr & Vc).
  set (l := rank_l (tau n d cstar t u) s).
  assert (Hl : (l <= length s)%nat) by apply rank_l_le.
  exists l. split; [rewrite <- Hs; exact Hl|]. split.
  { intros k Hk. apply (rank_l_positions (tau n d cstar t u) s Hsorted k Hk). }
  intros G G1 G2.
  destruct (assemble_Ok svd svd_ok G n d Y1 Y2 alpha cstar Cbar T G1 G2 HS HT)
    as [res (E & _ & Hw)].
  destruct (Hw t u Ht Hu) as [M' [EM' W]]. fold I in EM', W. fold J in EM', W.
  rewrite EM in EM'. injection EM' as <-.
  replace (Rltb (np_sum M) (energy_cutoff n d alpha Cbar)) with false in W
    by (symmetry; apply Rltb_false; exact Hhigh).
  destruct W as [H [EH WH]]. rewrite Esvd in EH. fold l in EH.
  destruct (reconstruct_Ok U s Vh l (nrows M) (ncols M) Ur Uc Vr Vc Hs Hl)
    as [H' (EH' & _ & _ & F)].
  rewrite EH in EH'. injection EH' as <-.
  assert (V : forall i j, (i < nrows M)%nat -> (j < ncols M)%nat ->
            elt res (nth i I O) (nth j J O)
            = Rsum l (fun k => elt U i k * nth k s 0 * elt Vh k j)).
  { intros i j Hi Hj. rewrite WH by lia. apply F. }
  exists res. split; [exact E|]. split; [exact V|].
  intros Hl0 a b Ha Hb.
  destruct (In_nth_pos I a Ha) as [i [Hi <-]].
  destruct (In_nth_pos J b Hb) as [j [Hj <-]].
  rewrite V by lia. rewrite Hl0. reflexivity.
Qed.

Lemma ln_2_gt_half : 1 / 2 < ln 2.
Proof.
  rewrite <- (ln_exp (1 / 2)). apply ln_increasing; [apply exp_pos|].
  pose proof (exp_pos (1 / 2)) as P. pose proof exp_le_3 as E3.
  replace 1 with (1 / 2 + 1 / 2) in E3 by lra. rewrite exp_plus in E3.
  destruct (Rlt_dec (exp (1 / 2)) 2) as [L|N]; [exact L|exfalso].
  assert (2 * 2 <= exp (1 / 2) * exp (1 / 2)) by (apply Rmult_le_compat; lra).
  lra.
Qed.

Lemma bucket_diag2 (a b : R) (f : ndarray R -> list R) :
  f (np_diag2 a b) = [0 + a + 0; 0 + 0 + b] ->
  0 <= a <= 1 / 2 -> 0 <= b <= 1 / 2 ->
  bucket (f (np_diag2 a b)) 1 1 = [0%nat; 1%nat].
Proof.
  intros -> Ha Hb. unfold bucket, np_argwhere. simpl.
  replace (Rleb (0 + a + 0) (pow2neg 1)) with true
    by (symmetry; apply Rleb_true; unfold pow2neg; simpl; lra).
  replace (Rleb (0 + 0 + b) (pow2neg 1)) with true
    by (symmetry; apply Rleb_true; unfold pow2neg; simpl; lra).
  reflexivity.
Qed.

Lemma tau_100_2 : tau 100 2 1 1 1 = ln 2 / 10.
Proof.
  unfold tau, pow2Z. simpl.
  replace (1 * 1 / 100) with (/ 10 * / 10) by lra.
  rewrite sqrt_square by lra. lra.
Qed.

(** Two 2x2 diagonal blocks for [n = 100], [d = 2] and unit constants,
    where the whole matrix is the block of level (1, 1) and the threshold
    is [ln 2 / 10]: on the diagonal (3/10, 1/20) the second singular value
    is cut ([l = 1]) and its cell becomes 0; on the diagonal (1/20, 1/20)
    nothing is retained ([l = 0]) and the block is zero. *)
Lemma svd_truncation_witness :
  our_algo svd_diag module_globals 100 2 (np_diag2 (3 / 10) (1 / 20))
    (np_diag2 (3 / 10) (1 / 20)) 1 1 1 = Raise NameError /\
  (exists res,
     assemble svd_diag (bound_globals 2 2) 100 2 (np_diag2 (3 / 10) (1 / 20))
       (np_diag2 (3 / 10) (1 / 20)) 1 1 1 = Ok res /\
     elt res 0 0 = 3 / 10 /\ elt res 1 1 = 0) /\
  (exists res,
     assemble svd_diag (bound_globals 2 2) 100 2 (np_diag2 (1 / 20) (1 / 20))
       (np_diag2 (1 / 20) (1 / 20)) 1 1 1 = Ok res /\
     elt res 0 0 = 0 /\ elt res 1 1 = 0).
Proof.
  assert (Inst : forall a b, 0 <= b <= a -> a <= 1 / 2 -> 1 / 50 <= a + b ->
    our_algo svd_diag module_globals 100 2 (np_diag2 a b) (np_diag2 a b) 1 1 1
      = Raise NameError /\
    exists l : nat,
      ((0 < l)%nat <-> ln 2 / 10 <= a) /\ ((1 < l)%nat <-> ln 2 / 10 <= b) /\
      (l <= 2)%nat /\
      exists res,
        assemble svd_diag (bound_globals 2 2) 100 2 (np_diag2 a b) (np_diag2 a b) 1 1 1
          = Ok res /\
        elt res 0 0
        = Rsum l (fun k => elt (np_eye 2) 0 k * nth k [a; b] 0 * elt (np_eye 2) k 0) /\
        elt res 1 1
        = Rsum l (fun k => elt (np_eye 2) 1 k * nth k [a; b] 0 * elt (np_eye 2) k 1)).
  { intros a b Hab Ha Hsum.
    pose proof (bucket_diag2 a b np_sum_axis1 eq_refl ltac:(lra) ltac:(lra)) as EI.
    pose proof (bucket_diag2 a b np_sum_axis0 eq_refl ltac:(lra) ltac:(lra)) as EJ.
    destruct (extract_block_Ok (np_diag2 a b) [0%nat; 1%nat] [0%nat; 1%nat])
      as [M (EM & Mr & Mc & Mv)].
    { intros x [<-|[<-|[]]]; simpl; lia. }
    { intros x [<-|[<-|[]]]; simpl; lia. }
    cbn [length] in Mr, Mc, Mv.
    assert (Es : svd_diag M = (np_eye 2, [a; b], np_eye 2)).
    { unfold svd_diag. rewrite Mr, Mc. cbn [Nat.min seq map].
      rewrite (Mv 0%nat 0%nat), (Mv 1%nat 1%nat) by lia. reflexivity. }
    destruct (svd_truncation svd_diag 100 2 (np_diag2 a b) (np_diag2 a b) 1 1 1
                1 1 1 M (np_eye 2) [a; b] (np_eye 2))
      as (Eshipped & _ & _ & l & Hl & Hpos & Hbound).
    - exact svd_diag_shapes.
    - split; reflexivity.
    - pose proof ln_2_lt_1. lra.
    - lra.
    - exact level_count_2.
    - lia.
    - lia.
    - rewrite EI, EJ. exact EM.
    - unfold np_sum. rewrite Mr, Mc. cbn [Rsum].
      rewrite (Mv 0%nat 0%nat), (Mv 0%nat 1%nat), (Mv 1%nat 0%nat), (Mv 1%nat 1%nat) by lia.
      cbn [nth np_diag2 elt].
      unfold energy_cutoff. pose proof ln_2_pos as L.
      replace (2 * 1 * 1 * ln 2 / (100 * ln 2)) with (1 / 50) by (field; lra). lra.
    - exact Es.
    - unfold descending. constructor; [repeat constructor|]. constructor. lra.
    - split; [exact Eshipped|].
      fold (pow2Z (1 - Z.of_nat (Nat.min 1 1))) in Hpos.
      fold (tau 100 2 1 1 1) in Hpos. rewrite tau_100_2 in Hpos.
      exists l. split; [apply (Hpos 0%nat); simpl; lia|].
      split; [apply (Hpos 1%nat); simpl; lia|].
      split; [rewrite Mr, Mc in Hl; simpl in Hl; lia|].
      destruct (Hbound (bound_globals 2 2) eq_refl eq_refl) as [res (E & V & _)].
      exists res. split; [exact E|].
      rewrite EI, EJ in V. rewrite Mr, Mc in V.
      split; [apply (V 0%nat 0%nat); lia|apply (V 1%nat 1%nat); lia]. }
  pose proof ln_2_lt_1 as Lhi. pose proof ln_2_gt_half as Llo.
  destruct (Inst (3 / 10) (1 / 20)) as (Eshipped & l & H0 & H1 & Hl & res & E & V0 & V1);
    [lra|lra|lra|].
  split; [exact Eshipped|]. split.
  - assert (El : l = 1%nat).
    { assert ((0 < l)%nat) by (apply H0; lra).
      assert (~ (1 < l)%nat) by (intros C; apply H1 in C; lra). lia. }
    subst l. exists res. split; [exact E|]. rewrite V0, V1. simpl. split; lra.
  - destruct (Inst (1 / 20) (1 / 20)) as (_ & l' & H0' & _ & _ & res' & E' & V0' & V1');
      [lra|lra|lra|].
    assert (El : l' = 0%nat).
    { assert (~ (0 < l')%nat) by (intros C; apply H0' in C; lra). lia. }
    subst l'. exists res'. split; [exact E'|]. rewrite V0', V1'. simpl. split; lra.
Defined.

(** ** Algorithm 3 *)

Lemma fold_Rmin_le (l : list R) (x : R) : fold_left Rmin l x <= x.
Proof.
  revert x. induction l as [|y l IH]; intros x; simpl; [lra|].
  pose proof (IH (Rmin x y)). pose proof (Rmin_l x y). lra.
Qed.

Lemma fold_Rmax_ge (l : list R) (x : R) : x <= fold_left Rmax l x.
Proof.
  revert x. induction l as [|y l IH]; intros x; simpl; [lra|].
  pose proof (IH (Rmax x y)). pose proof (Rmax_l x y). lra.
Qed.

(** The calibration range is well formed: [r <= R]. *)
Lemma np_min_le_max (l : list R) (r R0 : R) :
  np_min l = Ok r -> np_max l = Ok R0 -> r <= R0.
Proof.
  destruct l as [|x l]; simpl; [discriminate|].
  intros E1 E2. injection E1 as <-. injection E2 as <-.
  pose proof (fold_Rmin_le l x). pose proof (fold_Rmax_ge l x). lra.
Qed.

(** C7.  When the calibration half has range [R - r] below
    [n^(-1/3) L^(-1/2)], the call returns a function that evaluates to
    [1/(R - r)] on the inputs with [x <= r] and [x >= R], and to 0 on every
    other input.  (Since [r <= R], the test holds only at [x = r = R],
    where numpy's [1/(R - r)] is [inf].) *)
Theorem narrow_range_density (n_arg : nat) (Zs : list R) (L r R0 : R) :
  np_min (firstn (length Zs / 2) Zs) = Ok r ->
  np_max (firstn (length Zs / 2) Zs) = Ok R0 ->
  R0 - r < py_pow (INR (length Zs)) (- 1 / 3) * py_pow L (- 1 / 2) ->
  exists f, our_algo_3 n_arg Zs L = Ok f /\
    forall x,
      (x <= r /\ x >= R0 -> f x = Ok (np_true_divide 1 (R0 - r))) /\
      (~ (x <= r /\ x >= R0) -> f x = Ok (Fin 0)) /\
      (x <= r /\ x >= R0 -> r = R0 /\ f x = Ok PInf).
Proof.
  intros Er ER Hnarrow. exists (narrow_density r R0). split.
  - unfold our_algo_3. rewrite Er, ER. simpl.
    replace (Rltb _ _) with true by (symmetry; apply Rltb_true; exact Hnarrow).
    reflexivity.
  - intros x.
    assert (T : x <= r /\ x >= R0 -> narrow_density r R0 x = Ok (np_true_divide 1 (R0 - r))).
    { intros [H1 H2]. unfold narrow_density.
      replace (Rleb x r) with true by (symmetry; apply Rleb_true; exact H1).
      replace (Rleb R0 x) with true by (symmetry; apply Rleb_true; lra).
      reflexivity. }
    split; [exact T|]. split.
    + intros N. unfold narrow_density.
      destruct (Rleb x r) eqn:E1; [|reflexivity].
      destruct (Rleb R0 x) eqn:E2; [|reflexivity].
      exfalso. apply N. apply Rleb_true in E1, E2. lra.
    + intros H. pose proof (np_min_le_max _ _ _ Er ER) as Hle.
      assert (E : r = R0) by lra. split; [exact E|].
      rewrite (T H). subst R0. replace (r - r) with 0 by ring.
      rewrite np_true_divide_pos_0 by lra. reflexivity.
Qed.

Lemma Rpower_pos (x y : R) : 0 < Rpower x y.
Proof. unfold Rpower. apply exp_pos. Qed.

Lemma narrow_range_density_witness :
  exists f, our_algo_3 2 [1 / 2; 3] 1 = Ok f /\
    f (1 / 2) = Ok PInf /\ f 1 = Ok (Fin 0).
Proof.
  destruct (narrow_range_density 2 [1 / 2; 3] 1 (1 / 2) (1 / 2)) as [f [E V]].
  - reflexivity.
  - reflexivity.
  - pose proof (Rpower_pos (INR (length [1 / 2; 3])) (- 1 / 3)).
    pose proof (Rpower_pos 1 (- 1 / 2)).
    unfold py_pow. replace (1 / 2 - 1 / 2) with 0 by lra.
    apply Rmult_lt_0_compat; assumption.
  - exists f. split; [exact E|]. split.
    + apply (V (1 / 2)). lra.
    + apply (V 1). lra.
Defined.

(** ** Evaluation on eight samples *)

Lemma py_pow_1 (y : R) : py_pow 1 y = 1.
Proof. unfold py_pow, Rpower. rewrite ln_1, Rmult_0_r. apply exp_0. Qed.

Lemma py_pow_8_third : py_pow (INR 8) (1 / 3) = 2.
Proof.
  unfold py_pow.
  replace (INR 8) with (Rpower 2 (INR 3)).
  - rewrite Rpower_mult. replace (INR 3 * (1 / 3)) with 1 by (simpl; lra).
    apply Rpower_1. lra.
  - rewrite Rpower_pow by lra. simpl. lra.
Qed.

Lemma py_pow_8_minus_third : py_pow (INR 8) (- 1 / 3) = / 2.
Proof.
  unfold py_pow. replace (- 1 / 3) with (- (1 / 3)) by lra.
  rewrite Rpower_Ropp. f_equal. exact py_pow_8_third.
Qed.

Lemma calibration_Z8 :
  np_min (firstn (length Z8 / 2) Z8) = Ok (1 / 4) /\
  np_max (firstn (length Z8 / 2) Z8) = Ok (5 / 4).
Proof.
  simpl. split; f_equal.
  - rewrite (Rmin_left (1 / 4) (5 / 4)) by lra.
    rewrite (Rmin_left (1 / 4) (1 / 4)) by lra.
    apply Rmin_left. lra.
  - rewrite (Rmax_right (1 / 4) (5 / 4)) by lra.
    rewrite (Rmax_left (5 / 4) (1 / 4)) by lra.
    apply Rmax_left. lra.
Qed.

Lemma bandwidth_Z8 : bandwidth (5 / 4 - 1 / 4) 8 1 = Ok (1 / 2).
Proof.
  unfold bandwidth, bandwidth_floor. rewrite py_pow_8_third, py_pow_1.
  rewrite (math_floor_unique _ 2) by lra. simpl. f_equal. lra.
Qed.

Lemma offsets_quarter_half : offsets (1 / 4) (1 / 2) = [0%Z].
Proof.
  unfold offsets.
  rewrite (math_floor_unique _ 0) by lra.
  rewrite (math_ceil_unique _ 1) by lra. reflexivity.
Qed.

Lemma count_in_Z8 : count_in [3 / 5; 3 / 5; 3 / 5] (1 / 4) (1 / 4 + 1 / 2) = 3.
Proof. unfold count_in. simpl filter. eval_cmp. simpl. lra. Qed.

(** C8 (evaluation at the failing input).  On [Z8] with [L = 1] the general
    branch fits [r = 1/4], [H = 1/2] and the single offset 0, so the only
    bin is [1/4, 3/4) and it counts the three estimation samples 3/5.  The
    returned density is 0 at [x = 3/5], a point of that bin, and 6 at
    [x = 1/10], a point of no bin: the lookup on line 207 tests
    [i*H <= x <= (i+1)*H], without the origin [r]. *)
Theorem f_1_lookup_ignores_origin :
  our_algo_3 8 Z8 1 = Ok (f_1 (1 / 4) (1 / 2) [0%Z] [3 / 5; 3 / 5; 3 / 5]) /\
  count_in [3 / 5; 3 / 5; 3 / 5] (1 / 4) (1 / 4 + 1 / 2) / (1 / 2) = 6 /\
  f_1 (1 / 4) (1 / 2) [0%Z] [3 / 5; 3 / 5; 3 / 5] (3 / 5) = Ok (Fin 0) /\
  f_1 (1 / 4) (1 / 2) [0%Z] [3 / 5; 3 / 5; 3 / 5] (1 / 10) = Ok (Fin 6).
Proof.
  split; [|split; [|split]].
  - unfold our_algo_3. destruct calibration_Z8 as [-> ->]. cbn [bind].
    change (length Z8) with 8%nat.
    rewrite py_pow_8_minus_third, py_pow_1. eval_cmp.
    unfold general_branch_1d. change (length Z8) with 8%nat.
    rewrite bandwidth_Z8. cbn [bind]. rewrite offsets_quarter_half. reflexivity.
  - rewrite count_in_Z8. lra.
  - unfold f_1, enumerate. simpl for_each. unfold f_1_step. simpl setitem1. cbn [bind].
    simpl IZR. eval_cmp. simpl. rewrite np_true_divide_nonzero by lra.
    simpl. f_equal. f_equal. lra.
  - unfold f_1, enumerate. simpl for_each. unfold f_1_step. simpl setitem1. cbn [bind].
    simpl IZR. eval_cmp. simpl.
    replace (1 / 4 + 1 * (1 / 2)) with (1 / 4 + 1 / 2) by lra.
    replace (1 / 4 + 0 * (1 / 2)) with (1 / 4) by lra.
    rewrite count_in_Z8. rewrite np_true_divide_nonzero by lra.
    simpl. f_equal. f_equal. lra.
Qed.

(** ** Algorithm 2 and the bin width *)

Lemma bandwidth_zero (w : R) (n : nat) (L : R) :
  bandwidth_floor w n L = 0%Z -> bandwidth w n L = Raise ZeroDivisionError.
Proof. intros E. unfold bandwidth. rewrite E. reflexivity. Qed.

Lemma bandwidth_floor_0 (n : nat) (L : R) : bandwidth_floor 0 n L = 0%Z.
Proof.
  unfold bandwidth_floor. apply math_floor_unique.
  rewrite !Rmult_0_l. lra.
Qed.

(** Once the grids are fitted and the two count matrices are filled, a
    non-empty second grid makes line 309 raise: [np.max(len(E_1),
    len(E_2))] reads [len(E_2)] as an axis. *)
Lemma general_branch_axis (svd : ndarray R -> ndarray R * list R * ndarray R)
    (G : globals) (n : nat) (X : list (R * R)) (alpha L Cbar cstar : R)
    (r_1 R_1 r_2 R_2 h_1 h_2 : R) (N12 : ndarray R * ndarray R) :
  bandwidth (R_1 - r_1) n L = Ok h_1 ->
  bandwidth (R_2 - r_2) n L = Ok h_2 ->
  histograms n X r_1 h_1 r_2 h_2 (offsets r_1 h_1) (offsets r_2 h_2) = Ok N12 ->
  offsets r_2 h_2 <> [] ->
  general_branch svd G n X alpha L Cbar cstar r_1 R_1 r_2 R_2 = Raise AxisError.
Proof.
  intros E1 E2 EN Hne. unfold general_branch. rewrite E1, E2. cbn [bind].
  rewrite EN. cbn [bind]. unfold np_max_scalar.
  destruct (offsets r_2 h_2) as [|j E]; [congruence|]. reflexivity.
Qed.

Lemma calibration_X8 :
  np_min (map fst (firstn (8 / 2) X8)) = Ok 0 /\
  np_max (map fst (firstn (8 / 2) X8)) = Ok 2 /\
  np_min (map snd (firstn (8 / 2) X8)) = Ok 0 /\
  np_max (map snd (firstn (8 / 2) X8)) = Ok 2.
Proof.
  assert (Emin : Rmin (Rmin (Rmin 0 2) 0) 0 = 0).
  { rewrite (Rmin_left 0 2) by lra. rewrite (Rmin_left 0 0) by lra. apply Rmin_left. lra. }
  assert (Emax : Rmax (Rmax (Rmax 0 2) 0) 0 = 2).
  { rewrite (Rmax_right 0 2) by lra. rewrite (Rmax_left 2 0) by lra. apply Rmax_left. lra. }
  simpl. rewrite Emin, Emax. auto.
Qed.

Lemma bandwidth_X8 : bandwidth (2 - 0) 8 1 = Ok (1 / 2).
Proof.
  unfold bandwidth, bandwidth_floor. rewrite py_pow_8_third, py_pow_1.
  rewrite (math_floor_unique _ 4) by lra. simpl. f_equal. lra.
Qed.

Lemma offsets_0_half : offsets 0 (1 / 2) = [0%Z].
Proof.
  unfold offsets.
  rewrite (math_floor_unique _ 0) by lra.
  rewrite (math_ceil_unique _ 1) by lra. reflexivity.
Qed.

(** C9 (evaluation at the failing input).  On the eight points [X8] with
    [L = 1] both calibration ranges are [0, 2], neither axis is narrow, the
    bin widths are 1/2 and each grid has the single offset 0; the call
    then raises [AxisError] at [np.max(len(E_1), len(E_2))], before the
    block estimator is called and before any density is returned. *)
Theorem our_algo_2_axis_error
    (svd : ndarray R -> ndarray R * list R * ndarray R) (G : globals)
    (alpha C Cbar cstar : R) :
  our_algo_2 svd G 8 X8 alpha 1 C Cbar cstar = Raise AxisError.
Proof.
  unfold our_algo_2. cbn [Nat.eqb].
  destruct calibration_X8 as (-> & -> & -> & ->). cbn [bind].
  rewrite py_pow_8_third, py_pow_1. eval_cmp.
  eapply general_branch_axis.
  - exact bandwidth_X8.
  - exact bandwidth_X8.
  - rewrite offsets_0_half. unfold histograms, enumerate. simpl. reflexivity.
  - rewrite offsets_0_half. discriminate.
Qed.

(** ** Rounded arithmetic and the zero floor *)

Lemma ln_pow2Z (k : Z) : ln (pow2Z k) = IZR k * ln 2.
Proof.
  unfold pow2Z. rewrite powerRZ_Rpower by lra. unfold Rpower. apply ln_exp.
Qed.

Lemma pow2Z_pos (k : Z) : 0 < pow2Z k.
Proof. unfold pow2Z. apply powerRZ_lt. lra. Qed.

Lemma pow2Z_add (a b : Z) : pow2Z (a + b) = pow2Z a * pow2Z b.
Proof. unfold pow2Z. apply powerRZ_add. lra. Qed.

Lemma binade_eval (x : R) (k : Z) :
  pow2Z k <= Rabs x < pow2Z (k + 1) -> binade x = k.
Proof.
  intros [Hlo Hhi]. unfold binade. apply math_floor_unique.
  pose proof (pow2Z_pos k) as Pk. pose proof ln_2_pos as L2.
  assert (A : IZR k * ln 2 <= ln (Rabs x)).
  { rewrite <- ln_pow2Z. destruct Hlo as [Hlo|<-]; [|lra].
    left. apply ln_increasing; assumption. }
  assert (B : ln (Rabs x) < (IZR k + 1) * ln 2).
  { rewrite <- plus_IZR, <- ln_pow2Z. apply ln_increasing; lra. }
  split.
  - apply Rmult_le_reg_r with (ln 2); [exact L2|].
    unfold Rdiv. rewrite Rmult_assoc, Rinv_l by lra. lra.
  - apply Rmult_lt_reg_r with (ln 2); [exact L2|].
    unfold Rdiv. rewrite Rmult_assoc, Rinv_l by lra. lra.
Qed.

Lemma round_half_even_eval (y : R) (m : Z) :
  IZR m - 1 / 2 < y < IZR m + 1 / 2 -> round_half_even y = m.
Proof.
  intros [Hlo Hhi]. unfold round_half_even.
  destruct (Rlt_dec y (IZR m)) as [Hlt|Hge].
  - rewrite (math_floor_unique y (m - 1)) by (rewrite minus_IZR; lra).
    rewrite minus_IZR.
    replace (Rltb (y - (IZR m - 1)) (1 / 2)) with false
      by (symmetry; apply Rltb_false; lra).
    replace (Rltb (1 / 2) (y - (IZR m - 1))) with true
      by (symmetry; apply Rltb_true; lra).
    lia.
  - rewrite (math_floor_unique y m) by lra.
    replace (Rltb (y - IZR m) (1 / 2)) with true
      by (symmetry; apply Rltb_true; lra).
    reflexivity.
Qed.

(** A real in the binade of [m * 2^e] and within half a unit in the last
    place of it rounds to it. *)
Lemma RN64_eval (x : R) (m e : Z) :
  pow2Z (e + 52) <= Rabs x < pow2Z (e + 52 + 1) ->
  IZR m - 1 / 2 < x * pow2Z (- e) < IZR m + 1 / 2 ->
  RN64 x = f64 m e.
Proof.
  intros Hb Hn. unfold RN64, f64.
  pose proof (pow2Z_pos (e + 52)) as P.
  destruct (Req_dec_T x 0) as [E0|_].
  { exfalso. rewrite E0, Rabs_R0 in Hb. lra. }
  rewrite (binade_eval x (e + 52) Hb).
  replace (52 - (e + 52))%Z with (- e)%Z by lia.
  replace (e + 52 - 52)%Z with e by lia.
  rewrite (round_half_even_eval _ m Hn). reflexivity.
Qed.

Lemma RN64_eval_pos (x : R) (m e : Z) :
  0 < x ->
  pow2Z (e + 52) <= x < pow2Z (e + 52 + 1) ->
  IZR m - 1 / 2 < x * pow2Z (- e) < IZR m + 1 / 2 ->
  RN64 x = f64 m e.
Proof.
  intros Hx Hb Hn. apply RN64_eval; [|exact Hn].
  rewrite Rabs_right by lra. exact Hb.
Qed.

(** A binary64 number rounds to itself. *)
Lemma RN64_representable (m e : Z) :
  (4503599627370496 <= m < 9007199254740992)%Z -> RN64 (f64 m e) = f64 m e.
Proof.
  intros [Hlo Hhi]. apply IZR_le in Hlo. apply IZR_lt in Hhi.
  pose proof (pow2Z_pos e) as P.
  assert (E52 : pow2Z (e + 52) = pow2Z e * 4503599627370496).
  { rewrite pow2Z_add. f_equal. unfold pow2Z. simpl. lra. }
  assert (E53 : pow2Z (e + 52 + 1) = pow2Z e * 9007199254740992).
  { rewrite !pow2Z_add. unfold pow2Z at 2 3. simpl. lra. }
  assert (Einv : pow2Z e * pow2Z (- e) = 1).
  { rewrite <- pow2Z_add. replace (e + - e)%Z with 0%Z by lia. reflexivity. }
  apply RN64_eval.
  - unfold f64. rewrite Rabs_right by (apply Rle_ge, Rmult_le_pos; lra).
    rewrite E52, E53. split.
    + rewrite (Rmult_comm (pow2Z e)). apply Rmult_le_compat_r; lra.
    + rewrite (Rmult_comm (pow2Z e)). apply Rmult_lt_compat_r; lra.
  - unfold f64. rewrite Rmult_assoc, Einv. lra.
Qed.

Lemma RN64_third : RN64 (1 / 3) = third64.
Proof.
  unfold third64. apply RN64_eval_pos; [lra| |].
  - unfold pow2Z. simpl. lra.
  - unfold pow2Z. simpl. lra.
Qed.

Lemma RN64_minus_third : RN64 (- 1 / 3) = - third64.
Proof.
  replace (- third64) with (f64 (-6004799503160661) (-54))
    by (unfold third64, f64; lra).
  apply RN64_eval.
  - rewrite Rabs_left by lra. unfold pow2Z. simpl. lra.
  - unfold pow2Z. simpl. lra.
Qed.

Lemma RN64_half : RN64 (1 / 2) = 1 / 2 /\ RN64 (- 1 / 2) = - 1 / 2.
Proof.
  split.
  - replace (1 / 2) with (f64 4503599627370496 (-53)) at 2 by (unfold f64, pow2Z; simpl; lra).
    apply RN64_eval_pos; [lra| |]; unfold pow2Z; simpl; lra.
  - replace (- 1 / 2) with (f64 (-4503599627370496) (-53)) at 2
      by (unfold f64, pow2Z; simpl; lra).
    apply RN64_eval.
    + rewrite Rabs_left by lra. unfold pow2Z. simpl. lra.
    + unfold pow2Z. simpl. lra.
Qed.

Lemma RN64_one : RN64 1 = 1.
Proof.
  replace 1 with (f64 4503599627370496 (-52)) at 2 by (unfold f64, pow2Z; simpl; lra).
  apply RN64_eval_pos; [lra| |]; unfold pow2Z; simpl; lra.
Qed.

Lemma pow_rn_1 (y : R) : pow_rn 1 y = 1.
Proof.
  unfold pow_rn, Rpower. rewrite ln_1, Rmult_0_r, exp_0. exact RN64_one.
Qed.

(** *** Bounds on [ln 7] and on the cube root of 7 *)

Lemma exp_nat (n : nat) (x : R) : exp (INR n * x) = exp x ^ n.
Proof.
  induction n as [|n IH].
  - simpl. rewrite Rmult_0_l. apply exp_0.
  - rewrite S_INR, Rmult_plus_distr_r, exp_plus, IH, Rmult_1_l. simpl. ring.
Qed.

Lemma exp_below (x : R) : 0 < x < 1 -> exp x < / (1 - x).
Proof.
  intros Hx. pose proof (exp_ineq1 (- x) ltac:(lra)) as E.
  rewrite exp_Ropp in E. pose proof (exp_pos x) as P.
  apply Rmult_lt_reg_r with (1 - x); [lra|].
  rewrite Rinv_l by lra.
  apply Rmult_lt_reg_l with (/ exp x); [apply Rinv_0_lt_compat; exact P|].
  rewrite <- Rmult_assoc, Rinv_l by lra. lra.
Qed.

Lemma ln_7_bounds : 7 / 4 < ln 7 < 2.
Proof.
  split.
  - rewrite <- (ln_exp (7 / 4)). apply ln_increasing; [apply exp_pos|].
    replace (7 / 4) with (1 + INR 4 * (3 / 16)) by (simpl; lra).
    rewrite exp_plus, exp_nat.
    pose proof exp_le_3 as E3. pose proof (exp_pos 1) as P1.
    pose proof (exp_below (3 / 16) ltac:(lra)) as B. pose proof (exp_pos (3 / 16)) as P.
    assert (Q : exp (3 / 16) ^ 4 <= (16 / 13) ^ 4) by (apply pow_incr; lra).
    assert (0 < exp (3 / 16) ^ 4) by (apply pow_lt; exact P).
    assert (exp 1 * exp (3 / 16) ^ 4 <= 3 * (16 / 13) ^ 4)
      by (apply Rmult_le_compat; lra).
    lra.
  - rewrite <- (ln_exp 2). apply ln_increasing; [lra|].
    replace 2 with (INR 64 * (1 / 32)) by (simpl; lra).
    rewrite exp_nat.
    pose proof (exp_ineq1 (1 / 32) ltac:(lra)) as E.
    assert (Q : (33 / 32) ^ 64 <= exp (1 / 32) ^ 64) by (apply pow_incr; lra).
    lra.
Qed.

Lemma cube_of_cbrt7 : Rpower 7 (1 / 3) ^ 3 = 7.
Proof.
  rewrite <- Rpower_pow by apply Rpower_pos.
  rewrite Rpower_mult. replace (1 / 3 * INR 3) with 1 by (simpl; lra).
  apply Rpower_1. lra.
Qed.

Lemma cbrt7_bounds :
  1912931182772389101199 / 1000000000000000000000 < Rpower 7 (1 / 3)
    < 1912931182772389101200 / 1000000000000000000000.
Proof.
  pose proof cube_of_cbrt7 as C. pose proof (Rpower_pos 7 (1 / 3)) as P.
  set (a := Rpower 7 (1 / 3)) in *.
  split.
  - destruct (Rlt_dec (1912931182772389101199 / 1000000000000000000000) a) as [L|N];
      [exact L|exfalso].
    assert (a ^ 3 <= (1912931182772389101199 / 1000000000000000000000) ^ 3)
      by (apply pow_incr; lra).
    lra.
  - destruct (Rlt_dec a (1912931182772389101200 / 1000000000000000000000)) as [L|N];
      [exact L|exfalso].
    assert ((1912931182772389101200 / 1000000000000000000000) ^ 3 <= a ^ 3)
      by (apply pow_incr; lra).
    lra.
Qed.

(** [7 ** 0.3333333333333333] lies strictly between the midpoints around
    the float 1.912931182772389. *)
Lemma pow7_third_bounds :
  1912931182772389101199 / 1000000000000000000000 * (1 - 2 / 54043195528445952)
    < Rpower 7 third64
    < 1912931182772389101200 / 1000000000000000000000
      * / (1 + 7 / 4 / 54043195528445952).
Proof.
  destruct cbrt7_bounds as [Alo Ahi]. destruct ln_7_bounds as [Llo Lhi].
  pose proof (Rpower_pos 7 (1 / 3)) as Pa.
  replace third64 with (1 / 3 + - (1 / 54043195528445952))
    by (unfold third64, f64, pow2Z; simpl; lra).
  rewrite Rpower_plus. unfold Rpower at 2 4.
  set (a := Rpower 7 (1 / 3)) in *.
  set (x := 1 / 54043195528445952 * ln 7).
  replace (- (1 / 54043195528445952) * ln 7) with (- x) by (unfold x; ring).
  assert (Hx : 7 / 4 / 54043195528445952 < x < 2 / 54043195528445952)
    by (unfold x; lra).
  pose proof (exp_ineq1 (- x) ltac:(lra)) as E1.
  pose proof (exp_ineq1 x ltac:(lra)) as E2.
  pose proof (exp_pos (- x)) as Pm.
  assert (E3 : exp (- x) < / (1 + 7 / 4 / 54043195528445952)).
  { rewrite exp_Ropp. apply Rinv_lt_contravar; [|lra].
    apply Rmult_lt_0_compat; [lra|apply exp_pos]. }
  assert (Q : 0 < / (1 + 7 / 4 / 54043195528445952))
    by (apply Rinv_0_lt_compat; lra).
  split.
  - apply Rlt_trans with (a * (1 - 2 / 54043195528445952)).
    + apply Rmult_lt_compat_r; lra.
    + apply Rmult_lt_compat_l; lra.
  - apply Rlt_trans with (a * / (1 + 7 / 4 / 54043195528445952)).
    + apply Rmult_lt_compat_l; lra.
    + apply Rmult_lt_compat_r; lra.
Qed.

Lemma pow_rn_7_third : pow_rn 7 third64 = cbrt7_64.
Proof.
  destruct pow7_third_bounds as [Lo Hi]. unfold pow_rn, cbrt7_64.
  apply RN64_eval_pos; [apply Rpower_pos| |]; unfold pow2Z; simpl; lra.
Qed.

Lemma pow_rn_7_minus_third : pow_rn 7 (- third64) = inv_cbrt7_64.
Proof.
  destruct pow7_third_bounds as [Lo Hi]. unfold pow_rn, inv_cbrt7_64.
  rewrite Rpower_Ropp. pose proof (Rpower_pos 7 third64) as P.
  set (x := Rpower 7 third64) in *.
  assert (Lo' : / (1912931182772389101200 / 1000000000000000000000
                   * / (1 + 7 / 4 / 54043195528445952)) < / x).
  { apply Rinv_lt_contravar; [|exact Hi]. apply Rmult_lt_0_compat; lra. }
  assert (Hi' : / x < / (1912931182772389101199 / 1000000000000000000000
                         * (1 - 2 / 54043195528445952))).
  { apply Rinv_lt_contravar; [|exact Lo]. apply Rmult_lt_0_compat; lra. }
  apply RN64_eval_pos; [apply Rinv_0_lt_compat; exact P| |]; unfold pow2Z; simpl; lra.
Qed.

Lemma inv_cbrt7_64_pos : 1 / 2 < inv_cbrt7_64 < 1.
Proof. unfold inv_cbrt7_64, f64, pow2Z. simpl. lra. Qed.

Lemma RN64_inv_cbrt7 : RN64 (inv_cbrt7_64 - 0) = inv_cbrt7_64 /\
                       RN64 (inv_cbrt7_64 * 1) = inv_cbrt7_64.
Proof.
  split; unfold inv_cbrt7_64 at 2; (apply RN64_eval_pos;
    [pose proof inv_cbrt7_64_pos; lra
    |unfold inv_cbrt7_64, f64, pow2Z; simpl; lra
    |unfold inv_cbrt7_64, f64, pow2Z; simpl; lra]).
Qed.

(** The float product [0.5227579585747102 * 1.912931182772389] is the
    float below 1. *)
Lemma RN64_product_below_one :
  RN64 (inv_cbrt7_64 * cbrt7_64) = f64 9007199254740991 (-53) /\
  RN64 (f64 9007199254740991 (-53) * 1) = f64 9007199254740991 (-53).
Proof.
  split; (apply RN64_eval_pos;
    [unfold inv_cbrt7_64, cbrt7_64, f64, pow2Z; simpl; lra
    |unfold inv_cbrt7_64, cbrt7_64, f64, pow2Z; simpl; lra
    |unfold inv_cbrt7_64, cbrt7_64, f64, pow2Z; simpl; lra]).
Qed.

Lemma calibration_Z7 :
  np_min (firstn (length Z7 / 2) Z7) = Ok 0 /\
  np_max (firstn (length Z7 / 2) Z7) = Ok inv_cbrt7_64.
Proof.
  pose proof inv_cbrt7_64_pos as P. simpl. split; f_equal.
  - rewrite (Rmin_left 0 inv_cbrt7_64) by lra. apply Rmin_left. lra.
  - rewrite (Rmax_right 0 inv_cbrt7_64) by lra. apply Rmax_left. lra.
Qed.

Lemma guard_Z7 : guard_threshold_r RN64 pow_rn 7 1 = inv_cbrt7_64.
Proof.
  unfold guard_threshold_r.
  rewrite RN64_minus_third, pow_rn_1.
  replace (INR 7) with 7 by (simpl; lra).
  rewrite pow_rn_7_minus_third. apply RN64_inv_cbrt7.
Qed.

Lemma floor_Z7 : bandwidth_floor_r RN64 pow_rn inv_cbrt7_64 7 1 = 0%Z.
Proof.
  unfold bandwidth_floor_r.
  rewrite RN64_third, pow_rn_1.
  replace (INR 7) with 7 by (simpl; lra).
  rewrite pow_rn_7_third.
  destruct RN64_product_below_one as [-> ->].
  apply math_floor_unique. unfold f64, pow2Z. simpl. lra.
Qed.

(** C10 (amended).  Whenever the guard of line 188 is false and the floor
    of line 194 evaluates to 0, whatever the rounding of the float
    operations is, the call of [our_algo_3] ends in the [ZeroDivisionError]
    of [0 ** -1]: no bin width, no grid and no density are produced.  The
    general branch of [our_algo_2] ends the same way when the floor of
    line 289 or of line 290 is 0. *)
Theorem zero_floor_raises :
  (forall (rnd : R -> R) (fpow : R -> R -> R) (n_arg : nat) (Zs : list R) (L r R0 : R),
     np_min (firstn (length Zs / 2) Zs) = Ok r ->
     np_max (firstn (length Zs / 2) Zs) = Ok R0 ->
     Rltb (rnd (R0 - r)) (guard_threshold_r rnd fpow (length Zs) L) = false ->
     bandwidth_floor_r rnd fpow (rnd (R0 - r)) (length Zs) L = 0%Z ->
     our_algo_3_r rnd fpow n_arg Zs L = Raise ZeroDivisionError) /\
  (forall svd G n X alpha L Cbar cstar r_1 R_1 r_2 R_2,
     bandwidth_floor (R_1 - r_1) n L = 0%Z \/
     (bandwidth_floor (R_1 - r_1) n L <> 0%Z /\ bandwidth_floor (R_2 - r_2) n L = 0%Z) ->
     general_branch svd G n X alpha L Cbar cstar r_1 R_1 r_2 R_2
       = Raise ZeroDivisionError).
Proof.
  split.
  - intros rnd fpow n_arg Zs L r R0 Er ER Hg Hf.
    unfold our_algo_3_r. rewrite Er, ER. cbn [bind]. rewrite Hg.
    unfold general_branch_1d_r, bandwidth_r, py_inv_r. rewrite Hf. reflexivity.
  - intros svd G n X alpha L Cbar cstar r_1 R_1 r_2 R_2 [E1|[N1 E2]];
      unfold general_branch, bandwidth, py_inv.
    + rewrite E1. reflexivity.
    + destruct (Z.eqb_spec (bandwidth_floor (R_1 - r_1) n L) 0) as [E|_]; [contradiction|].
      cbn [bind]. rewrite E2. reflexivity.
Qed.

(** On the seven float samples [Z7] with [L = 1]: the range of the
    calibration half is the float [7**(-1/3)], the guard compares it with
    itself and is false; the product [0.5227579585747102 *
    1.912931182772389] rounds to 0.9999999999999999 and its floor is 0. *)
Lemma zero_floor_raises_witness :
  Rltb (RN64 (inv_cbrt7_64 - 0)) (guard_threshold_r RN64 pow_rn (length Z7) 1) = false /\
  bandwidth_floor_r RN64 pow_rn (RN64 (inv_cbrt7_64 - 0)) (length Z7) 1 = 0%Z /\
  our_algo_3_r RN64 pow_rn 7 Z7 1 = Raise ZeroDivisionError.
Proof.
  destruct calibration_Z7 as [Er ER]. destruct RN64_inv_cbrt7 as [Ew _].
  assert (Hg : Rltb (RN64 (inv_cbrt7_64 - 0))
                 (guard_threshold_r RN64 pow_rn (length Z7) 1) = false).
  { change (length Z7) with 7%nat. rewrite Ew, guard_Z7. apply Rltb_false. lra. }
  assert (Hf : bandwidth_floor_r RN64 pow_rn (RN64 (inv_cbrt7_64 - 0)) (length Z7) 1
               = 0%Z).
  { change (length Z7) with 7%nat. rewrite Ew. exact floor_Z7. }
  split; [exact Hg|]. split; [exact Hf|].
  apply (proj1 zero_floor_raises RN64 pow_rn 7%nat Z7 1 0 inv_cbrt7_64 Er ER Hg Hf).
Defined.

(** C10 as stated fails: the call [our_algo_3(7, Z7, 1)] ends in the
    built-in [ZeroDivisionError], a raw division failure; the program
    defines no [InvalidBandwidth] error. *)
Lemma zero_floor_untyped :
  our_algo_3_r RN64 pow_rn 7 Z7 1 = Raise ZeroDivisionError.
Proof.
  unfold our_algo_3_r, general_branch_1d_r, bandwidth_r, py_inv_r.
  destruct calibration_Z7 as [-> ->]. cbn [bind].
  change (length Z7) with 7%nat.
  destruct RN64_inv_cbrt7 as [-> _]. rewrite guard_Z7, floor_Z7.
  replace (Rltb inv_cbrt7_64 inv_cbrt7_64) with false by (symmetry; apply Rltb_false; lra).
  reflexivity.
Qed.

(** With the identity for [rnd] and the real power for [fpow] the rounded
    guard and floor are the exact ones. *)
Lemma rounded_exact (w : R) (n : nat) (L : R) :
  guard_threshold_r (fun x => x) py_pow n L
  = py_pow (INR n) (- 1 / 3) * py_pow L (- 1 / 2) /\
  bandwidth_floor_r (fun x => x) py_pow w n L = bandwidth_floor w n L.
Proof. split; reflexivity. Qed.

(** *** The guards and the floor *)

Lemma py_pow_neg (x y : R) : py_pow x (- y) * py_pow x y = 1.
Proof.
  unfold py_pow. rewrite Rpower_Ropp. apply Rinv_l.
  pose proof (Rpower_pos x y). lra.
Qed.

Lemma math_floor_ge_1 (x : R) : 1 <= x -> (1 <= math_floor x)%Z.
Proof.
  intros H. destruct (math_floor_bounds x) as [_ Hu].
  assert (0 < IZR (math_floor x)) by lra.
  apply lt_IZR in H0. lia.
Qed.

Lemma py_pow_ge_1 (x y : R) : 1 <= x -> 0 <= y -> 1 <= py_pow x y.
Proof.
  intros Hx Hy. unfold py_pow, Rpower.
  assert (0 <= ln x).
  { destruct Hx as [Hx|<-]; [|rewrite ln_1; lra].
    left. rewrite <- ln_1. apply ln_increasing; lra. }
  assert (0 <= y * ln x) by (apply Rmult_le_pos; assumption).
  destruct H0 as [H0|<-]; [|rewrite exp_0; lra].
  left. rewrite <- exp_0. apply exp_increasing. exact H0.
Qed.

(** X2.  In exact arithmetic the guards of lines 270 and 280, which
    compare the range with [n^(1/3) L^(-1/2)], keep the floor of lines
    289-290 away from 0: for [n >= 1] a range that is not narrow gives a
    floor of at least 1, and the bin width is defined and positive. *)
Theorem general_branch_floor (n : nat) (L w : R) :
  (1 <= n)%nat ->
  Rltb w (py_pow (INR n) (1 / 3) * py_pow L (- 1 / 2)) = false ->
  (1 <= bandwidth_floor w n L)%Z /\ exists h, bandwidth w n L = Ok h /\ 0 < h.
Proof.
  intros Hn Hg. apply Rltb_false in Hg.
  replace (- 1 / 2) with (- (1 / 2)) in Hg by lra.
  pose proof (py_pow_neg L (1 / 2)) as EL.
  pose proof (Rpower_pos L (1 / 2)) as PL.
  pose proof (Rpower_pos L (- (1 / 2))) as QL.
  assert (An : 1 <= py_pow (INR n) (1 / 3)).
  { apply py_pow_ge_1; [|lra]. replace 1 with (INR 1) by reflexivity.
    apply le_INR. exact Hn. }
  fold (py_pow L (1 / 2)) in PL. fold (py_pow L (- (1 / 2))) in QL.
  set (a := py_pow (INR n) (1 / 3)) in *. set (b := py_pow L (1 / 2)) in *.
  set (b' := py_pow L (- (1 / 2))) in *.
  assert (Wpos : 0 < w) by (assert (0 < a * b') by (apply Rmult_lt_0_compat; lra); lra).
  assert (Hprod : 1 <= w * a * b).
  { assert (0 < a * b) by (apply Rmult_lt_0_compat; lra).
    assert (a * b' * (a * b) <= w * (a * b)) by (apply Rmult_le_compat_r; lra).
    assert (E : a * b' * (a * b) = a * a).
    { replace (a * b' * (a * b)) with (a * a * (b' * b)) by ring. rewrite EL. ring. }
    assert (1 * 1 <= a * a) by (apply Rmult_le_compat; lra).
    lra. }
  pose proof (math_floor_ge_1 _ Hprod) as F. fold a b in F.
  split; [exact F|].
  unfold bandwidth, bandwidth_floor, py_inv. fold a b.
  destruct (Z.eqb_spec (math_floor (w * a * b)) 0) as [E0|_]; [lia|].
  cbn [bind]. eexists. split; [reflexivity|].
  apply Rmult_lt_0_compat; [|exact Wpos].
  apply Rinv_0_lt_compat. apply IZR_lt. lia.
Qed.

Lemma general_branch_floor_witness :
  (1 <= bandwidth_floor 2 8 1)%Z /\ exists h, bandwidth 2 8 1 = Ok h /\ 0 < h.
Proof.
  apply (general_branch_floor 8 1 2); [lia|].
  rewrite py_pow_8_third, py_pow_1. apply Rltb_false. lra.
Defined.

(* ================================================================== *)
(** * Further properties of the three estimators *)

(** ** The grid of offsets *)


Lemma length_np_arange (a b : Z) : length (np_arange a b) = Z.to_nat (b - a).
Proof. unfold np_arange. rewrite length_map, length_seq. reflexivity. Qed.

Lemma nth_np_arange (a b : Z) (c : nat) (dflt : Z) :
  (c < length (np_arange a b))%nat -> nth c (np_arange a b) dflt = (a + Z.of_nat c)%Z.
Proof.
  intros Hc. rewrite length_np_arange in Hc. unfold np_arange.
  rewrite (nth_indep _ dflt (a + Z.of_nat 0)%Z) by (rewrite length_map, length_seq; exact Hc).
  rewrite (map_nth (fun k => (a + Z.of_nat k)%Z)), seq_nth by exact Hc. reflexivity.
Qed.

Lemma math_ceil_bounds (x : R) : IZR (math_ceil x) - 1 < x <= IZR (math_ceil x).
Proof.
  unfold math_ceil. rewrite opp_IZR.
  destruct (math_floor_bounds (- x)) as [H1 H2]. unfold math_floor in *. lra.
Qed.





(** ** Algorithm 3: construction *)

(** A product of at least 1 under the floor gives a positive bin width,
    the range divided by the floor. *)
Lemma bandwidth_of_product (w : R) (n : nat) (L : R) :
  0 < w -> 1 <= w * py_pow (INR n) (1 / 3) * py_pow L (1 / 2) ->
  (1 <= bandwidth_floor w n L)%Z /\
  bandwidth w n L = Ok (/ IZR (bandwidth_floor w n L) * w) /\
  0 < / IZR (bandwidth_floor w n L) * w.
Proof.
  intros Hw Hp. pose proof (math_floor_ge_1 _ Hp) as F.
  fold (bandwidth_floor w n L) in F. split; [exact F|]. split.
  - unfold bandwidth, py_inv.
    destruct (Z.eqb_spec (bandwidth_floor w n L) 0) as [E0|_]; [lia|]. reflexivity.
  - apply Rmult_lt_0_compat; [|exact Hw].
    apply Rinv_0_lt_compat. apply IZR_lt. lia.
Qed.

Lemma our_algo_3_short (n_arg : nat) (Zs : list R) (L : R) :
  (length Zs < 2)%nat -> our_algo_3 n_arg Zs L = Raise ValueError.
Proof.
  intros Hlen. unfold our_algo_3.
  replace (length Zs / 2)%nat with O; [reflexivity|].
  symmetry. apply Nat.div_small. exact Hlen.
Qed.


(** Two samples: the calibration half is the first sample alone, its
    range is 0 and the narrow-range branch is taken. *)
Lemma our_algo_3_two_points (n_arg : nat) (a b L : R) :
  our_algo_3 n_arg [a; b] L = Ok (narrow_density a a).
Proof.
  unfold our_algo_3. cbn [length Nat.div Nat.divmod fst firstn np_min np_max fold_left bind].
  replace (Rltb _ _) with true; [reflexivity|].
  symmetry. apply Rltb_true. replace (a - a) with 0 by lra.
  apply Rmult_lt_0_compat; apply Rpower_pos.
Qed.



(** The list [l] with position [k] overwritten by [v]. *)
Lemma length_overwrite {A : Type} (l : list A) (k : nat) (v : A) :
  (k < length l)%nat -> length (firstn k l ++ v :: skipn (S k) l) = length l.
Proof.
  intros Hk. rewrite length_app, length_firstn. cbn [length]. rewrite length_skipn. lia.
Qed.

Lemma firstn_overwrite {A : Type} (l : list A) (k : nat) (v : A) :
  (k < length l)%nat -> firstn k (firstn k l ++ v :: skipn (S k) l) = firstn k l.
Proof.
  intros Hk.
  assert (E : length (firstn k l) = k) by (rewrite length_firstn; lia).
  rewrite firstn_app, E, Nat.sub_diag. simpl. rewrite app_nil_r.
  rewrite firstn_firstn. f_equal. lia.
Qed.

Lemma skipn_overwrite {A : Type} (l : list A) (k : nat) (v : A) :
  (k < length l)%nat -> skipn (S k) (firstn k l ++ v :: skipn (S k) l) = skipn (S k) l.
Proof.
  intros Hk.
  assert (E : length (firstn k l) = k) by (rewrite length_firstn; lia).
  rewrite skipn_app, E.
  replace (S k - k)%nat with 1%nat by lia.
  change (skipn 1 (v :: skipn (S k) l)) with (skipn (S k) l).
  rewrite (skipn_all2 (n := S k) (firstn k l)) by lia. reflexivity.
Qed.

(** X6.  [our_algo_3] never reads the sample at position [n/2]: it is in
    neither the calibration half [Z[:n/2]] nor the estimation half
    [Z[n/2+1:]], so overwriting it with any value leaves the result (the
    exception, or the fitted density) unchanged. *)
Theorem our_algo_3_skips_middle (n_arg : nat) (Zs : list R) (v L : R) :
  Zs <> [] ->
  our_algo_3 n_arg
    (firstn (length Zs / 2) Zs ++ v :: skipn (S (length Zs / 2)) Zs) L
  = our_algo_3 n_arg Zs L.
Proof.
  intros Hne.
  assert (Hk : (length Zs / 2 < length Zs)%nat).
  { apply Nat.div_lt; [|lia]. destruct Zs; [congruence|simpl; lia]. }
  unfold our_algo_3, general_branch_1d.
  rewrite (length_overwrite Zs _ v Hk), (firstn_overwrite Zs _ v Hk).
  replace (length Zs / 2 + 1)%nat with (S (length Zs / 2)) by lia.
  rewrite (skipn_overwrite Zs _ v Hk). reflexivity.
Qed.

Lemma our_algo_3_skips_middle_witness :
  our_algo_3 8 (firstn (length Z8 / 2) Z8 ++ 7 :: skipn (S (length Z8 / 2)) Z8) 1
  = our_algo_3 8 Z8 1.
Proof.
  apply (our_algo_3_skips_middle 8 Z8 7 1). discriminate.
Defined.

(** ** Algorithm 2: the degenerate-axis branches *)

Lemma xmul_PInf_special (v : npfloat) :
  xmul PInf v = NaN \/ xmul PInf v = PInf \/ xmul PInf v = NInf.
Proof.
  destruct v as [x| | |]; simpl; auto.
  unfold xscale. destruct (Rlt_dec 0 x); [auto|]. destruct (Rlt_dec x 0); auto.
Qed.

(** X7.  When the first axis is narrow, [our_algo_2] hands the second
    coordinates of [X[n/2+1:]] to [our_algo_3]: an exception of that call
    leaves [our_algo_2] unchanged, and it is [ValueError] when fewer than
    two such points remain; when the call returns a density [g],
    [our_algo_2] returns the density that is 0 for [x] outside
    [[r_1, R_1]] (without calling [g]) and [g(y)/(R_1 - r_1)] inside. *)
Theorem our_algo_2_delegates (svd : ndarray R -> ndarray R * list R * ndarray R)
    (G : globals) (n : nat) (X : list (R * R)) (alpha L C Cbar cstar r_1 R_1 : R) :
  0 < L -> n <> O ->
  np_min (map fst (firstn (n / 2) X)) = Ok r_1 ->
  np_max (map fst (firstn (n / 2) X)) = Ok R_1 ->
  R_1 - r_1 < py_pow (INR n) (1 / 3) * py_pow L (- 1 / 2) ->
  (forall e, our_algo_3 n (map snd (skipn (n / 2 + 1) X)) L = Raise e ->
     our_algo_2 svd G n X alpha L C Cbar cstar = Raise e) /\
  ((length (skipn (n / 2 + 1) X) < 2)%nat ->
     our_algo_2 svd G n X alpha L C Cbar cstar = Raise ValueError) /\
  (forall g, our_algo_3 n (map snd (skipn (n / 2 + 1) X)) L = Ok g ->
     exists f,
       our_algo_2 svd G n X alpha L C Cbar cstar = Ok f /\
       forall x y,
         (x < r_1 \/ R_1 < x -> f x y = Ok (Fin 0)) /\
         (r_1 <= x <= R_1 ->
            f x y = (v <- g y ;; Ok (xmul (np_true_divide 1 (R_1 - r_1)) v)))).
Proof.
  intros _ Hn Er ER Hnarrow.
  assert (Head : our_algo_2 svd G n X alpha L C Cbar cstar =
                 (g <- our_algo_3 n (map snd (skipn (n / 2 + 1) X)) L ;;
                  Ok (delegate_density r_1 R_1 g true))).
  { unfold our_algo_2.
    replace (n =? 0)%nat with false by (symmetry; apply Nat.eqb_neq; exact Hn).
    rewrite Er, ER. cbn [bind].
    replace (Rltb _ _) with true by (symmetry; apply Rltb_true; exact Hnarrow).
    reflexivity. }
  split; [|split].
  - intros e Ee. rewrite Head, Ee. reflexivity.
  - intros Hlen. rewrite Head, our_algo_3_short; [reflexivity|].
    rewrite length_map. exact Hlen.
  - intros g Eg. exists (delegate_density r_1 R_1 g true).
    split; [rewrite Head, Eg; reflexivity|].
    intros x y. unfold delegate_density. split.
    + intros Hout.
      destruct (Rleb r_1 x) eqn:E1; [|reflexivity].
      destruct (Rleb x R_1) eqn:E2; [|reflexivity].
      apply Rleb_true in E1, E2. lra.
    + intros [H1 H2].
      replace (Rleb r_1 x) with true by (symmetry; apply Rleb_true; exact H1).
      replace (Rleb x R_1) with true by (symmetry; apply Rleb_true; exact H2).
      reflexivity.
Qed.

(** Five points on the line [x = 0]: the delegated call gets the two
    second coordinates 3 and 4. *)
Lemma our_algo_2_delegates_witness :
  exists f,
    our_algo_2 svd_diag module_globals 5 [(0, 0); (0, 1); (0, 2); (0, 3); (0, 4)]
      1 1 1 1 1 = Ok f /\
    f 1 0 = Ok (Fin 0) /\
    f 0 0 = (v <- narrow_density 3 3 0 ;; Ok (xmul (np_true_divide 1 (0 - 0)) v)).
Proof.
  destruct (our_algo_2_delegates svd_diag module_globals 5
              [(0, 0); (0, 1); (0, 2); (0, 3); (0, 4)] 1 1 1 1 1 0 0) as (_ & _ & D).
  - lra.
  - discriminate.
  - simpl. rewrite Rmin_left by lra. reflexivity.
  - simpl. rewrite Rmax_left by lra. reflexivity.
  - replace (0 - 0) with 0 by lra. apply Rmult_lt_0_compat; apply Rpower_pos.
  - destruct (D (narrow_density 3 3)) as [f (Ef & V)].
    { apply (our_algo_3_two_points 5 3 4 1). }
    exists f. split; [exact Ef|]. split.
    + apply (V 1 0). lra.
    + apply (V 0 0). lra.
Defined.

(** X8.  When the first coordinates of the calibration half are all
    equal ([r_1 = R_1]) and the univariate fit succeeds, the density
    [our_algo_2] returns is 0 off the line [x = r_1] and is never a finite
    number on it: there [1/(R_1 - r_1)] is [inf], and the value is [nan]
    (where the univariate density is 0), [inf] or [-inf]. *)
Theorem constant_axis_density (svd : ndarray R -> ndarray R * list R * ndarray R)
    (G : globals) (n : nat) (X : list (R * R)) (alpha L C Cbar cstar r_1 : R)
    (g : density1) :
  0 < L -> n <> O ->
  np_min (map fst (firstn (n / 2) X)) = Ok r_1 ->
  np_max (map fst (firstn (n / 2) X)) = Ok r_1 ->
  our_algo_3 n (map snd (skipn (n / 2 + 1) X)) L = Ok g ->
  exists f, our_algo_2 svd G n X alpha L C Cbar cstar = Ok f /\
    forall x y,
      (x <> r_1 -> f x y = Ok (Fin 0)) /\
      (forall v, f r_1 y = Ok v -> v = NaN \/ v = PInf \/ v = NInf) /\
      (g y = Ok (Fin 0) -> f r_1 y = Ok NaN).
Proof.
  intros _ Hn Er ER Eg.
  exists (delegate_density r_1 r_1 g true). split.
  - unfold our_algo_2.
    replace (n =? 0)%nat with false by (symmetry; apply Nat.eqb_neq; exact Hn).
    rewrite Er, ER. cbn [bind].
    replace (Rltb _ _) with true.
    + rewrite Eg. reflexivity.
    + symmetry. apply Rltb_true. replace (r_1 - r_1) with 0 by lra.
      apply Rmult_lt_0_compat; apply Rpower_pos.
  - intros x y.
    assert (On : delegate_density r_1 r_1 g true r_1 y =
                 (v <- g y ;; Ok (xmul PInf v))).
    { unfold delegate_density.
      replace (Rleb r_1 r_1) with true by (symmetry; apply Rleb_true; lra).
      replace (r_1 - r_1) with 0 by lra.
      rewrite np_true_divide_pos_0 by lra. reflexivity. }
    split; [|split].
    + intros Hx. unfold delegate_density.
      destruct (Rleb r_1 x) eqn:E1; [|reflexivity].
      destruct (Rleb x r_1) eqn:E2; [|reflexivity].
      apply Rleb_true in E1, E2. exfalso. apply Hx. lra.
    + intros v Hv. rewrite On in Hv. destruct (g y) as [u|e]; [|discriminate].
      cbn [bind] in Hv. injection Hv as <-. apply xmul_PInf_special.
    + intros Hg. rewrite On, Hg. cbn [bind xmul]. unfold xscale.
      destruct (Rlt_dec 0 0); [lra|]. destruct (Rlt_dec 0 0); [lra|]. reflexivity.
Qed.

Lemma constant_axis_density_witness :
  exists f,
    our_algo_2 svd_diag module_globals 5 [(0, 0); (0, 1); (0, 2); (0, 3); (0, 4)]
      1 1 1 1 1 = Ok f /\
    f 1 0 = Ok (Fin 0).
Proof.
  pose proof (our_algo_3_two_points 5 3 4 1) as Eg.
  destruct (constant_axis_density svd_diag module_globals 5
              [(0, 0); (0, 1); (0, 2); (0, 3); (0, 4)] 1 1 1 1 1 0 (narrow_density 3 3))
    as [f [Ef V]].
  - lra.
  - discriminate.
  - simpl. rewrite Rmin_left by lra. reflexivity.
  - simpl. rewrite Rmax_left by lra. reflexivity.
  - exact Eg.
  - exists f. split; [exact Ef|]. apply (V 1 0). lra.
Defined.

(** ** Algorithm 2: the general branch *)

Lemma for_each_unchanged {X S : Type} (xs : list X) (body : X -> S -> result S) (s : S) :
  (forall x s', In x xs -> body x s' = Ok s') -> for_each xs body s = Ok s.
Proof.
  induction xs as [|x xs IH]; intros Hb; [reflexivity|].
  simpl. rewrite Hb by (left; reflexivity). simpl.
  apply IH. intros y s' Hy. apply Hb. right. exact Hy.
Qed.

Lemma bandwidth_nonzero (w : R) (n : nat) (L h : R) :
  bandwidth w n L = Ok h -> h <> 0.
Proof.
  unfold bandwidth, py_inv.
  destruct (Z.eqb_spec (bandwidth_floor w n L) 0) as [E|N]; [discriminate|].
  cbn [bind]. intros E. injection E as <-.
  apply Rmult_integral_contrapositive_currified.
  - apply Rinv_neq_0_compat. apply not_0_IZR. exact N.
  - intros ->. apply N. apply bandwidth_floor_0.
Qed.

(** What a returning general branch has gone through. *)
Lemma general_branch_inv (svd : ndarray R -> ndarray R * list R * ndarray R)
    (G : globals) (n : nat) (X : list (R * R)) (alpha L Cbar cstar : R)
    (r_1 R_1 r_2 R_2 : R) (f : density2) :
  general_branch svd G n X alpha L Cbar cstar r_1 R_1 r_2 R_2 = Ok f ->
  exists h_1 h_2 N12 P,
    bandwidth (R_1 - r_1) n L = Ok h_1 /\
    bandwidth (R_2 - r_2) n L = Ok h_2 /\
    histograms n X r_1 h_1 r_2 h_2 (offsets r_1 h_1) (offsets r_2 h_2) = Ok N12 /\
    offsets r_2 h_2 = [] /\
    our_algo svd G (Z.of_nat (n / 2)) (Z.of_nat (length (offsets r_1 h_1)))
      (fst N12) (snd N12) alpha cstar Cbar = Ok P /\
    f = f_1_2d r_1 h_1 r_2 h_2 (offsets r_1 h_1) (offsets r_2 h_2) P.
Proof.
  unfold general_branch. intros E.
  destruct (bandwidth (R_1 - r_1) n L) as [h_1|] eqn:B1; [|discriminate].
  destruct (bandwidth (R_2 - r_2) n L) as [h_2|] eqn:B2; [|discriminate].
  cbn [bind] in E.
  destruct (histograms n X r_1 h_1 r_2 h_2 (offsets r_1 h_1) (offsets r_2 h_2))
    as [N12|] eqn:EN; [|discriminate].
  cbn [bind] in E. unfold np_max_scalar in E.
  destruct (length (offsets r_2 h_2) =? 0)%nat eqn:E0; [|discriminate].
  cbn [bind] in E.
  destruct (our_algo svd G _ _ _ _ _ _ _) as [P|] eqn:EP; [|discriminate].
  cbn [bind] in E. injection E as <-.
  exists h_1, h_2, N12, P. repeat split; auto.
  apply Nat.eqb_eq in E0. apply length_zero_iff_nil. exact E0.
Qed.

(** X9.  A general branch that returns has an empty second grid (this is
    what lets [np.max(len(E_1), len(E_2))] pass), and the density it
    returns is identically 0: no cell is ever looked up. *)
Theorem general_branch_density_zero
    (svd : ndarray R -> ndarray R * list R * ndarray R)
    (G : globals) (n : nat) (X : list (R * R)) (alpha L Cbar cstar : R)
    (r_1 R_1 r_2 R_2 : R) (f : density2) :
  general_branch svd G n X alpha L Cbar cstar r_1 R_1 r_2 R_2 = Ok f ->
  (exists h_2, bandwidth (R_2 - r_2) n L = Ok h_2 /\ offsets r_2 h_2 = []) /\
  forall x y, f x y = Ok (Fin 0).
Proof.
  intros E.
  destruct (general_branch_inv _ _ _ _ _ _ _ _ _ _ _ _ _ E)
    as (h_1 & h_2 & N12 & P & B1 & B2 & _ & E2 & _ & ->).
  split; [exists h_2; split; assumption|].
  intros x y. unfold f_1_2d. rewrite E2.
  rewrite for_each_unchanged by (intros ci s' _; reflexivity).
  cbn [bind].
  rewrite np_true_divide_nonzero.
  - cbn [xmul]. f_equal. f_equal. ring.
  - apply Rmult_integral_contrapositive_currified; eapply bandwidth_nonzero; eassumption.
Qed.

Lemma calibration_X8b :
  np_min (map fst (firstn (8 / 2) X8b)) = Ok 0 /\
  np_max (map fst (firstn (8 / 2) X8b)) = Ok 2 /\
  np_min (map snd (firstn (8 / 2) X8b)) = Ok (- 1 / 16) /\
  np_max (map snd (firstn (8 / 2) X8b)) = Ok (35 / 16).
Proof.
  assert (Emin : Rmin (Rmin (Rmin 0 2) 0) 0 = 0).
  { rewrite (Rmin_left 0 2) by lra. rewrite (Rmin_left 0 0) by lra. apply Rmin_left. lra. }
  assert (Emax : Rmax (Rmax (Rmax 0 2) 0) 0 = 2).
  { rewrite (Rmax_right 0 2) by lra. rewrite (Rmax_left 2 0) by lra. apply Rmax_left. lra. }
  assert (Emin2 : Rmin (Rmin (Rmin (- 1 / 16) (35 / 16)) 0) 0 = - 1 / 16).
  { rewrite (Rmin_left (- 1 / 16) (35 / 16)) by lra.
    rewrite (Rmin_left (- 1 / 16) 0) by lra. apply Rmin_left. lra. }
  assert (Emax2 : Rmax (Rmax (Rmax (- 1 / 16) (35 / 16)) 0) 0 = 35 / 16).
  { rewrite (Rmax_right (- 1 / 16) (35 / 16)) by lra.
    rewrite (Rmax_left (35 / 16) 0) by lra. apply Rmax_left. lra. }
  simpl. rewrite Emin, Emax, Emin2, Emax2. auto.
Qed.

Lemma bandwidth_X8b : bandwidth (35 / 16 - - 1 / 16) 8 1 = Ok (9 / 16).
Proof.
  unfold bandwidth, bandwidth_floor. rewrite py_pow_8_third, py_pow_1.
  rewrite (math_floor_unique _ 4) by lra. simpl. f_equal. lra.
Qed.

Lemma offsets_X8b : offsets (- 1 / 16) (9 / 16) = [].
Proof.
  unfold offsets.
  rewrite (math_floor_unique _ (-1)) by lra.
  rewrite (math_ceil_unique _ 1) by lra. reflexivity.
Qed.

(** With [d1 = 1], [d2 = 0] bound, the call on [X8b] reaches the general
    branch and returns. *)
Lemma our_algo_2_X8b :
  exists f,
    general_branch svd_diag (bound_globals 1 0) 8 X8b 1 1 1 1 0 2 (- 1 / 16) (35 / 16)
      = Ok f /\
    our_algo_2 svd_diag (bound_globals 1 0) 8 X8b 1 1 1 1 1 = Ok f.
Proof.
  assert (D : degenerate_regime (Z.of_nat (8 / 2)) (Z.of_nat 1) = false).
  { apply degenerate_regime_false. simpl. rewrite ln_1. lra. }
  destruct (assemble_Ok svd_diag svd_diag_shapes (bound_globals 1 0)
              (Z.of_nat (8 / 2)) (Z.of_nat 1) (np_zeros 1 0) (np_zeros 1 0) 1 1 1 O)
    as [res (E & _)]; try reflexivity.
  { split; reflexivity. }
  { exact level_count_1. }
  assert (EG : general_branch svd_diag (bound_globals 1 0) 8 X8b 1 1 1 1 0 2
                 (- 1 / 16) (35 / 16)
               = Ok (f_1_2d 0 (1 / 2) (- 1 / 16) (9 / 16) [0%Z] []
                       (np_div_scalar res (np_sum res)))).
  { unfold general_branch. rewrite bandwidth_X8, bandwidth_X8b. cbn [bind].
    rewrite offsets_0_half, offsets_X8b.
    change (histograms 8 X8b 0 (1 / 2) (- 1 / 16) (9 / 16) [0%Z] [])
      with (Ok (np_zeros 1 0, np_zeros 1 0)).
    cbn [bind length np_max_scalar Nat.eqb fst snd].
    unfold our_algo. rewrite D, E. reflexivity. }
  eexists. split; [exact EG|].
  unfold our_algo_2. cbn [Nat.eqb].
  destruct calibration_X8b as (-> & -> & -> & ->). cbn [bind].
  rewrite py_pow_8_third, py_pow_1. eval_cmp. exact EG.
Qed.

Lemma general_branch_density_zero_witness :
  exists f,
    our_algo_2 svd_diag (bound_globals 1 0) 8 X8b 1 1 1 1 1 = Ok f /\
    forall x y, f x y = Ok (Fin 0).
Proof.
  destruct our_algo_2_X8b as [f [EG E]].
  exists f. split; [exact E|].
  apply (general_branch_density_zero svd_diag (bound_globals 1 0) 8 X8b 1 1 1 1
           0 2 (- 1 / 16) (35 / 16) f EG).
Defined.

(** *** With the globals of the module the general branch never returns *)

Lemma np_min_max_spread (l : list R) (r R0 : R) :
  np_min l = Ok r -> np_max l = Ok R0 -> r < R0 -> (2 <= length l)%nat.
Proof.
  destruct l as [|x [|y l]]; simpl; intros E1 E2 Hlt; try discriminate; [|lia].
  injection E1 as <-. injection E2 as <-. lra.
Qed.

Lemma py_pow_third_cube (n : nat) :
  (1 <= n)%nat ->
  py_pow (INR n) (1 / 3) * py_pow (INR n) (1 / 3) * py_pow (INR n) (1 / 3) = INR n.
Proof.
  intros Hn. unfold py_pow. rewrite <- !Rpower_plus.
  replace (1 / 3 + 1 / 3 + 1 / 3) with 1 by lra.
  apply Rpower_1. apply lt_0_INR. lia.
Qed.

Lemma py_pow_third_square (n : nat) :
  (4 <= n)%nat -> 2 <= py_pow (INR n) (1 / 3) * py_pow (INR n) (1 / 3).
Proof.
  intros Hn.
  assert (A1 : 1 <= py_pow (INR n) (1 / 3)).
  { apply py_pow_ge_1; [|lra]. replace 1 with (INR 1) by reflexivity.
    apply le_INR. lia. }
  pose proof (py_pow_third_cube n ltac:(lia)) as C.
  assert (N4 : 4 <= INR n).
  { replace 4 with (INR 4) by (simpl; lra). apply le_INR. exact Hn. }
  set (a := py_pow (INR n) (1 / 3)) in *.
  destruct (Rle_dec 2 (a * a)) as [H|H]; [exact H|exfalso].
  assert (Haa : a * a < 2) by lra.
  assert (a <= a * a) by (replace a with (a * 1) at 1 by ring; apply Rmult_le_compat_l; lra).
  assert (a * a * a < 2 * 2).
  { apply Rmult_le_0_lt_compat; lra. }
  lra.
Qed.

Lemma guard_2d_product (n : nat) (L w : R) :
  Rltb w (py_pow (INR n) (1 / 3) * py_pow L (- 1 / 2)) = false ->
  0 < w /\
  py_pow (INR n) (1 / 3) * py_pow (INR n) (1 / 3)
    <= w * py_pow (INR n) (1 / 3) * py_pow L (1 / 2).
Proof.
  intros Hg. apply Rltb_false in Hg.
  replace (- 1 / 2) with (- (1 / 2)) in Hg by lra.
  pose proof (py_pow_neg L (1 / 2)) as EL.
  assert (Pn : 0 < py_pow (INR n) (1 / 3)) by apply Rpower_pos.
  assert (PL : 0 < py_pow L (1 / 2)) by apply Rpower_pos.
  assert (QL : 0 < py_pow L (- (1 / 2))) by apply Rpower_pos.
  set (a := py_pow (INR n) (1 / 3)) in *. set (b := py_pow L (1 / 2)) in *.
  set (b' := py_pow L (- (1 / 2))) in *.
  assert (0 < a * b') by (apply Rmult_lt_0_compat; assumption).
  split; [lra|].
  assert (0 < a * b) by (apply Rmult_lt_0_compat; assumption).
  assert (a * b' * (a * b) <= w * (a * b)) by (apply Rmult_le_compat_r; lra).
  assert (E : a * b' * (a * b) = a * a).
  { replace (a * b' * (a * b)) with (a * a * (b' * b)) by ring. rewrite EL. ring. }
  lra.
Qed.

Lemma math_floor_ge (x : R) (m : Z) : IZR m <= x -> (m <= math_floor x)%Z.
Proof.
  intros H. destruct (math_floor_bounds x) as [_ Hu].
  assert (IZR m < IZR (math_floor x + 1)) by (rewrite plus_IZR; lra).
  apply lt_IZR in H0. lia.
Qed.

(** The number of offsets against the bin width: three offsets need a
    width below 1/3, and an empty grid a width above 1/2. *)
Lemma offsets_count (r h : R) :
  0 < h ->
  ((3 <= length (offsets r h))%nat -> 3 * h < 1) /\
  (offsets r h = [] -> 1 < 2 * h).
Proof.
  intros Hh.
  destruct (math_floor_bounds (r / h)) as [F1 F2].
  destruct (math_ceil_bounds ((1 - r) / h - 1)) as [C1 C2].
  assert (E : r / h + ((1 - r) / h - 1) + 1 = / h) by (field; lra).
  assert (Ih : h * / h = 1) by (apply Rinv_r; lra).
  assert (Ph : 0 < / h) by (apply Rinv_0_lt_compat; exact Hh).
  unfold offsets. rewrite ?length_np_arange.
  set (F := math_floor (r / h)) in *. set (Cl := math_ceil ((1 - r) / h - 1)) in *.
  split.
  - intros Hlen.
    assert (3 <= Cl - - F)%Z by lia.
    apply IZR_le in H. rewrite minus_IZR, opp_IZR in H.
    assert (3 < / h) by lra.
    assert (h * 3 < h * / h) by (apply Rmult_lt_compat_l; lra). lra.
  - intros Hnil. apply (f_equal (@length Z)) in Hnil.
    rewrite length_np_arange in Hnil. cbn [length] in Hnil.
    assert (Cl - - F <= 0)%Z by lia.
    apply IZR_le in H. rewrite minus_IZR, opp_IZR in H.
    assert (/ h < 2) by lra.
    assert (h * / h < h * 2) by (apply Rmult_lt_compat_l; lra). lra.
Qed.

Lemma degenerate_needs_three (m : nat) (d : nat) :
  (2 <= m)%nat -> degenerate_regime (Z.of_nat m) (Z.of_nat d) = true -> (3 <= d)%nat.
Proof.
  intros Hm Hd. unfold degenerate_regime in Hd.
  apply andb_true_iff in Hd. destruct Hd as [Hpos Hle].
  apply Z.ltb_lt in Hpos. apply Rleb_true in Hle.
  assert (M2 : 2 <= IZR (Z.of_nat m)).
  { apply (IZR_le 2). lia. }
  destruct d as [|[|[|d]]]; [lia| | |lia]; exfalso.
  - simpl in Hle. rewrite ln_1 in Hle. lra.
  - simpl in Hle. pose proof ln_2_lt_1. lra.
Qed.

(** X10.  In exact arithmetic and with the globals of the module as
    shipped, a call of [our_algo_2] in which neither axis is narrow always
    ends in an exception: every density the function returns comes from
    one of the two degenerate-axis branches. *)
Theorem general_branch_never_returns
    (svd : ndarray R -> ndarray R * list R * ndarray R)
    (n : nat) (X : list (R * R)) (alpha L C Cbar cstar r_1 R_1 r_2 R_2 : R) :
  0 < L ->
  np_min (map fst (firstn (n / 2) X)) = Ok r_1 ->
  np_max (map fst (firstn (n / 2) X)) = Ok R_1 ->
  Rltb (R_1 - r_1) (py_pow (INR n) (1 / 3) * py_pow L (- 1 / 2)) = false ->
  np_min (map snd (firstn (n / 2) X)) = Ok r_2 ->
  np_max (map snd (firstn (n / 2) X)) = Ok R_2 ->
  Rltb (R_2 - r_2) (py_pow (INR n) (1 / 3) * py_pow L (- 1 / 2)) = false ->
  exists e, our_algo_2 svd module_globals n X alpha L C Cbar cstar = Raise e.
Proof.
  intros _ Er1 ER1 G1 Er2 ER2 G2.
  unfold our_algo_2. destruct (n =? 0)%nat; [eexists; reflexivity|].
  rewrite Er1, ER1. cbn [bind]. rewrite G1, Er2, ER2. cbn [bind]. rewrite G2.
  destruct (general_branch svd module_globals n X alpha L Cbar cstar r_1 R_1 r_2 R_2)
    as [f|e] eqn:EG; [exfalso|eexists; reflexivity].
  destruct (general_branch_inv _ _ _ _ _ _ _ _ _ _ _ _ _ EG)
    as (h_1 & h_2 & N12 & P & B1 & B2 & _ & E2 & EP & _).
  (* the calibration half holds at least two points, so n >= 4 *)
  destruct (guard_2d_product _ _ _ G1) as [W1 Q1].
  destruct (guard_2d_product _ _ _ G2) as [W2 Q2].
  assert (Hhalf : (2 <= n / 2)%nat).
  { pose proof (np_min_max_spread _ _ _ Er1 ER1 ltac:(lra)) as Hl.
    rewrite length_map, length_firstn in Hl. lia. }
  assert (Hn4 : (4 <= n)%nat).
  { pose proof (Nat.Div0.mul_div_le n 2). lia. }
  pose proof (py_pow_third_square n Hn4) as A2.
  set (a := py_pow (INR n) (1 / 3)) in *. set (b := py_pow L (1 / 2)) in *.
  (* both bin widths are the range over the floor *)
  destruct (bandwidth_of_product (R_1 - r_1) n L W1 ltac:(fold a b; lra)) as (K1 & B1' & H1pos).
  destruct (bandwidth_of_product (R_2 - r_2) n L W2 ltac:(fold a b; lra)) as (K2 & B2' & H2pos).
  rewrite B1 in B1'. injection B1' as ->. rewrite B2 in B2'. injection B2' as ->.
  destruct (math_floor_bounds ((R_1 - r_1) * a * b)) as [F1lo F1hi].
  destruct (math_floor_bounds ((R_2 - r_2) * a * b)) as [F2lo F2hi].
  pose proof (math_floor_ge ((R_2 - r_2) * a * b) 2 ltac:(lra)) as K2'.
  fold (bandwidth_floor (R_1 - r_1) n L) in F1lo, F1hi.
  fold (bandwidth_floor (R_2 - r_2) n L) in F2lo, F2hi, K2'.
  set (k1 := bandwidth_floor (R_1 - r_1) n L) in *.
  set (k2 := bandwidth_floor (R_2 - r_2) n L) in *.
  set (w1 := R_1 - r_1) in *. set (w2 := R_2 - r_2) in *.
  assert (P1 : 0 < IZR k1) by (apply IZR_lt; lia).
  assert (P2 : 2 <= IZR k2) by (apply IZR_le; exact K2').
  assert (L1 : IZR k1 <= w1 * a * b) by exact F1lo.
  assert (U2 : w2 * a * b < IZR k2 + 1) by exact F2hi.
  assert (I1 : IZR k1 * (/ IZR k1 * w1) = w1) by (field; lra).
  assert (I2 : IZR k2 * (/ IZR k2 * w2) = w2) by (field; lra).
  (* the block estimator returned, so it took the fallback: d >= 3 *)
  assert (D : degenerate_regime (Z.of_nat (n / 2))
                (Z.of_nat (length (offsets r_1 (/ IZR k1 * w1)))) = true).
  { unfold our_algo in EP. destruct (degenerate_regime _ _); [reflexivity|].
    discriminate. }
  pose proof (degenerate_needs_three _ _ Hhalf D) as D3.
  destruct (offsets_count r_1 (/ IZR k1 * w1) H1pos) as [Cnt _].
  destruct (offsets_count r_2 (/ IZR k2 * w2) H2pos) as [_ Emp].
  specialize (Cnt D3). specialize (Emp E2).
  (* 3 w1 < k1 <= w1 c, hence c > 3 *)
  assert (T1 : 3 * w1 < IZR k1).
  { assert (IZR k1 * (3 * (/ IZR k1 * w1)) < IZR k1 * 1)
      by (apply Rmult_lt_compat_l; lra). lra. }
  assert (Hc : 3 < a * b).
  { destruct (Rlt_dec 3 (a * b)) as [H|H]; [exact H|exfalso].
    assert (w1 * (a * b) <= w1 * 3) by (apply Rmult_le_compat_l; lra). lra. }
  (* k2 < 2 w2 and w2 c - 1 < k2, with k2 >= 2 *)
  assert (T2 : IZR k2 < 2 * w2).
  { assert (IZR k2 * 1 < IZR k2 * (2 * (/ IZR k2 * w2)))
      by (apply Rmult_lt_compat_l; lra). lra. }
  assert (w2 * 3 < w2 * (a * b)) by (apply Rmult_lt_compat_l; lra).
  lra.
Qed.

Lemma general_branch_never_returns_witness :
  exists e, our_algo_2 svd_diag module_globals 8 X8 1 1 1 1 1 = Raise e.
Proof.
  destruct calibration_X8 as (E1 & E2 & E3 & E4).
  apply (general_branch_never_returns svd_diag 8 X8 1 1 1 1 1 0 2 0 2);
    try assumption; try lra.
  - rewrite py_pow_8_third, py_pow_1. apply Rltb_false. lra.
  - rewrite py_pow_8_third, py_pow_1. apply Rltb_false. lra.
Defined.

(** ** Algorithm 1: cells outside every block, and blocks kept whole *)

Section Untouched.

Variable svd : ndarray R -> ndarray R * list R * ndarray R.
Hypothesis svd_ok : forall M, svd_shapes M (svd M).

Variables (n d : Z) (Y1 Y2 : ndarray R) (alpha cstar Cbar : R) (d1 d2 T : nat).
Hypothesis Y1_rows : nrows Y1 = d1.
Hypothesis Y1_cols : ncols Y1 = d2.
Hypothesis Y2_rows : nrows Y2 = d1.
Hypothesis Y2_cols : ncols Y2 = d2.

Let p := np_sum_axis1 Y1.
Let q := np_sum_axis0 Y1.

(** Cell [(a, b)] belongs to some block. *)
Let bucketed (a b : nat) : Prop :=
  exists t u, (t <= T)%nat /\ (u <= T)%nat /\
    In a (bucket p T t) /\ In b (bucket q T u).

Lemma column_levels_frame (t : nat) (res : ndarray R) :
  (t <= T)%nat -> nrows res = d1 -> ncols res = d2 ->
  exists res',
    for_each (seq 0 (T + 1))
      (fun u res2 =>
         block_step svd n d Y2 alpha cstar Cbar t u (bucket p T t) (bucket q T u) res2)
      res = Ok res' /\
    nrows res' = d1 /\ ncols res' = d2 /\
    (forall a b, ~ bucketed a b -> elt res' a b = elt res a b).
Proof.
  intros Ht Hr Hc.
  pose (Inv := fun (k : nat) (s : ndarray R) =>
    nrows s = d1 /\ ncols s = d2 /\
    (forall a b, ~ bucketed a b -> elt s a b = elt res a b)).
  destruct (for_range_invariant Inv (T + 1)
    (fun u res2 =>
       block_step svd n d Y2 alpha cstar Cbar t u (bucket p T t) (bucket q T u) res2)
    res) as [s [E I]].
  - repeat split; auto.
  - intros k s Hk (Sr & Sc & Sf).
    destruct (block_step_Ok svd svd_ok n d Y2 alpha cstar Cbar t k
                (bucket p T t) (bucket q T k) s)
      as [s' (E' & Hr' & Hc' & _ & Ho)].
    { apply NoDup_bucket. }
    { apply NoDup_bucket. }
    { intros a Ha. apply bucket_bound in Ha. unfold p, np_sum_axis1 in Ha.
      rewrite length_map, length_seq in Ha. lia. }
    { intros b Hb. apply bucket_bound in Hb. unfold q, np_sum_axis0 in Hb.
      rewrite length_map, length_seq in Hb. lia. }
    exists s'. split; [exact E'|]. repeat split; try congruence.
    intros a b Hab. rewrite Ho; [apply Sf; exact Hab|].
    intros [Ha Hb]. apply Hab. exists t, k. repeat split; auto. lia.
  - exists s. split; [exact E|exact I].
Qed.

Lemma row_levels_frame (res : ndarray R) :
  nrows res = d1 -> ncols res = d2 ->
  exists res',
    for_each (seq 0 (T + 1))
      (fun t res1 =>
         for_each (seq 0 (T + 1))
           (fun u res2 =>
              block_step svd n d Y2 alpha cstar Cbar t u
                (bucket p T t) (bucket q T u) res2)
           res1)
      res = Ok res' /\
    (forall a b, ~ bucketed a b -> elt res' a b = elt res a b).
Proof.
  intros Hr Hc.
  pose (Inv := fun (k : nat) (s : ndarray R) =>
    nrows s = d1 /\ ncols s = d2 /\
    (forall a b, ~ bucketed a b -> elt s a b = elt res a b)).
  destruct (for_range_invariant Inv (T + 1)
    (fun t res1 =>
       for_each (seq 0 (T + 1))
         (fun u res2 =>
            block_step svd n d Y2 alpha cstar Cbar t u
              (bucket p T t) (bucket q T u) res2)
         res1)
    res) as [s [E (_ & _ & Sf)]].
  - repeat split; auto.
  - intros k s Hk (Sr & Sc & Sf).
    destruct (column_levels_frame k s) as [s' (E' & Hr' & Hc' & Ho)]; auto; [lia|].
    exists s'. split; [exact E'|]. repeat split; auto.
    intros a b Hab. rewrite Ho by exact Hab. apply Sf. exact Hab.
  - exists s. split; [exact E|exact Sf].
Qed.

Lemma above_one_unbucketed (a b : nat) :
  1 < nth a p 0 \/ 1 < nth b q 0 -> ~ bucketed a b.
Proof.
  intros Hab (t & u & _ & _ & Ha & Hb).
  apply bucket_upper in Ha, Hb.
  pose proof (pow2neg_antitone 0 t (Nat.le_0_l t)) as Pt.
  pose proof (pow2neg_antitone 0 u (Nat.le_0_l u)) as Pu.
  rewrite pow2neg_0 in Pt, Pu. lra.
Qed.

End Untouched.

(** X11.  Above the degenerate regime (with [d1], [d2] bound to the shape
    of the histograms), a cell whose row sum or column sum in [Y1] exceeds
    1 belongs to no block and is never written: the assembled matrix holds
    0 there, whatever [Y2] holds, and so does the normalised result when
    the total is not zero.  A histogram of raw counts therefore loses
    every row and column that counts two or more samples. *)
Theorem marginal_above_one_zeroed
    (svd : ndarray R -> ndarray R * list R * ndarray R)
    (G : globals) (n d : Z) (Y1 Y2 : ndarray R) (alpha cstar Cbar : R) :
  (forall M, svd_shapes M (svd M)) ->
  g_d1 G = Some (nrows Y1) -> g_d2 G = Some (ncols Y1) ->
  same_shape Y2 Y1 -> (0 < d)%Z -> IZR d * ln (IZR d) < IZR n ->
  exists res P,
    assemble svd G n d Y1 Y2 alpha cstar Cbar = Ok res /\
    our_algo svd G n d Y1 Y2 alpha cstar Cbar = Ok P /\
    forall a b,
      1 < nth a (np_sum_axis1 Y1) 0 \/ 1 < nth b (np_sum_axis0 Y1) 0 ->
      elt res a b = 0 /\ (np_sum res <> 0 -> elt P a b = Fin 0).
Proof.
  intros svd_ok G1 G2 [S1 S2] Hd Hn.
  pose proof (level_count_log2 d Hd) as HT.
  set (T := Z.to_nat (Z.log2 d)) in *.
  destruct (row_levels_frame svd svd_ok n d Y1 Y2 alpha cstar Cbar
              (nrows Y1) (ncols Y1) T eq_refl eq_refl S1 S2
              (np_zeros (nrows Y1) (ncols Y1)) eq_refl eq_refl)
    as [res (E & Hf)].
  assert (EA : assemble svd G n d Y1 Y2 alpha cstar Cbar = Ok res).
  { unfold assemble. rewrite G1, G2, HT. exact E. }
  exists res, (np_div_scalar res (np_sum res)).
  split; [exact EA|]. split.
  - unfold our_algo. rewrite (degenerate_regime_false n d Hn), EA. reflexivity.
  - intros a b Hab.
    assert (Z0 : elt res a b = 0).
    { rewrite Hf; [reflexivity|].
      apply (above_one_unbucketed Y1 T a b Hab). }
    split; [exact Z0|].
    intros Hne. simpl. rewrite Z0, np_true_divide_nonzero by exact Hne.
    f_equal. unfold Rdiv. ring.
Qed.

Lemma marginal_above_one_zeroed_witness :
  exists res,
    assemble svd_diag (bound_globals 1 1) 100 1 (np_full 1 1 2) (np_full 1 1 1) 1 1 1
      = Ok res /\ elt res 0 0 = 0.
Proof.
  destruct (marginal_above_one_zeroed svd_diag (bound_globals 1 1) 100 1
              (np_full 1 1 2) (np_full 1 1 1) 1 1 1) as [res [P (E & _ & V)]].
  - exact svd_diag_shapes.
  - reflexivity.
  - reflexivity.
  - split; reflexivity.
  - lia.
  - rewrite ln_1. lra.
  - exists res. split; [exact E|]. apply (V O O). left. simpl. lra.
Defined.

Lemma retained_all (tau0 : R) (s : list R) :
  (forall x, In x s -> tau0 <= x) -> rank_l tau0 s = length s.
Proof.
  intros Hall. unfold rank_l, retained.
  induction s as [|x s IH]; [reflexivity|]. simpl.
  replace (Rleb tau0 x) with true
    by (symmetry; apply Rleb_true; apply Hall; left; reflexivity).
  simpl. f_equal. apply IH. intros y Hy. apply Hall. right. exact Hy.
Qed.

(** X12.  Above the degenerate regime (with [d1], [d2] bound to the shape
    of the histograms), a block that passes the energy test, all of whose
    singular values reach the threshold, and whose factors multiply back
    to the block ([U diag(s) Vh = M]), comes out as it went in: the
    assembled matrix holds [Y2[i, j]] at every cell of the block. *)
Theorem untruncated_block_kept
    (svd : ndarray R -> ndarray R * list R * ndarray R)
    (G : globals) (n d : Z) (Y1 Y2 : ndarray R) (alpha cstar Cbar : R)
    (T t u : nat) (M U : ndarray R) (s : list R) (Vh : ndarray R) :
  (forall M0, svd_shapes M0 (svd M0)) ->
  g_d1 G = Some (nrows Y1) -> g_d2 G = Some (ncols Y1) ->
  same_shape Y2 Y1 ->
  level_count d = Ok T -> (t <= T)%nat -> (u <= T)%nat ->
  extract_block Y2 (bucket (np_sum_axis1 Y1) T t) (bucket (np_sum_axis0 Y1) T u) = Ok M ->
  energy_cutoff n d alpha Cbar <= np_sum M ->
  svd M = (U, s, Vh) ->
  (forall x, In x s -> tau n d cstar t u <= x) ->
  (forall i j, (i < nrows M)%nat -> (j < ncols M)%nat ->
     Rsum (length s) (fun k => elt U i k * nth k s 0 * elt Vh k j) = elt M i j) ->
  exists res,
    assemble svd G n d Y1 Y2 alpha cstar Cbar = Ok res /\
    forall a b, In a (bucket (np_sum_axis1 Y1) T t) ->
                In b (bucket (np_sum_axis0 Y1) T u) ->
                elt res a b = elt Y2 a b.
Proof.
  intros svd_ok G1 G2 HS HT Ht Hu EM Hhigh Esvd Hall Hexact.
  set (I := bucket (np_sum_axis1 Y1) T t) in *.
  set (J := bucket (np_sum_axis0 Y1) T u) in *.
  destruct (assemble_Ok svd svd_ok G n d Y1 Y2 alpha cstar Cbar T G1 G2 HS HT)
    as [res (E & _ & Hw)].
  exists res. split; [exact E|].
  destruct (Hw t u Ht Hu) as [M' [EM' W]]. fold I in EM', W. fold J in EM', W.
  rewrite EM in EM'. injection EM' as <-.
  replace (Rltb (np_sum M) (energy_cutoff n d alpha Cbar)) with false in W
    by (symmetry; apply Rltb_false; exact Hhigh).
  destruct W as [H [EH WH]]. rewrite Esvd, (retained_all _ _ Hall) in EH.
  destruct (extract_block_Ok Y2 I J) as [M' (EM' & Mr & Mc & Mv)].
  { intros a Ha. apply bucket_bound in Ha. unfold np_sum_axis1 in Ha.
    rewrite length_map, length_seq in Ha. destruct HS as [HS1 _]. lia. }
  { intros b Hb. apply bucket_bound in Hb. unfold np_sum_axis0 in Hb.
    rewrite length_map, length_seq in Hb. destruct HS as [_ HS2]. lia. }
  rewrite EM in EM'. injection EM' as <-.
  pose proof (svd_ok M) as Hshape. rewrite Esvd in Hshape. simpl in Hshape.
  destruct Hshape as (Ur & Uc & Hs & Vr & Vc).
  destruct (reconstruct_Ok U s Vh (length s) (nrows M) (ncols M))
    as [H' (EH' & _ & _ & F)]; auto.
  rewrite EH in EH'. injection EH' as <-.
  intros a b Ha Hb.
  destruct (In_nth_pos I a Ha) as [i [Hi <-]].
  destruct (In_nth_pos J b Hb) as [j [Hj <-]].
  rewrite WH by assumption. rewrite F, Hexact by lia. apply Mv; assumption.
Qed.

Lemma untruncated_block_kept_witness :
  exists res,
    assemble svd_diag (bound_globals 1 1) 100 1 (np_full 1 1 1) (np_full 1 1 (1 / 2))
      1 1 1 = Ok res /\ elt res 0 0 = 1 / 2.
Proof.
  pose proof (bucket_1x1 1 np_sum_axis1 eq_refl (Rle_refl 1)) as EI.
  pose proof (bucket_1x1 1 np_sum_axis0 eq_refl (Rle_refl 1)) as EJ.
  destruct (extract_block_Ok (np_full 1 1 (1 / 2)) [O] [O]) as [M (EM & Mr & Mc & Mv)].
  { intros a [<-|[]]. simpl. lia. }
  { intros b [<-|[]]. simpl. lia. }
  simpl in Mr, Mc.
  assert (M00 : elt M 0 0 = 1 / 2) by (apply (Mv O O); simpl; lia).
  destruct (untruncated_block_kept svd_diag (bound_globals 1 1) 100 1
              (np_full 1 1 1) (np_full 1 1 (1 / 2)) 1 1 1 0 0 0 M (np_eye 1)
              [1 / 2] (np_eye 1)) as [res [E V]].
  - exact svd_diag_shapes.
  - reflexivity.
  - reflexivity.
  - split; reflexivity.
  - exact level_count_1.
  - lia.
  - lia.
  - rewrite EI, EJ. exact EM.
  - rewrite energy_cutoff_d1. unfold np_sum. rewrite Mr, Mc. simpl. rewrite M00. lra.
  - unfold svd_diag. rewrite Mr, Mc. simpl. rewrite M00. reflexivity.
  - intros x [<-|[]]. rewrite tau_d1. lra.
  - intros i j Hi Hj. rewrite Mr in Hi. rewrite Mc in Hj.
    assert (i = O) by lia. assert (j = O) by lia. subst. simpl. rewrite M00. lra.
  - exists res. split; [exact E|].
    rewrite (V O O); [reflexivity| |]; [rewrite EI|rewrite EJ]; left; reflexivity.
Defined.

(** ** Algorithm 3: evaluating the fitted density *)

Lemma for_each_map {X Y S : Type} (g : X -> Y) (xs : list X)
    (body : Y -> S -> result S) (s : S) :
  for_each (map g xs) body s = for_each xs (fun x => body (g x)) s.
Proof.
  revert s. induction xs as [|x xs IH]; intros s; [reflexivity|].
  simpl. destruct (body (g x) s); simpl; auto.
Qed.

Lemma combine_seq_map {X : Type} (E : list X) (dflt : X) (a : nat) :
  combine (seq a (length E)) E
  = map (fun c => (c, nth (c - a) E dflt)) (seq a (length E)).
Proof.
  revert a. induction E as [|e E IH]; intros a; [reflexivity|].
  cbn [length seq combine map]. rewrite Nat.sub_diag. cbn [nth]. f_equal.
  rewrite IH. apply map_ext_in. intros c Hc. apply in_seq in Hc.
  replace (c - a)%nat with (S (c - S a)) by lia. reflexivity.
Qed.

Lemma for_each_ext_in {X S : Type} (xs : list X) (body body' : X -> S -> result S) (s : S) :
  (forall x s', In x xs -> body x s' = body' x s') ->
  for_each xs body s = for_each xs body' s.
Proof.
  revert s. induction xs as [|x xs IH]; intros s Hb; [reflexivity|].
  simpl. rewrite Hb by (left; reflexivity).
  destruct (body' x s); simpl; [|reflexivity].
  apply IH. intros y s' Hy. apply Hb. right. exact Hy.
Qed.

(** A loop over [enumerate(E)] is a loop over the positions of [E]. *)
Lemma for_each_enumerate {X S : Type} (E : list X) (dflt : X)
    (body : nat * X -> S -> result S) (s : S) :
  for_each (enumerate E) body s
  = for_each (seq 0 (length E)) (fun c => body (c, nth c E dflt)) s.
Proof.
  unfold enumerate. rewrite (combine_seq_map E dflt 0), for_each_map.
  apply for_each_ext_in. intros c s' _. rewrite Nat.sub_0_r. reflexivity.
Qed.

Lemma setitem1_Ok (N : list R) (c : nat) (v : R) :
  (c < length N)%nat ->
  setitem1 N c v = Ok (firstn c N ++ v :: skipn (S c) N) /\
  length (firstn c N ++ v :: skipn (S c) N) = length N /\
  nth c (firstn c N ++ v :: skipn (S c) N) 0 = v.
Proof.
  intros Hc. unfold setitem1.
  replace (c <? length N)%nat with true by (symmetry; apply Nat.ltb_lt; exact Hc).
  split; [reflexivity|]. split; [apply length_overwrite; exact Hc|].
  assert (E : length (firstn c N) = c) by (rewrite length_firstn; lia).
  rewrite <- E at 1. apply nth_middle.
Qed.

Lemma getitem1_nat (N : list R) (c : nat) :
  (c < length N)%nat -> getitem1 N (Z.of_nat c) = Ok (nth c N 0).
Proof.
  intros Hc. unfold getitem1.
  replace ((0 <=? Z.of_nat c) && (Z.of_nat c <? Z.of_nat (length N)))%Z with true.
  - rewrite Nat2Z.id. reflexivity.
  - symmetry. apply andb_true_iff. split; [apply Z.leb_le|apply Z.ltb_lt]; lia.
Qed.

Lemma getitem1_out (N : list R) (i : Z) :
  (Z.of_nat (length N) <= i \/ i < - Z.of_nat (length N))%Z ->
  getitem1 N i = Raise IndexError.
Proof.
  intros Hi. unfold getitem1.
  replace ((0 <=? i) && (i <? Z.of_nat (length N)))%Z with false.
  - replace ((- Z.of_nat (length N) <=? i) && (i <? 0))%Z with false; [reflexivity|].
    symmetry. apply andb_false_iff.
    destruct Hi; [right; apply Z.ltb_ge|left; apply Z.leb_gt]; lia.
  - symmetry. apply andb_false_iff.
    destruct Hi; [right; apply Z.ltb_ge|left; apply Z.leb_gt]; lia.
Qed.

Lemma getitem1_exn (N : list R) (i : Z) (e : exn) :
  getitem1 N i = Raise e -> e = IndexError.
Proof.
  unfold getitem1. destruct (_ && _)%bool; [discriminate|].
  destruct (_ && _)%bool; [discriminate|]. intros E. injection E as <-. reflexivity.
Qed.

(** X13.  When the calibration minimum satisfies [0 <= r < H], the first
    offset is 0, every subscript [N[i]] on line 208 is the position being
    filled, and evaluating the fitted density never raises: its value at
    [x] is the sum, over the offsets [i] with [i*H <= x <= (i+1)*H], of
    the count of the bin [[r + i*H, r + (i+1)*H)], divided by [H]. *)
Theorem f_1_first_offset_zero (r H x : R) (est : list R) :
  0 < H -> 0 <= r < H ->
  f_1 r H (offsets r H) est x
  = Ok (Fin (1 / H * Rsum (length (offsets r H))
                        (fun c => lookup_term r H x est (Z.of_nat c)))).
Proof.
  intros HH Hr.
  assert (F0 : math_floor (r / H) = 0%Z).
  { apply math_floor_unique. split.
    - apply Rmult_le_reg_r with H; [exact HH|]. unfold Rdiv.
      rewrite Rmult_assoc, Rinv_l by lra. lra.
    - apply Rmult_lt_reg_r with H; [exact HH|]. unfold Rdiv.
      rewrite Rmult_assoc, Rinv_l by lra. lra. }
  unfold offsets. rewrite F0. change (- 0)%Z with 0%Z.
  set (hi := math_ceil ((1 - r) / H - 1)).
  set (E := np_arange 0 hi).
  unfold f_1. rewrite (for_each_enumerate E 0%Z).
  pose (Inv := fun (k : nat) (st : R * list R) =>
    length (snd st) = length E /\
    fst st = Rsum k (fun c => lookup_term r H x est (Z.of_nat c))).
  destruct (for_range_invariant Inv (length E)
              (fun c => f_1_step r H x est (c, nth c E 0%Z))
              (0, repeat 0 (length E))) as [st [Est [_ Hs]]].
  - split; [apply repeat_length|reflexivity].
  - intros k [s N] Hk [HN Hsum]. simpl in HN, Hsum.
    unfold E at 1. rewrite nth_np_arange by exact Hk. cbn [Z.add].
    unfold f_1_step.
    destruct (setitem1_Ok N k
                (count_in est (r + IZR (Z.of_nat k) * H) (r + IZR (Z.of_nat k + 1) * H)))
      as (ES & LS & VS); [lia|].
    rewrite ES. cbn [bind].
    destruct (Rleb (IZR (Z.of_nat k) * H) x && Rleb x (IZR (Z.of_nat k + 1) * H))%bool
      eqn:Etest.
    + rewrite getitem1_nat by lia. cbn [bind]. rewrite VS.
      eexists. split; [reflexivity|]. split; [cbn [snd]; lia|].
      cbn [fst Rsum]. unfold lookup_term at 2. rewrite Etest, Hsum. reflexivity.
    + eexists. split; [reflexivity|]. split; [cbn [snd]; lia|].
      cbn [fst Rsum]. unfold lookup_term at 2. rewrite Etest, Hsum. ring.
  - rewrite Est. cbn [bind]. rewrite np_true_divide_nonzero by lra.
    cbn [xmul]. rewrite Hs. reflexivity.
Qed.

Lemma f_1_first_offset_zero_witness :
  f_1 (1 / 4) (1 / 2) (offsets (1 / 4) (1 / 2)) [3 / 5; 3 / 5; 3 / 5] (1 / 10)
  = Ok (Fin (1 / (1 / 2) * Rsum (length (offsets (1 / 4) (1 / 2)))
                             (fun c => lookup_term (1 / 4) (1 / 2) (1 / 10)
                                         [3 / 5; 3 / 5; 3 / 5] (Z.of_nat c)))).
Proof.
  apply (f_1_first_offset_zero (1 / 4) (1 / 2) (1 / 10) [3 / 5; 3 / 5; 3 / 5]); lra.
Defined.

Lemma f_1_loop_raises (r H x : R) (est : list R) (l : list (nat * Z)) (st : R * list R) :
  (forall c i, In (c, i) l -> (c < length (snd st))%nat) ->
  (exists c i, In (c, i) l /\
     Rleb (IZR i * H) x && Rleb x (IZR (i + 1) * H) = true /\
     (Z.of_nat (length (snd st)) <= i \/ i < - Z.of_nat (length (snd st)))%Z) ->
  for_each l (f_1_step r H x est) st = Raise IndexError.
Proof.
  revert st. induction l as [|[c0 i0] l IH]; intros [s N] Hc Hbad.
  { destruct Hbad as (c & i & [] & _). }
  cbn [snd] in *. cbn [for_each]. unfold f_1_step at 1.
  destruct (setitem1_Ok N c0
              (count_in est (r + IZR i0 * H) (r + IZR (i0 + 1) * H)))
    as (ES & LS & _); [apply (Hc c0 i0); left; reflexivity|].
  rewrite ES. cbn [bind].
  set (N' := firstn c0 N ++ _ :: skipn (S c0) N) in *.
  assert (Tail : forall s', (forall e, getitem1 N' i0 <> Raise e \/
                                Rleb (IZR i0 * H) x && Rleb x (IZR (i0 + 1) * H) = false) ->
                 for_each l (f_1_step r H x est) (s', N') = Raise IndexError).
  { intros s' Hhead. apply IH.
    - cbn [snd]. rewrite LS. intros c i Hin. apply (Hc c i). right. exact Hin.
    - cbn [snd]. rewrite LS. destruct Hbad as (c & i & [Heq|Hin] & Ht & Hb).
      + injection Heq as -> ->. exfalso.
        destruct (Hhead IndexError) as [Hn|Hf]; [|congruence].
        apply Hn. apply getitem1_out. rewrite LS. exact Hb.
      + exists c, i. auto. }
  destruct (Rleb (IZR i0 * H) x && Rleb x (IZR (i0 + 1) * H))%bool eqn:Etest.
  - destruct (getitem1 N' i0) as [v|e] eqn:Eg; cbn [bind].
    + apply Tail. intros e. left. discriminate.
    + rewrite (getitem1_exn _ _ _ Eg). reflexivity.
  - apply Tail. intros e. right. reflexivity.
Qed.

(** X14.  When some offset [i] of the grid is not a valid subscript of the
    count array ([i >= len(E)] or [i < -len(E)]) and line 207 accepts [x]
    for it, evaluating the fitted density at [x] raises [IndexError]:
    line 208 reads [N[i]] with the offset instead of the position. *)
Theorem f_1_offset_out_of_range (r H x : R) (E : list Z) (est : list R) (i : Z) :
  In i E ->
  IZR i * H <= x <= IZR (i + 1) * H ->
  (Z.of_nat (length E) <= i \/ i < - Z.of_nat (length E))%Z ->
  f_1 r H E est x = Raise IndexError.
Proof.
  intros Hin [Hlo Hhi] Hbad. unfold f_1.
  rewrite f_1_loop_raises; [reflexivity| |].
  - cbn [snd]. rewrite repeat_length. intros c j Hcj.
    unfold enumerate in Hcj. apply in_combine_l in Hcj. apply in_seq in Hcj. lia.
  - cbn [snd]. rewrite repeat_length.
    destruct (In_nth E i 0%Z Hin) as [c [Hc Hn]].
    exists c, i. split; [|split].
    + unfold enumerate. rewrite (combine_seq_map E 0%Z 0).
      apply in_map_iff. exists c. rewrite Nat.sub_0_r, Hn. split; [reflexivity|].
      apply in_seq. lia.
    + apply andb_true_iff. split; apply Rleb_true; assumption.
    + exact Hbad.
Qed.

Lemma offsets_minus_one : offsets (- 1) (1 / 2) = [2%Z].
Proof.
  unfold offsets.
  rewrite (math_floor_unique _ (-2)) by lra.
  rewrite (math_ceil_unique _ 3) by lra. reflexivity.
Qed.

Lemma f_1_offset_out_of_range_witness :
  f_1 (- 1) (1 / 2) (offsets (- 1) (1 / 2)) [0; 0; 0] 1 = Raise IndexError.
Proof.
  apply (f_1_offset_out_of_range (- 1) (1 / 2) 1 (offsets (- 1) (1 / 2)) [0; 0; 0] 2).
  - rewrite offsets_minus_one. left. reflexivity.
  - simpl. lra.
  - rewrite offsets_minus_one. simpl. lia.
Defined.

(** ** Algorithm 2: the two count matrices *)

Lemma count_cell_acc (X : list (R * R)) (ks : list nat) (cell : R -> R -> bool) (acc : R) :
  (forall k, In k ks -> (k < length X)%nat) ->
  for_each ks
    (fun k acc0 =>
       match nth_error X k with
       | Some (x, y) => Ok (acc0 + (if cell x y then 1 else 0))
       | None => Raise IndexError
       end) acc
  = Ok (acc + cell_count X ks cell).
Proof.
  revert acc. induction ks as [|k ks IH]; intros acc Hk.
  - unfold cell_count. simpl. f_equal. lra.
  - cbn [for_each].
    destruct (nth_error X k) as [[x y]|] eqn:E.
    + cbn [bind]. rewrite IH by (intros j Hj; apply Hk; right; exact Hj).
      f_equal. unfold cell_count. cbn [filter]. rewrite E.
      destruct (cell x y); cbn [length]; rewrite ?S_INR; lra.
    + exfalso. apply nth_error_None in E.
      specialize (Hk k (or_introl eq_refl)). lia.
Qed.

Lemma count_cell_Ok (X : list (R * R)) (ks : list nat) (cell : R -> R -> bool) :
  (forall k, In k ks -> (k < length X)%nat) ->
  count_cell X ks cell = Ok (cell_count X ks cell).
Proof.
  intros Hk. unfold count_cell. rewrite count_cell_acc by exact Hk. f_equal. lra.
Qed.

Lemma count_cell_acc_raises (X : list (R * R)) (ks : list nat) (cell : R -> R -> bool)
    (acc : R) :
  (exists k, In k ks /\ (length X <= k)%nat) ->
  for_each ks
    (fun k acc0 =>
       match nth_error X k with
       | Some (x, y) => Ok (acc0 + (if cell x y then 1 else 0))
       | None => Raise IndexError
       end) acc
  = Raise IndexError.
Proof.
  revert acc.
  induction ks as [|k ks IH]; intros acc [j [Hj Hbad]]; [destruct Hj|].
  cbn [for_each]. destruct (nth_error X k) as [[x y]|] eqn:E; [|reflexivity].
  cbn [bind]. apply IH. destruct Hj as [->|Hj]; [|exists j; auto].
  exfalso. assert (H : nth_error X j <> None) by congruence.
  apply nth_error_Some in H. lia.
Qed.

Lemma count_cell_raises (X : list (R * R)) (ks : list nat) (cell : R -> R -> bool) :
  (exists k, In k ks /\ (length X <= k)%nat) ->
  count_cell X ks cell = Raise IndexError.
Proof. apply count_cell_acc_raises. Qed.

Lemma count_cell_acc_exn (X : list (R * R)) (ks : list nat) (cell : R -> R -> bool)
    (acc : R) (e : exn) :
  for_each ks
    (fun k acc0 =>
       match nth_error X k with
       | Some (x, y) => Ok (acc0 + (if cell x y then 1 else 0))
       | None => Raise IndexError
       end) acc
  = Raise e -> e = IndexError.
Proof.
  revert acc.
  induction ks as [|k ks IH]; intros acc; cbn [for_each]; [discriminate|].
  destruct (nth_error X k) as [[x y]|]; cbn [bind].
  - apply IH.
  - intros E. injection E as <-. reflexivity.
Qed.

Lemma count_cell_exn (X : list (R * R)) (ks : list nat) (cell : R -> R -> bool) (e : exn) :
  count_cell X ks cell = Raise e -> e = IndexError.
Proof. apply count_cell_acc_exn. Qed.

Lemma py_range_In (lo hi k : nat) : In k (py_range lo hi) <-> (lo <= k < hi)%nat.
Proof. unfold py_range. rewrite in_seq. lia. Qed.

Section Histograms.

Variables (n : nat) (X : list (R * R)) (r_1 h_1 r_2 h_2 : R) (E_1 E_2 : list Z).

Let ks1 := py_range (n / 2 + 1) (3 * n / 4).
Let ks2 := py_range (3 * n / 4) n.
Let cell (c1 c2 : nat) := in_cell r_1 h_1 r_2 h_2 (nth c1 E_1 0%Z) (nth c2 E_2 0%Z).

(** Lines 302-307 for one position [(c1, c2)]. *)
Let fill (c1 c2 : nat) (st : ndarray R * ndarray R) : result (ndarray R * ndarray R) :=
  let '(N_1, N_2) := st in
  v1 <- count_cell X ks1 (cell c1 c2) ;;
  N_1' <- setitem N_1 c1 c2 v1 ;;
  v2 <- count_cell X ks2 (cell c1 c2) ;;
  N_2' <- setitem N_2 c1 c2 v2 ;;
  Ok (N_1', N_2').

Lemma histograms_unfold :
  histograms n X r_1 h_1 r_2 h_2 E_1 E_2
  = for_each (seq 0 (length E_1))
      (fun c1 st1 => for_each (seq 0 (length E_2)) (fun c2 st2 => fill c1 c2 st2) st1)
      (np_zeros (length E_1) (length E_2), np_zeros (length E_1) (length E_2)).
Proof.
  unfold histograms. rewrite (for_each_enumerate E_1 0%Z).
  apply for_each_ext_in. intros c1 st1 _.
  rewrite (for_each_enumerate E_2 0%Z).
  apply for_each_ext_in. intros c2 [N_1 N_2] _. reflexivity.
Qed.

Hypothesis in_bounds : (n <= length X)%nat.

Let filled (c1 c2 : nat) (st : ndarray R * ndarray R) : Prop :=
  elt (fst st) c1 c2 = cell_count X ks1 (cell c1 c2) /\
  elt (snd st) c1 c2 = cell_count X ks2 (cell c1 c2).

Let shaped (st : ndarray R * ndarray R) : Prop :=
  nrows (fst st) = length E_1 /\ ncols (fst st) = length E_2 /\
  nrows (snd st) = length E_1 /\ ncols (snd st) = length E_2.

Lemma fill_Ok (c1 c2 : nat) (st : ndarray R * ndarray R) :
  (c1 < length E_1)%nat -> (c2 < length E_2)%nat -> shaped st ->
  exists st', fill c1 c2 st = Ok st' /\ shaped st' /\ filled c1 c2 st' /\
    forall a b, ~ (a = c1 /\ b = c2) ->
      elt (fst st') a b = elt (fst st) a b /\ elt (snd st') a b = elt (snd st) a b.
Proof.
  intros H1 H2 (S1 & S2 & S3 & S4). destruct st as [N_1 N_2]. cbn [fst snd] in *.
  unfold fill.
  rewrite count_cell_Ok
    by (intros k Hk; apply py_range_In in Hk;
        pose proof (Nat.Div0.div_le_upper_bound (3 * n) 4 n ltac:(lia)); lia).
  cbn [bind].
  destruct (setitem_Ok N_1 c1 c2 (cell_count X ks1 (cell c1 c2)))
    as [A (EA & Ar & Ac & Av & Ao)]; [lia|lia|].
  rewrite EA. cbn [bind].
  rewrite count_cell_Ok by (intros k Hk; apply py_range_In in Hk; lia).
  cbn [bind].
  destruct (setitem_Ok N_2 c1 c2 (cell_count X ks2 (cell c1 c2)))
    as [B (EB & Br & Bc & Bv & Bo)]; [lia|lia|].
  rewrite EB. cbn [bind].
  exists (A, B). split; [reflexivity|]. unfold shaped, filled. cbn [fst snd].
  repeat split; try congruence.
  - apply Ao. assumption.
  - apply Bo. assumption.
Qed.

Lemma histograms_row (c1 : nat) (st : ndarray R * ndarray R) :
  (c1 < length E_1)%nat -> shaped st ->
  exists st',
    for_each (seq 0 (length E_2)) (fun c2 st2 => fill c1 c2 st2) st = Ok st' /\
    shaped st' /\
    (forall c2, (c2 < length E_2)%nat -> filled c1 c2 st') /\
    (forall a b, a <> c1 ->
       elt (fst st') a b = elt (fst st) a b /\ elt (snd st') a b = elt (snd st) a b).
Proof.
  intros H1 Hs.
  pose (Inv := fun (k : nat) (s : ndarray R * ndarray R) =>
    shaped s /\
    (forall c2, (c2 < k)%nat -> filled c1 c2 s) /\
    (forall a b, a <> c1 ->
       elt (fst s) a b = elt (fst st) a b /\ elt (snd s) a b = elt (snd st) a b)).
  destruct (for_range_invariant Inv (length E_2) (fun c2 st2 => fill c1 c2 st2) st)
    as [s [E I]].
  - split; [exact Hs|]. split; [intros c2 Hc; lia|]. auto.
  - intros k s Hk (Ss & Sf & So).
    destruct (fill_Ok c1 k s H1 Hk Ss) as [s' (E' & Ss' & Sf' & So')].
    exists s'. split; [exact E'|]. split; [exact Ss'|]. split.
    + intros c2 Hc. destruct (Nat.eq_dec c2 k) as [->|Hne]; [exact Sf'|].
      destruct (So' c1 c2) as [O1 O2]; [intros [_ Hc2]; congruence|].
      destruct (Sf c2) as [F1 F2]; [lia|].
      unfold filled. rewrite O1, O2. split; assumption.
    + intros a b Ha. destruct (So' a b) as [O1 O2]; [intros [Ha' _]; congruence|].
      destruct (So a b Ha) as [P1 P2]. rewrite O1, O2. split; assumption.
  - exists s. split; [exact E|exact I].
Qed.

Lemma histograms_Ok :
  exists st, histograms n X r_1 h_1 r_2 h_2 E_1 E_2 = Ok st /\ shaped st /\
    forall c1 c2, (c1 < length E_1)%nat -> (c2 < length E_2)%nat -> filled c1 c2 st.
Proof.
  rewrite histograms_unfold.
  pose (Inv := fun (k : nat) (s : ndarray R * ndarray R) =>
    shaped s /\
    (forall c1 c2, (c1 < k)%nat -> (c2 < length E_2)%nat -> filled c1 c2 s)).
  destruct (for_range_invariant Inv (length E_1)
              (fun c1 st1 =>
                 for_each (seq 0 (length E_2)) (fun c2 st2 => fill c1 c2 st2) st1)
              (np_zeros (length E_1) (length E_2), np_zeros (length E_1) (length E_2)))
    as [s [E I]].
  - split; [repeat split|]. intros c1 c2 Hc. lia.
  - intros k s Hk (Ss & Sf).
    destruct (histograms_row k s Hk Ss) as [s' (E' & Ss' & Sf' & So')].
    exists s'. split; [exact E'|]. split; [exact Ss'|].
    intros c1 c2 Hc1 Hc2. destruct (Nat.eq_dec c1 k) as [->|Hne]; [apply Sf'; exact Hc2|].
    destruct (So' c1 c2 Hne) as [O1 O2]. destruct (Sf c1 c2) as [F1 F2]; [lia|exact Hc2|].
    unfold filled. rewrite O1, O2. split; assumption.
  - exists s. split; [exact E|exact I].
Qed.

End Histograms.

(** X15.  When the sample array holds at least [n] points the two counting
    loops run to completion, and the matrices have one row per offset of
    the first grid and one column per offset of the second: [N_1[c1, c2]]
    is the number of subscripts [k] in [[n/2+1, 3n/4)] whose point [X[k]]
    lies in the half-open cell of offsets [(E_1[c1], E_2[c2])], and
    [N_2[c1, c2]] the same over [[3n/4, n)].  When the array is shorter
    than [n] and both grids are non-empty, the loops raise [IndexError]. *)
Theorem histograms_count (n : nat) (X : list (R * R)) (r_1 h_1 r_2 h_2 : R)
    (E_1 E_2 : list Z) :
  ((n <= length X)%nat ->
   exists N_1 N_2,
     histograms n X r_1 h_1 r_2 h_2 E_1 E_2 = Ok (N_1, N_2) /\
     nrows N_1 = length E_1 /\ ncols N_1 = length E_2 /\
     nrows N_2 = length E_1 /\ ncols N_2 = length E_2 /\
     forall c1 c2, (c1 < length E_1)%nat -> (c2 < length E_2)%nat ->
       elt N_1 c1 c2
       = cell_count X (py_range (n / 2 + 1) (3 * n / 4))
           (in_cell r_1 h_1 r_2 h_2 (nth c1 E_1 0%Z) (nth c2 E_2 0%Z)) /\
       elt N_2 c1 c2
       = cell_count X (py_range (3 * n / 4) n)
           (in_cell r_1 h_1 r_2 h_2 (nth c1 E_1 0%Z) (nth c2 E_2 0%Z))) /\
  ((length X < n)%nat -> E_1 <> [] -> E_2 <> [] ->
   histograms n X r_1 h_1 r_2 h_2 E_1 E_2 = Raise IndexError).
Proof.
  split.
  - intros Hn.
    destruct (histograms_Ok n X r_1 h_1 r_2 h_2 E_1 E_2 Hn)
      as [[N_1 N_2] (E & (S1 & S2 & S3 & S4) & F)].
    exists N_1, N_2. cbn [fst snd] in *. repeat split; auto; apply F; assumption.
  - intros Hn H1 H2. rewrite histograms_unfold.
    destruct E_1 as [|i E_1]; [congruence|]. destruct E_2 as [|j E_2]; [congruence|].
    cbn [length seq for_each].
    set (ks1 := py_range (n / 2 + 1) (3 * n / 4)).
    set (ks2 := py_range (3 * n / 4) n).
    set (c := in_cell r_1 h_1 r_2 h_2 (nth 0 (i :: E_1) 0%Z) (nth 0 (j :: E_2) 0%Z)).
    destruct (count_cell X ks1 c) as [v1|e] eqn:E1; cbn [bind].
    + replace (setitem (np_zeros (S (length E_1)) (S (length E_2))) 0 0 v1)
        with (Ok (mk_ndarray (S (length E_1)) (S (length E_2))
                    (fun a b => if ((a =? 0)%nat && (b =? 0)%nat)%bool then v1
                                else elt (np_zeros (S (length E_1)) (S (length E_2))) a b)))
        by reflexivity.
      cbn [bind]. rewrite count_cell_raises; [reflexivity|].
      exists (n - 1)%nat. split; [|lia]. apply py_range_In.
      pose proof (Nat.Div0.div_lt_upper_bound (3 * n) 4 n ltac:(lia)). lia.
    + rewrite (count_cell_exn _ _ _ _ E1). reflexivity.
Qed.

(** ** Algorithm 2: the counts add up *)

Lemma Rsum_plus (n : nat) (f g : nat -> R) :
  Rsum n (fun k => f k + g k) = Rsum n f + Rsum n g.
Proof. induction n as [|n IH]; simpl; [lra|rewrite IH; lra]. Qed.

Lemma Rsum_const_zero (n : nat) : Rsum n (fun _ => 0) = 0.
Proof. induction n as [|n IH]; simpl; [reflexivity|rewrite IH; lra]. Qed.

(** Consecutive half-open bins of one width add up to one half-open
    interval. *)
Lemma Rsum_bins (r H x : R) (lo : Z) (m : nat) :
  0 < H ->
  Rsum m (fun c =>
            if Rleb (r + IZR (lo + Z.of_nat c) * H) x
               && Rltb x (r + IZR (lo + Z.of_nat c + 1) * H) then 1 else 0)
  = if Rleb (r + IZR lo * H) x && Rltb x (r + IZR (lo + Z.of_nat m) * H) then 1 else 0.
Proof.
  intros HH. induction m as [|m IH].
  - cbn [Rsum]. change (Z.of_nat 0) with 0%Z. rewrite Z.add_0_r.
    unfold Rleb, Rltb.
    destruct (Rle_dec (r + IZR lo * H) x), (Rlt_dec x (r + IZR lo * H));
      cbn [andb]; try reflexivity; lra.
  - cbn [Rsum]. rewrite IH. rewrite Nat2Z.inj_succ. unfold Z.succ.
    rewrite Z.add_assoc.
    assert (P : 0 <= IZR (Z.of_nat m) * H).
    { apply Rmult_le_pos; [apply IZR_le; lia|lra]. }
    rewrite !plus_IZR in *. 
    unfold Rleb, Rltb.
    destruct (Rle_dec (r + IZR lo * H) x),
             (Rlt_dec x (r + (IZR lo + IZR (Z.of_nat m)) * H)),
             (Rle_dec (r + (IZR lo + IZR (Z.of_nat m)) * H) x),
             (Rlt_dec x (r + (IZR lo + IZR (Z.of_nat m) + 1) * H));
      cbn [andb]; try lra.
Qed.

Lemma Rsum_offsets (r H x : R) :
  0 < H ->
  Rsum (length (offsets r H))
    (fun c => if Rleb (r + IZR (nth c (offsets r H) 0%Z) * H) x
                 && Rltb x (r + IZR (nth c (offsets r H) 0%Z + 1) * H) then 1 else 0)
  = if in_grid r H x then 1 else 0.
Proof.
  intros HH. unfold offsets, in_grid, grid_start, grid_end.
  set (lo := (- math_floor (r / H))%Z). set (hi := math_ceil ((1 - r) / H - 1)).
  rewrite (Rsum_ext _ _
    (fun c => if Rleb (r + IZR (lo + Z.of_nat c) * H) x
                 && Rltb x (r + IZR (lo + Z.of_nat c + 1) * H) then 1 else 0)).
  2:{ intros c Hc. rewrite nth_np_arange by exact Hc. reflexivity. }
  rewrite Rsum_bins by exact HH. rewrite length_np_arange.
  destruct (Z.le_gt_cases lo hi) as [L|L].
  - replace (lo + Z.of_nat (Z.to_nat (hi - lo)))%Z with hi by lia. reflexivity.
  - replace (Z.to_nat (hi - lo)) with O by lia.
    change (Z.of_nat 0) with 0%Z. rewrite Z.add_0_r.
    assert (B : IZR hi * H < IZR lo * H).
    { apply Rmult_lt_compat_r; [lra|]. apply IZR_lt. lia. }
    unfold Rleb, Rltb.
    destruct (Rle_dec (r + IZR lo * H) x), (Rlt_dec x (r + IZR lo * H)),
             (Rlt_dec x (r + IZR hi * H));
      cbn [andb]; try reflexivity; lra.
Qed.

Lemma cell_count_cons (X : list (R * R)) (k : nat) (ks : list nat)
    (cell : R -> R -> bool) :
  cell_count X (k :: ks) cell
  = match nth_error X k with
    | Some (x, y) => if cell x y then 1 else 0
    | None => 0
    end + cell_count X ks cell.
Proof.
  unfold cell_count. cbn [filter].
  destruct (nth_error X k) as [[x y]|]; [destruct (cell x y)|];
    cbn [length]; rewrite ?S_INR; lra.
Qed.

Lemma cell_count_le (X : list (R * R)) (ks : list nat) (cell : R -> R -> bool) :
  cell_count X ks cell <= INR (length ks).
Proof. unfold cell_count. apply le_INR, filter_length_le. Qed.

(** A point lies in exactly one cell of the grid when it lies in the grid
    rectangle, and in none otherwise. *)
Lemma point_grid (r_1 h_1 r_2 h_2 x y : R) :
  0 < h_1 -> 0 < h_2 ->
  Rsum (length (offsets r_1 h_1))
    (fun c1 => Rsum (length (offsets r_2 h_2))
       (fun c2 => if in_cell r_1 h_1 r_2 h_2 (nth c1 (offsets r_1 h_1) 0%Z)
                                             (nth c2 (offsets r_2 h_2) 0%Z) x y
                  then 1 else 0))
  = if in_grid r_1 h_1 x && in_grid r_2 h_2 y then 1 else 0.
Proof.
  intros H1 H2.
  rewrite (Rsum_ext _ _
    (fun c1 =>
       (if Rleb (r_1 + IZR (nth c1 (offsets r_1 h_1) 0%Z) * h_1) x
           && Rltb x (r_1 + IZR (nth c1 (offsets r_1 h_1) 0%Z + 1) * h_1)
        then 1 else 0)
       * (if in_grid r_2 h_2 y then 1 else 0))).
  - rewrite Rsum_scale, (Rsum_offsets r_1 h_1 x H1).
    destruct (in_grid r_1 h_1 x), (in_grid r_2 h_2 y); cbn [andb]; lra.
  - intros c1 _. rewrite <- (Rsum_offsets r_2 h_2 y H2), Rmult_comm.
    rewrite <- Rsum_scale. apply Rsum_ext. intros c2 _. unfold in_cell.
    destruct (Rleb (r_1 + IZR (nth c1 (offsets r_1 h_1) 0%Z) * h_1) x),
             (Rltb x (r_1 + IZR (nth c1 (offsets r_1 h_1) 0%Z + 1) * h_1)),
             (Rleb (r_2 + IZR (nth c2 (offsets r_2 h_2) 0%Z) * h_2) y),
             (Rltb y (r_2 + IZR (nth c2 (offsets r_2 h_2) 0%Z + 1) * h_2));
      cbn [andb]; lra.
Qed.

(** Summed over the whole grid, the cell counts are the count of the grid
    rectangle. *)
Lemma cell_count_grid (X : list (R * R)) (ks : list nat) (r_1 h_1 r_2 h_2 : R) :
  0 < h_1 -> 0 < h_2 ->
  Rsum (length (offsets r_1 h_1))
    (fun c1 => Rsum (length (offsets r_2 h_2))
       (fun c2 => cell_count X ks
                    (in_cell r_1 h_1 r_2 h_2 (nth c1 (offsets r_1 h_1) 0%Z)
                                             (nth c2 (offsets r_2 h_2) 0%Z))))
  = cell_count X ks (fun x y => in_grid r_1 h_1 x && in_grid r_2 h_2 y).
Proof.
  intros H1 H2. induction ks as [|k ks IH].
  - unfold cell_count. cbn [filter length INR].
    rewrite (Rsum_ext _ _ (fun _ => 0)); [apply Rsum_const_zero|].
    intros c1 _. apply Rsum_const_zero.
  - rewrite (cell_count_cons X k ks (fun x y => in_grid r_1 h_1 x && in_grid r_2 h_2 y)).
    rewrite <- IH.
    set (pt := fun c1 c2 : nat =>
      match nth_error X k with
      | Some (x, y) =>
          if in_cell r_1 h_1 r_2 h_2 (nth c1 (offsets r_1 h_1) 0%Z)
                                     (nth c2 (offsets r_2 h_2) 0%Z) x y
          then 1 else 0
      | None => 0
      end).
    set (cc := fun c1 c2 : nat =>
      cell_count X ks (in_cell r_1 h_1 r_2 h_2 (nth c1 (offsets r_1 h_1) 0%Z)
                                               (nth c2 (offsets r_2 h_2) 0%Z))).
    rewrite (Rsum_ext _ _
      (fun c1 => Rsum (length (offsets r_2 h_2)) (pt c1)
                 + Rsum (length (offsets r_2 h_2)) (cc c1))).
    2:{ intros c1 _. rewrite <- Rsum_plus. apply Rsum_ext. intros c2 _.
        apply cell_count_cons. }
    rewrite Rsum_plus. f_equal. unfold pt.
    destruct (nth_error X k) as [[x y]|].
    + apply point_grid; assumption.
    + rewrite (Rsum_ext _ _ (fun _ => 0)); [apply Rsum_const_zero|].
      intros c1 _. apply Rsum_const_zero.
Qed.

(** X16.  With positive bin widths and at least [n] sample points, the
    entries of [N_1] add up to the number of points with subscript in
    [[n/2+1, 3n/4)] that lie in the grid rectangle
    [[grid_start_1, grid_end_1) x [grid_start_2, grid_end_2)], and those
    of [N_2] to the same number over [[3n/4, n)]: every such point is
    counted in exactly one cell, and points outside the rectangle (which
    is inside the unit square) are dropped.  For [n >= 3] the two
    matrices together hold at most [n - n/2 - 1] counts. *)
Theorem histograms_conserve (n : nat) (X : list (R * R)) (r_1 h_1 r_2 h_2 : R)
    (N_1 N_2 : ndarray R) :
  0 < h_1 -> 0 < h_2 -> (n <= length X)%nat ->
  histograms n X r_1 h_1 r_2 h_2 (offsets r_1 h_1) (offsets r_2 h_2) = Ok (N_1, N_2) ->
  np_sum N_1
  = cell_count X (py_range (n / 2 + 1) (3 * n / 4))
      (fun x y => in_grid r_1 h_1 x && in_grid r_2 h_2 y) /\
  np_sum N_2
  = cell_count X (py_range (3 * n / 4) n)
      (fun x y => in_grid r_1 h_1 x && in_grid r_2 h_2 y) /\
  ((3 <= n)%nat -> np_sum N_1 + np_sum N_2 <= INR (n - n / 2 - 1)).
Proof.
  intros H1 H2 Hn E.
  destruct (histograms_Ok n X r_1 h_1 r_2 h_2 (offsets r_1 h_1) (offsets r_2 h_2) Hn)
    as [st (E' & (S1 & S2 & S3 & S4) & F)].
  rewrite E in E'. injection E' as <-. cbn [fst snd] in *.
  assert (A1 : np_sum N_1
               = cell_count X (py_range (n / 2 + 1) (3 * n / 4))
                   (fun x y => in_grid r_1 h_1 x && in_grid r_2 h_2 y)).
  { rewrite <- (cell_count_grid X _ r_1 h_1 r_2 h_2 H1 H2).
    unfold np_sum. rewrite S1, S2. apply Rsum_ext. intros c1 Hc1.
    apply Rsum_ext. intros c2 Hc2. apply (F c1 c2 Hc1 Hc2). }
  assert (A2 : np_sum N_2
               = cell_count X (py_range (3 * n / 4) n)
                   (fun x y => in_grid r_1 h_1 x && in_grid r_2 h_2 y)).
  { rewrite <- (cell_count_grid X _ r_1 h_1 r_2 h_2 H1 H2).
    unfold np_sum. rewrite S3, S4. apply Rsum_ext. intros c1 Hc1.
    apply Rsum_ext. intros c2 Hc2. apply (F c1 c2 Hc1 Hc2). }
  split; [exact A1|]. split; [exact A2|].
  intros H3. rewrite A1, A2.
  pose proof (cell_count_le X (py_range (n / 2 + 1) (3 * n / 4))
                (fun x y => in_grid r_1 h_1 x && in_grid r_2 h_2 y)) as B1.
  pose proof (cell_count_le X (py_range (3 * n / 4) n)
                (fun x y => in_grid r_1 h_1 x && in_grid r_2 h_2 y)) as B2.
  unfold py_range in B1, B2. rewrite length_seq in B1, B2.
  assert (Q1 : (n / 2 + 1 <= 3 * n / 4)%nat).
  { pose proof (Nat.div_mod_eq n 2). pose proof (Nat.mod_upper_bound n 2 ltac:(lia)).
    pose proof (Nat.div_mod_eq (3 * n) 4).
    pose proof (Nat.mod_upper_bound (3 * n) 4 ltac:(lia)). lia. }
  assert (Q2 : (3 * n / 4 <= n)%nat).
  { apply Nat.Div0.div_le_upper_bound. lia. }
  replace (n - n / 2 - 1)%nat
    with ((3 * n / 4 - (n / 2 + 1)) + (n - 3 * n / 4))%nat by lia.
  rewrite plus_INR. unfold py_range. lra.
Qed.

(** ** Algorithm 2: the sample at position [n/2] *)

Lemma nth_error_overwrite {A : Type} (l : list A) (k j : nat) (v : A) :
  (k < length l)%nat -> j <> k ->
  nth_error (firstn k l ++ v :: skipn (S k) l) j = nth_error l j.
Proof.
  intros Hk Hj.
  assert (E : length (firstn k l) = k) by (rewrite length_firstn; lia).
  destruct (Nat.lt_ge_cases j k) as [Hlt|Hge].
  - rewrite nth_error_app1 by lia.
    rewrite <- (firstn_skipn k l) at 2.
    rewrite nth_error_app1 by lia. reflexivity.
  - rewrite nth_error_app2 by lia. rewrite E.
    destruct (j - k)%nat as [|m] eqn:D; [lia|].
    cbn [nth_error]. rewrite nth_error_skipn. f_equal. lia.
Qed.

Lemma count_cell_ext (X X' : list (R * R)) (ks : list nat) (cell : R -> R -> bool) :
  (forall j, In j ks -> nth_error X' j = nth_error X j) ->
  count_cell X' ks cell = count_cell X ks cell.
Proof.
  intros H. unfold count_cell. apply for_each_ext_in.
  intros j acc Hj. rewrite (H j Hj). reflexivity.
Qed.

Lemma histograms_ext (n : nat) (X X' : list (R * R)) (r_1 h_1 r_2 h_2 : R)
    (E_1 E_2 : list Z) :
  (forall j, (n / 2 + 1 <= j < n)%nat -> nth_error X' j = nth_error X j) ->
  (3 <= n)%nat ->
  histograms n X' r_1 h_1 r_2 h_2 E_1 E_2 = histograms n X r_1 h_1 r_2 h_2 E_1 E_2.
Proof.
  intros H H3.
  assert (Q1 : (n / 2 + 1 <= 3 * n / 4)%nat).
  { pose proof (Nat.div_mod_eq n 2). pose proof (Nat.mod_upper_bound n 2 ltac:(lia)).
    pose proof (Nat.div_mod_eq (3 * n) 4).
    pose proof (Nat.mod_upper_bound (3 * n) 4 ltac:(lia)). lia. }
  assert (Q2 : (3 * n / 4 <= n)%nat) by (apply Nat.Div0.div_le_upper_bound; lia).
  unfold histograms. apply for_each_ext_in. intros [c1 i] st1 _.
  apply for_each_ext_in. intros [c2 j] [N_1 N_2] _.
  rewrite (count_cell_ext X X' (py_range (n / 2 + 1) (3 * n / 4)))
    by (intros k Hk; apply py_range_In in Hk; apply H; lia).
  rewrite (count_cell_ext X X' (py_range (3 * n / 4) n))
    by (intros k Hk; apply py_range_In in Hk; apply H; lia).
  reflexivity.
Qed.

(** X17.  For [n >= 3], [our_algo_2] never reads the sample at position
    [n/2]: the calibration half is [X[:n/2]], the delegated calls receive
    [X[n/2+1:]], and the two counting ranges start at [n/2+1] and [3n/4].
    Overwriting that sample with any point leaves the result (the
    exception, or the fitted density) unchanged, on every path. *)
Theorem our_algo_2_skips_middle
    (svd : ndarray R -> ndarray R * list R * ndarray R) (G : globals)
    (n : nat) (X : list (R * R)) (v : R * R) (alpha L C Cbar cstar : R) :
  (3 <= n)%nat -> (n / 2 < length X)%nat ->
  our_algo_2 svd G n (firstn (n / 2) X ++ v :: skipn (S (n / 2)) X)
    alpha L C Cbar cstar
  = our_algo_2 svd G n X alpha L C Cbar cstar.
Proof.
  intros H3 Hk. unfold our_algo_2, general_branch.
  rewrite (firstn_overwrite X _ v Hk).
  replace (n / 2 + 1)%nat with (S (n / 2)) by lia.
  rewrite (skipn_overwrite X _ v Hk).
  destruct (n =? 0)%nat; [reflexivity|].
  destruct (np_min (map fst (firstn (n / 2) X))) as [r_1|e]; [|reflexivity].
  destruct (np_max (map fst (firstn (n / 2) X))) as [R_1|e]; [|reflexivity].
  cbn [bind].
  destruct (Rltb (R_1 - r_1) (py_pow (INR n) (1 / 3) * py_pow L (- 1 / 2)));
    [reflexivity|].
  destruct (np_min (map snd (firstn (n / 2) X))) as [r_2|e]; [|reflexivity].
  destruct (np_max (map snd (firstn (n / 2) X))) as [R_2|e]; [|reflexivity].
  cbn [bind].
  destruct (Rltb (R_2 - r_2) (py_pow (INR n) (1 / 3) * py_pow L (- 1 / 2)));
    [reflexivity|].
  destruct (bandwidth (R_1 - r_1) n L) as [h_1|e]; [|reflexivity].
  destruct (bandwidth (R_2 - r_2) n L) as [h_2|e]; [|reflexivity].
  cbn [bind].
  rewrite (histograms_ext n X (firstn (n / 2) X ++ v :: skipn (S (n / 2)) X)).
  - reflexivity.
  - intros j Hj. apply nth_error_overwrite; [exact Hk|lia].
  - exact H3.
Qed.

Lemma our_algo_2_skips_middle_witness :
  our_algo_2 svd_diag module_globals 8
    (firstn (8 / 2) X8 ++ (7, 7) :: skipn (S (8 / 2)) X8) 1 1 1 1 1
  = our_algo_2 svd_diag module_globals 8 X8 1 1 1 1 1.
Proof.
  apply (our_algo_2_skips_middle svd_diag module_globals 8 X8 (7, 7)).
  - lia.
  - change (8 / 2)%nat with 4%nat. simpl. lia.
Defined.

Lemma histograms_count_witness :
  exists N_1 N_2,
    histograms 8 X8 0 (1 / 2) 0 (1 / 2) [0%Z] [0%Z] = Ok (N_1, N_2) /\
    nrows N_1 = 1%nat /\ ncols N_1 = 1%nat /\
    nrows N_2 = 1%nat /\ ncols N_2 = 1%nat /\
    forall c1 c2, (c1 < 1)%nat -> (c2 < 1)%nat ->
      elt N_1 c1 c2
      = cell_count X8 (py_range (8 / 2 + 1) (3 * 8 / 4))
          (in_cell 0 (1 / 2) 0 (1 / 2) (nth c1 [0%Z] 0%Z) (nth c2 [0%Z] 0%Z)) /\
      elt N_2 c1 c2
      = cell_count X8 (py_range (3 * 8 / 4) 8)
          (in_cell 0 (1 / 2) 0 (1 / 2) (nth c1 [0%Z] 0%Z) (nth c2 [0%Z] 0%Z)).
Proof.
  apply (proj1 (histograms_count 8 X8 0 (1 / 2) 0 (1 / 2) [0%Z] [0%Z])).
  simpl. lia.
Defined.

Lemma histograms_conserve_witness :
  exists N_1 N_2,
    histograms 8 X8 0 (1 / 2) 0 (1 / 2) (offsets 0 (1 / 2)) (offsets 0 (1 / 2))
    = Ok (N_1, N_2) /\
    np_sum N_1
    = cell_count X8 (py_range (8 / 2 + 1) (3 * 8 / 4))
        (fun x y => in_grid 0 (1 / 2) x && in_grid 0 (1 / 2) y) /\
    np_sum N_2
    = cell_count X8 (py_range (3 * 8 / 4) 8)
        (fun x y => in_grid 0 (1 / 2) x && in_grid 0 (1 / 2) y) /\
    ((3 <= 8)%nat -> np_sum N_1 + np_sum N_2 <= INR (8 - 8 / 2 - 1)).
Proof.
  assert (Hn : (8 <= length X8)%nat) by (simpl; lia).
  destruct (histograms_Ok 8 X8 0 (1 / 2) 0 (1 / 2)
              (offsets 0 (1 / 2)) (offsets 0 (1 / 2)) Hn) as [[N_1 N_2] [E _]].
  exists N_1, N_2. split; [exact E|].
  apply (histograms_conserve 8 X8 0 (1 / 2) 0 (1 / 2) N_1 N_2); [lra|lra|exact Hn|exact E].
Defined.

(** ** Algorithm 2: evaluating the fitted density *)

Lemma xadd_zero_l (v : npfloat) : xadd (Fin 0) v = v.
Proof. destruct v as [y| | |]; try reflexivity. simpl. f_equal. lra. Qed.

Lemma seq_split_at (c n : nat) :
  (c < n)%nat -> seq 0 n = seq 0 c ++ c :: seq (S c) (n - S c).
Proof.
  intros Hc. replace n with (c + S (n - S c))%nat at 1 by lia.
  rewrite seq_app. reflexivity.
Qed.

(** A loop whose body changes the state at one position only. *)
Lemma for_each_single {S : Type} (n c : nat) (body : nat -> S -> result S) (s : S) :
  (c < n)%nat ->
  (forall k s', (k < n)%nat -> k <> c -> body k s' = Ok s') ->
  for_each (seq 0 n) body s = body c s.
Proof.
  intros Hc Hb. rewrite (seq_split_at c n Hc), for_each_app.
  rewrite for_each_unchanged
    by (intros k s' Hk; apply in_seq in Hk; apply Hb; lia).
  cbn [bind for_each]. destruct (body c s) as [s1|e]; [|reflexivity].
  cbn [bind]. apply for_each_unchanged.
  intros k s' Hk. apply in_seq in Hk. apply Hb; lia.
Qed.

Lemma bin_unique (r H x : R) (i i' : Z) :
  0 < H ->
  r + IZR i * H <= x < r + IZR (i + 1) * H ->
  r + IZR i' * H <= x < r + IZR (i' + 1) * H ->
  i = i'.
Proof.
  intros HH [A B] [A' B'].
  destruct (Z.lt_trichotomy i i') as [L|[E|L]]; [exfalso|exact E|exfalso].
  - assert (Q : IZR (i + 1) * H <= IZR i' * H).
    { apply Rmult_le_compat_r; [lra|]. apply IZR_le. lia. }
    lra.
  - assert (Q : IZR (i' + 1) * H <= IZR i * H).
    { apply Rmult_le_compat_r; [lra|]. apply IZR_le. lia. }
    lra.
Qed.

Lemma in_cell_true (r_1 h_1 r_2 h_2 : R) (i j : Z) (x y : R) :
  in_cell r_1 h_1 r_2 h_2 i j x y = true <->
  (r_1 + IZR i * h_1 <= x < r_1 + IZR (i + 1) * h_1) /\
  (r_2 + IZR j * h_2 <= y < r_2 + IZR (j + 1) * h_2).
Proof.
  unfold in_cell. rewrite !andb_true_iff, !Rleb_true, !Rltb_true. tauto.
Qed.

(** Two positions of the grid whose cells share a point are the same. *)
Lemma cell_unique (r_1 h_1 r_2 h_2 x y : R) (c1 c2 c1' c2' : nat) :
  0 < h_1 -> 0 < h_2 ->
  (c1 < length (offsets r_1 h_1))%nat -> (c2 < length (offsets r_2 h_2))%nat ->
  (c1' < length (offsets r_1 h_1))%nat -> (c2' < length (offsets r_2 h_2))%nat ->
  in_cell r_1 h_1 r_2 h_2 (nth c1 (offsets r_1 h_1) 0%Z)
                          (nth c2 (offsets r_2 h_2) 0%Z) x y = true ->
  in_cell r_1 h_1 r_2 h_2 (nth c1' (offsets r_1 h_1) 0%Z)
                          (nth c2' (offsets r_2 h_2) 0%Z) x y = true ->
  c1' = c1 /\ c2' = c2.
Proof.
  intros H1 H2 L1 L2 L1' L2' A B.
  apply in_cell_true in A. apply in_cell_true in B.
  destruct A as [A1 A2], B as [B1 B2].
  pose proof (bin_unique r_1 h_1 x _ _ H1 A1 B1) as U1.
  pose proof (bin_unique r_2 h_2 y _ _ H2 A2 B2) as U2.
  unfold offsets in *. rewrite !nth_np_arange in U1, U2 by assumption. lia.
Qed.

Lemma Rsum_indicator (n : nat) (b : nat -> bool) :
  Rsum n (fun c => if b c then 1 else 0) = 1 -> exists c, (c < n)%nat /\ b c = true.
Proof.
  induction n as [|n IH]; cbn [Rsum]; intros H; [lra|].
  destruct (b n) eqn:E.
  - exists n. split; [lia|exact E].
  - destruct IH as [c [Hc Hb]]; [lra|]. exists c. split; [lia|exact Hb].
Qed.

Lemma in_grid_bin (r H x : R) :
  0 < H -> in_grid r H x = true ->
  exists c, (c < length (offsets r H))%nat /\
    r + IZR (nth c (offsets r H) 0%Z) * H <= x
      < r + IZR (nth c (offsets r H) 0%Z + 1) * H.
Proof.
  intros HH G. pose proof (Rsum_offsets r H x HH) as S. rewrite G in S.
  apply Rsum_indicator in S. destruct S as [c [Hc Hb]].
  exists c. split; [exact Hc|].
  apply andb_true_iff in Hb. destruct Hb as [A B].
  apply Rleb_true in A. apply Rltb_true in B. split; assumption.
Qed.

Lemma bin_in_grid (r H x : R) (c : nat) :
  0 < H -> (c < length (offsets r H))%nat ->
  r + IZR (nth c (offsets r H) 0%Z) * H <= x
    < r + IZR (nth c (offsets r H) 0%Z + 1) * H ->
  in_grid r H x = true.
Proof.
  intros HH Hc Hx. pose proof (Rsum_offsets r H x HH) as S.
  destruct (in_grid r H x); [reflexivity|exfalso].
  assert (Z0 : forall n (f : nat -> R), (forall k, 0 <= f k) -> Rsum n f = 0 ->
               forall k, (k < n)%nat -> f k = 0).
  { intros n f Hf. induction n as [|n IH]; cbn [Rsum]; intros E k Hk; [lia|].
    assert (P : 0 <= Rsum n f).
    { clear -Hf. induction n as [|n IH]; cbn [Rsum]; [lra|]. specialize (Hf n). lra. }
    specialize (Hf n) as Hn.
    destruct (Nat.eq_dec k n) as [->|Hne]; [lra|]. apply IH; [lra|lia]. }
  specialize (Z0 _ _ (fun k =>
    match Rleb (r + IZR (nth k (offsets r H) 0%Z) * H) x
          && Rltb x (r + IZR (nth k (offsets r H) 0%Z + 1) * H) as b
      return 0 <= (if b then 1 else 0)
    with true => Rle_0_1 | false => Rle_refl 0 end) S c Hc).
  cbv beta in Z0.
  replace (Rleb (r + IZR (nth c (offsets r H) 0%Z) * H) x) with true in Z0
    by (symmetry; apply Rleb_true; lra).
  replace (Rltb x (r + IZR (nth c (offsets r H) 0%Z + 1) * H)) with true in Z0
    by (symmetry; apply Rltb_true; lra).
  cbn [andb] in Z0. lra.
Qed.

(** X18.  The two-dimensional lookup of lines 312-318, for positive bin
    widths and a matrix [P] with one entry per cell of the grid, is the
    piecewise-constant function of its cells: at a point of the cell at
    position [(c1, c2)] it returns [P[c1, c2] / (h_1 * h_2)]; every point of
    the grid rectangle lies in such a cell; and outside the rectangle it
    returns 0.  No call raises.  (Unlike the one-dimensional lookup, the
    test uses the shifted half-open cell and the subscript is the
    position.) *)
Theorem f_1_2d_piecewise (r_1 h_1 r_2 h_2 : R) (P : ndarray npfloat) (x y : R) :
  0 < h_1 -> 0 < h_2 ->
  nrows P = length (offsets r_1 h_1) -> ncols P = length (offsets r_2 h_2) ->
  (forall c1 c2,
     (c1 < length (offsets r_1 h_1))%nat -> (c2 < length (offsets r_2 h_2))%nat ->
     in_cell r_1 h_1 r_2 h_2 (nth c1 (offsets r_1 h_1) 0%Z)
                             (nth c2 (offsets r_2 h_2) 0%Z) x y = true ->
     f_1_2d r_1 h_1 r_2 h_2 (offsets r_1 h_1) (offsets r_2 h_2) P x y
     = Ok (xmul (Fin (1 / (h_1 * h_2))) (elt P c1 c2))) /\
  (in_grid r_1 h_1 x && in_grid r_2 h_2 y = true ->
   exists c1 c2,
     (c1 < length (offsets r_1 h_1))%nat /\ (c2 < length (offsets r_2 h_2))%nat /\
     in_cell r_1 h_1 r_2 h_2 (nth c1 (offsets r_1 h_1) 0%Z)
                             (nth c2 (offsets r_2 h_2) 0%Z) x y = true) /\
  (in_grid r_1 h_1 x && in_grid r_2 h_2 y = false ->
   f_1_2d r_1 h_1 r_2 h_2 (offsets r_1 h_1) (offsets r_2 h_2) P x y = Ok (Fin 0)).
Proof.
  intros H1 H2 S1 S2.
  assert (D : np_true_divide 1 (h_1 * h_2) = Fin (1 / (h_1 * h_2))).
  { unfold np_true_divide. destruct (Req_dec_T (h_1 * h_2) 0) as [E|_]; [|reflexivity].
    exfalso. pose proof (Rmult_lt_0_compat _ _ H1 H2). lra. }
  assert (U : f_1_2d r_1 h_1 r_2 h_2 (offsets r_1 h_1) (offsets r_2 h_2) P x y
              = (s <- for_each (seq 0 (length (offsets r_1 h_1)))
                        (fun c1 s1 =>
                           for_each (seq 0 (length (offsets r_2 h_2)))
                             (fun c2 s2 =>
                                if in_cell r_1 h_1 r_2 h_2
                                     (nth c1 (offsets r_1 h_1) 0%Z)
                                     (nth c2 (offsets r_2 h_2) 0%Z) x y
                                then v <- getitem P c1 c2 ;; Ok (xadd s2 v)
                                else Ok s2) s1) (Fin 0) ;;
                 Ok (xmul (Fin (1 / (h_1 * h_2))) s))).
  { unfold f_1_2d. rewrite D. rewrite (for_each_enumerate (offsets r_1 h_1) 0%Z).
    f_equal. apply for_each_ext_in. intros c1 s1 _.
    rewrite (for_each_enumerate (offsets r_2 h_2) 0%Z). reflexivity. }
  split; [|split].
  - intros c1 c2 L1 L2 C. rewrite U.
    rewrite (for_each_single _ c1) ; [|exact L1|].
    + rewrite (for_each_single _ c2); [|exact L2|].
      * rewrite C, getitem_Ok by lia. cbn [bind]. rewrite xadd_zero_l. reflexivity.
      * intros k s' Hk Hne.
        destruct (in_cell r_1 h_1 r_2 h_2 (nth c1 (offsets r_1 h_1) 0%Z)
                    (nth k (offsets r_2 h_2) 0%Z) x y) eqn:C'; [|reflexivity].
        exfalso. destruct (cell_unique r_1 h_1 r_2 h_2 x y c1 c2 c1 k); auto.
    + intros k s' Hk Hne. apply for_each_unchanged. intros k2 s2 Hk2.
      apply in_seq in Hk2.
      destruct (in_cell r_1 h_1 r_2 h_2 (nth k (offsets r_1 h_1) 0%Z)
                  (nth k2 (offsets r_2 h_2) 0%Z) x y) eqn:C'; [|reflexivity].
      exfalso. destruct (cell_unique r_1 h_1 r_2 h_2 x y c1 c2 k k2); auto. lia.
  - intros G. apply andb_true_iff in G. destruct G as [G1 G2].
    destruct (in_grid_bin r_1 h_1 x H1 G1) as [c1 [L1 B1]].
    destruct (in_grid_bin r_2 h_2 y H2 G2) as [c2 [L2 B2]].
    exists c1, c2. split; [exact L1|]. split; [exact L2|].
    apply in_cell_true. split; assumption.
  - intros G. rewrite U.
    rewrite for_each_unchanged.
    + cbn [bind]. simpl. f_equal. f_equal. lra.
    + intros c1 s1 Hc1. apply in_seq in Hc1. apply for_each_unchanged.
      intros c2 s2 Hc2. apply in_seq in Hc2.
      destruct (in_cell r_1 h_1 r_2 h_2 (nth c1 (offsets r_1 h_1) 0%Z)
                  (nth c2 (offsets r_2 h_2) 0%Z) x y) eqn:C; [|reflexivity].
      exfalso. apply in_cell_true in C. destruct C as [C1 C2].
      rewrite (bin_in_grid r_1 h_1 x c1 H1) in G by (lia || exact C1).
      rewrite (bin_in_grid r_2 h_2 y c2 H2) in G by (lia || exact C2).
      discriminate.
Qed.

Lemma f_1_2d_piecewise_witness :
  (forall c1 c2,
     (c1 < length (offsets 0 (1 / 2)))%nat -> (c2 < length (offsets 0 (1 / 2)))%nat ->
     in_cell 0 (1 / 2) 0 (1 / 2) (nth c1 (offsets 0 (1 / 2)) 0%Z)
                                 (nth c2 (offsets 0 (1 / 2)) 0%Z) (1 / 4) (1 / 4) = true ->
     f_1_2d 0 (1 / 2) 0 (1 / 2) (offsets 0 (1 / 2)) (offsets 0 (1 / 2))
       (mk_ndarray 1 1 (fun _ _ => Fin 3)) (1 / 4) (1 / 4)
     = Ok (xmul (Fin (1 / (1 / 2 * (1 / 2))))
             (elt (mk_ndarray 1 1 (fun _ _ => Fin 3)) c1 c2))) /\
  (in_grid 0 (1 / 2) (1 / 4) && in_grid 0 (1 / 2) (1 / 4) = true ->
   exists c1 c2,
     (c1 < length (offsets 0 (1 / 2)))%nat /\ (c2 < length (offsets 0 (1 / 2)))%nat /\
     in_cell 0 (1 / 2) 0 (1 / 2) (nth c1 (offsets 0 (1 / 2)) 0%Z)
                                 (nth c2 (offsets 0 (1 / 2)) 0%Z) (1 / 4) (1 / 4) = true) /\
  (in_grid 0 (1 / 2) (1 / 4) && in_grid 0 (1 / 2) (1 / 4) = false ->
   f_1_2d 0 (1 / 2) 0 (1 / 2) (offsets 0 (1 / 2)) (offsets 0 (1 / 2))
     (mk_ndarray 1 1 (fun _ _ => Fin 3)) (1 / 4) (1 / 4) = Ok (Fin 0)).
Proof.
  apply (f_1_2d_piecewise 0 (1 / 2) 0 (1 / 2) (mk_ndarray 1 1 (fun _ _ => Fin 3))
           (1 / 4) (1 / 4)).
  - lra.
  - lra.
  - rewrite offsets_0_half. reflexivity.
  - rewrite offsets_0_half. reflexivity.
Defined.
